(** * Genre store service: a shallow embedding of [server/index.js]

    The Express handlers of the genre API are embedded as functions on an
    explicit store (the module-level [genres] array and the [nextId]
    counter).  Every handler returns the store it leaves behind together
    with the response it sends.

    Modelling conventions.
    - The numbers of the store are integers ([Z]); this is exact for the
      ids and the counter as long as they stay below 2^53.
    - JavaScript strings are sequences of code units in the range 0..255
      ([ascii] read as Latin-1), with [trim], [toLowerCase] and the regular
      expression class [\s] restricted to that range.
    - The [name], [description] and [image] of a JSON body are primitive
      values: a missing property ([undefined]), [null], booleans, integer
      numbers and strings.  The elements of the [ids] array of a bulk
      delete are any JSON values ([Js.json]): numbers that are not integers
      or that print with an exponent, arrays and objects included.
    - [new Date().toISOString()] is a clock reading supplied by the
      environment, kept as milliseconds ([Z]); ISO strings of four-digit
      years compare like the readings they print.
    - An exception caught by a handler's [try]/[catch] is the 500 answer. *)

From Stdlib Require Import ZArith NArith String Ascii Bool Lia DecimalString Sorted.
From Stdlib Require Import DecimalPos.
From stdpp Require Import base option numbers strings list sorting.

Local Open Scope string_scope.
Local Open Scope list_scope.

(** ** Strings *)

Module JsString.

Definition code (c : ascii) : N := N_of_ascii c.

(** WhiteSpace and LineTerminator code units below 256: TAB, LF, VT, FF,
    CR, SP and NBSP.  [String.prototype.trim], [parseInt] and [\s] all use
    this set. *)
Definition isWhiteSpace (c : ascii) : bool :=
  let n := code c in
  ((9 <=? n) && (n <=? 13) || (n =? 32) || (n =? 160))%N.

Fixpoint trimStart (s : string) : string :=
  match s with
  | EmptyString => EmptyString
  | String c r => if isWhiteSpace c then trimStart r else s
  end.

(** [trimEnd] drops the trailing run of white space. *)
Fixpoint trimEnd (s : string) : string :=
  match s with
  | EmptyString => EmptyString
  | String c r =>
      match trimEnd r with
      | EmptyString => if isWhiteSpace c then EmptyString else String c EmptyString
      | r' => String c r'
      end
  end.

Definition trim (s : string) : string := trimEnd (trimStart s).

(** Lower-casing of one code unit: A-Z, and the Latin-1 capitals
    U+00C0..U+00DE except the multiplication sign U+00D7. *)
Definition toLowerChar (c : ascii) : ascii :=
  let n := code c in
  if ((65 <=? n) && (n <=? 90))%N then ascii_of_N (n + 32)
  else if ((192 <=? n) && (n <=? 222) && negb (n =? 215))%N then ascii_of_N (n + 32)
  else c.

Fixpoint toLowerCase (s : string) : string :=
  match s with
  | EmptyString => EmptyString
  | String c r => String (toLowerChar c) (toLowerCase r)
  end.

(** [s.replace(/\s+/g, '')]: every white-space code unit is removed. *)
Fixpoint removeWhiteSpace (s : string) : string :=
  match s with
  | EmptyString => EmptyString
  | String c r =>
      if isWhiteSpace c then removeWhiteSpace r else String c (removeWhiteSpace r)
  end.

(** [s.includes(sub)]. *)
Fixpoint includes (s sub : string) : bool :=
  String.prefix sub s
  || match s with
     | EmptyString => false
     | String _ r => includes r sub
     end.

(** [a < b] on strings: lexicographic on code units. *)
Fixpoint ltb (a b : string) : bool :=
  match a, b with
  | _, EmptyString => false
  | EmptyString, String _ _ => true
  | String x a', String y b' =>
      if (code x <? code y)%N then true
      else if (code y <? code x)%N then false
      else ltb a' b'
  end.

End JsString.

(** ** Values and the built-ins the server calls *)

Module Js.

Inductive value : Type :=
| Undefined
| Null
| Bool (b : bool)
| Num (n : Z)
| Str (s : string).

(** The result of a numeric conversion. *)
Inductive number : Type :=
| NaN
| Int (n : Z).

(** ToBoolean: [!v] is [negb (truthy v)]. *)
Definition truthy (v : value) : bool :=
  match v with
  | Undefined | Null => false
  | Bool b => b
  | Num n => negb (n =? 0)%Z
  | Str s => negb (String.eqb s "")
  end.

(** ToString on the primitive values.  [Num n] prints in plain decimal,
    as Number::toString does for an integer of magnitude below 10^21: the
    ids of the store and the values of the counter.  A number of a request
    body that is larger, or not an integer, is a [Float] below. *)
Definition toString (v : value) : string :=
  match v with
  | Undefined => "undefined"
  | Null => "null"
  | Bool true => "true"
  | Bool false => "false"
  | Num n => NilZero.string_of_int (Z.to_int n)
  | Str s => s
  end.

(** The value of a digit in radixes up to 36. *)
Definition digitValue (c : ascii) : option Z :=
  let n := Z.of_N (JsString.code c) in
  if ((48 <=? n) && (n <=? 57))%Z then Some (n - 48)%Z
  else if ((97 <=? n) && (n <=? 122))%Z then Some (n - 87)%Z
  else if ((65 <=? n) && (n <=? 90))%Z then Some (n - 55)%Z
  else None.

(** The longest prefix of radix-[radix] digits, read as an integer;
    [acc] is [None] until a digit has been read. *)
Fixpoint readDigits (radix : Z) (s : string) (acc : option Z) : option Z :=
  match s with
  | EmptyString => acc
  | String c r =>
      match digitValue c with
      | Some d =>
          if (d <? radix)%Z
          then readDigits radix r (Some (radix * default 0%Z acc + d)%Z)
          else acc
      | None => acc
      end
  end.

Definition isX (c : ascii) : bool :=
  ((JsString.code c =? 120) || (JsString.code c =? 88))%N.

(** [parseInt(s)] with no radix argument: leading white space is skipped,
    a sign is read, a [0x]/[0X] prefix selects radix 16, and the longest
    digit prefix is the result; no digit at all gives NaN. *)
Definition parseIntString (s : string) : number :=
  let s1 := JsString.trimStart s in
  let '(sign, s2) :=
    match s1 with
    | String "-" r => ((-1)%Z, r)
    | String "+" r => (1%Z, r)
    | _ => (1%Z, s1)
    end in
  let '(radix, s3) :=
    match s2 with
    | String "0" (String x r) => if isX x then (16%Z, r) else (10%Z, s2)
    | _ => (10%Z, s2)
    end in
  match readDigits radix s3 None with
  | None => NaN
  | Some m => Int (sign * m)
  end.

Definition parseInt (v : value) : number := parseIntString (toString v).

(** A value of a JSON body, as [JSON.parse] builds it.  An integer of
    magnitude below 10^21, which prints in plain decimal, is [Prim (Num n)].
    Any other finite number is a [Float]: its sign and the integers [s]
    and [n] of Number::toString, the number being [s * 10^(n - k)] for the
    [k] digits of [s], and [s] not a multiple of 10.  A numeral beyond the
    range of a double is [Infinite]. *)
#[warnings="-register-all"]
Inductive json : Type :=
| Prim (v : value)
| Float (negative : bool) (s : positive) (n : Z)
| Infinite (negative : bool)
| Arr (items : list json)
| Obj (props : list (string * json)).

Fixpoint zeros (m : nat) : string :=
  match m with
  | O => EmptyString
  | S m' => String "0" (zeros m')
  end.

(** Number::toString in radix 10, from the digits of [s] and the position
    [n] of the decimal point: plain decimal when -5 <= n <= 21, exponent
    form otherwise. *)
Definition printNumber (s : positive) (n : Z) : string :=
  let digits := NilZero.string_of_uint (Pos.to_uint s) in
  let k := Z.of_nat (String.length digits) in
  if ((-5 <=? n) && (n <=? 21))%Z
  then
    if (k <=? n)%Z then (digits ++ zeros (Z.to_nat (n - k)))%string
    else if (0 <? n)%Z
    then (substring 0 (Z.to_nat n) digits ++ "."
          ++ substring (Z.to_nat n) (Z.to_nat (k - n)) digits)%string
    else ("0." ++ zeros (Z.to_nat (- n)) ++ digits)%string
  else
    let e := (n - 1)%Z in
    let exponent :=
      ((if (0 <=? e)%Z then "+" else "-")
       ++ NilZero.string_of_uint (N.to_uint (Z.to_N (Z.abs e))))%string in
    match digits with
    | EmptyString => EmptyString
    | String d EmptyString => String d ("e" ++ exponent)
    | String d rest => String d ("." ++ rest ++ "e" ++ exponent)
    end.

(** ToString on a JSON value; [None] is the TypeError.  An array prints
    as [join(",")] does, [null] elements as the empty string.  An object
    prints through [Object.prototype.toString], unless it has an own
    property named [toString]: a JSON value is never callable, the
    inherited [valueOf] returns the object itself, and OrdinaryToPrimitive
    throws. *)
Fixpoint stringOf (x : json) : option string :=
  match x with
  | Prim v => Some (toString v)
  | Float negative s n =>
      Some ((if negative then "-" else "") ++ printNumber s n)%string
  | Infinite negative => Some (if negative then "-Infinity" else "Infinity")
  | Arr items =>
      (fix join (l : list json) : option string :=
         match l with
         | [] => Some EmptyString
         | y :: r =>
             a ← match y with
                 | Prim Undefined | Prim Null => Some EmptyString
                 | _ => stringOf y
                 end;
             match r with
             | [] => Some a
             | _ :: _ => b ← join r; Some (a ++ "," ++ b)%string
             end
         end) items
  | Obj props =>
      if existsb (fun p => String.eqb (fst p) "toString") props then None
      else Some "[object Object]"
  end.

(** [parseInt(x)] for an element of a body: ToString, then the reading. *)
Definition parseIntOf (x : json) : option number :=
  parseIntString <$> stringOf x.

(** The integers among the values [x] prints, the elements of an array
    included, are of magnitude below 10^21: the range in which
    [Prim (Num n)] stands for the number [n]. *)
Fixpoint plainIntegers (x : json) : bool :=
  match x with
  | Prim (Num n) => (Z.abs n <? 10 ^ 21)%Z
  | Arr items => forallb plainIntegers items
  | _ => true
  end.

(** [n === x] for a number [n] held in the store and a conversion result
    [x]: NaN is equal to nothing. *)
Definition strictEqNum (n : Z) (x : number) : Prop :=
  x = Int n.

#[global] Instance number_eq_dec : EqDecision number.
Proof. solve_decision. Defined.

#[global] Instance value_eq_dec : EqDecision value.
Proof. solve_decision. Defined.

#[global] Instance strictEqNum_dec n x : Decision (strictEqNum n x).
Proof. unfold strictEqNum. apply _. Defined.

End Js.

(** ** The store and the handlers *)

Import JsString Js.

Definition timestamp : Type := Z.
Bind Scope Z_scope with timestamp.

(** One element of the [genres] array.  The seed literals carry no
    [updatedAt] property, hence the option. *)
Record genre : Type := Genre {
  id : Z;
  name : string;
  description : string;
  image : value;
  createdAt : timestamp;
  updatedAt : option timestamp
}.

(** The module-level state: [let genres = [...]] and [let nextId = 5]. *)
Record store : Type := Store {
  genres : list genre;
  nextId : Z
}.

(** The properties of [req.body] the handlers read. *)
Record body : Type := Body {
  body_name : value;
  body_description : value;
  body_image : value
}.

Inductive response : Type :=
| Listed (data : list genre)
| Found (data : genre)
| Created (data : genre)
| Updated (data : genre)
| Deleted (data : genre)
| BulkDeleted (deleted : list genre) (notFound : list json)
| ValidationFailed (errors : list string)
| BadRequest
| NotFound
| Conflict
| InternalError.

Definition status (r : response) : Z :=
  match r with
  | Listed _ | Found _ | Updated _ | Deleted _ | BulkDeleted _ _ => 200
  | Created _ => 201
  | ValidationFailed _ | BadRequest => 400
  | NotFound => 404
  | Conflict => 409
  | InternalError => 500
  end.

#[global] Instance genre_eq_dec : EqDecision genre.
Proof. solve_decision. Defined.

(** The array literal of lines 16-21; the four [new Date()] readings are
    taken while the module loads. *)
Definition action (t : timestamp) : genre :=
  Genre 1 "Action" "Fast-paced, stunt-heavy films" (Str "/images/action.jpg") t None.
Definition comedy (t : timestamp) : genre :=
  Genre 2 "Comedy" "Funny films to make you laugh" (Str "/images/comedy.jpg") t None.
Definition drama (t : timestamp) : genre :=
  Genre 3 "Drama" "Emotion-driven storytelling" (Str "/images/drama.jpg") t None.
Definition scifi (t : timestamp) : genre :=
  Genre 4 "Sci-Fi" "Futuristic concepts and tech" (Str "/images/scifi.jpg") t None.

Definition seed (t1 t2 t3 t4 : timestamp) : list genre :=
  [action t1; comedy t2; drama t3; scifi t4].

Definition initialStore (t1 t2 t3 t4 : timestamp) : store :=
  Store (seed t1 t2 t3 t4) 5.

(** [const getNextId = () => nextId++]. *)
Definition getNextId (st : store) : Z * store :=
  (nextId st, Store (genres st) (nextId st + 1)).

(** [genres.findIndex(g => g.id === parseInt(id))], together with the
    element found ([genres[genreIndex]]); [None] is the index -1. *)
Definition findIndexById (idArg : value) (gs : list genre) : option (nat * genre) :=
  list_find (fun g => strictEqNum (id g) (parseInt idArg)) gs.

(** [const findGenreById = (id) => genres.find(g => g.id === parseInt(id))]. *)
Definition findGenreById (st : store) (idArg : value) : option genre :=
  snd <$> findIndexById idArg (genres st).

(** [v.trim()]: a TypeError ([None]) unless [v] is a string. *)
Definition trimOf (v : value) : option string :=
  match v with
  | Str s => Some (trim s)
  | _ => None
  end.

(** [v.toLowerCase()], likewise. *)
Definition toLowerCaseOf (v : value) : option string :=
  match v with
  | Str s => Some (toLowerCase s)
  | _ => None
  end.

(** [!v || v.trim().length < n]. *)
Definition tooShort (v : value) (n : nat) : option bool :=
  if negb (truthy v) then Some true
  else t ← trimOf v; Some (String.length t <? n)%nat.

Definition nameError : string := "Name must be at least 2 characters long".
Definition descriptionError : string :=
  "Description must be at least 5 characters long".

(** [validateGenre(genre)]: the list of violated rules, or a TypeError. *)
Definition validateGenre (nameV descriptionV : value) : option (list string) :=
  e1 ← tooShort nameV 2;
  e2 ← tooShort descriptionV 5;
  Some ((if e1 : bool then [nameError] else [])
        ++ (if e2 : bool then [descriptionError] else [])).

(** The default image path as the specification gives it:
    [/images/<name, lower-cased, all white space removed>.jpg]. *)
Definition defaultImage (rawName : string) : string :=
  "/images/" ++ removeWhiteSpace (toLowerCase rawName) ++ ".jpg".

(** [a || b]. *)
Definition orElse (a b : value) : value :=
  if truthy a then a else b.

(** *** GET /api/genres/:id *)
Definition getGenre (st : store) (idParam : string) : store * response :=
  match findGenreById st (Str idParam) with
  | None => (st, NotFound)
  | Some g => (st, Found g)
  end.

(** *** POST /api/genres *)
Definition postGenre (st : store) (b : body) (now1 now2 : timestamp)
  : store * response :=
  match validateGenre (body_name b) (body_description b) with
  | None => (st, InternalError)
  | Some (e :: es) => (st, ValidationFailed (e :: es))
  | Some [] =>
      match trimOf (body_name b) with
      | None => (st, InternalError)
      | Some wanted =>
          match list_find (fun g => toLowerCase (name g) = toLowerCase wanted)
                          (genres st) with
          | Some _ => (st, Conflict)
          | None =>
              let '(newId, st1) := getNextId st in
              match trimOf (body_name b), trimOf (body_description b),
                    toLowerCaseOf (body_name b) with
              | Some n, Some d, Some lower =>
                  let newGenre :=
                    {| id := newId;
                       name := n;
                       description := d;
                       image := orElse (body_image b)
                                  (Str ("/images/" ++ removeWhiteSpace lower ++ ".jpg"));
                       createdAt := now1;
                       updatedAt := Some now2 |} in
                  (Store (genres st1 ++ [newGenre]) (nextId st1), Created newGenre)
              | _, _, _ => (st1, InternalError)
              end
          end
      end
  end.

(** *** PUT /api/genres/:id *)
Definition putGenre (st : store) (idParam : string) (b : body) (now : timestamp)
  : store * response :=
  match findIndexById (Str idParam) (genres st) with
  | None => (st, NotFound)
  | Some (genreIndex, current) =>
      match validateGenre (body_name b) (body_description b) with
      | None => (st, InternalError)
      | Some (e :: es) => (st, ValidationFailed (e :: es))
      | Some [] =>
          match trimOf (body_name b), trimOf (body_description b) with
          | Some n, Some d =>
              match list_find
                      (fun g => ¬ strictEqNum (id g) (parseInt (Str idParam))
                                ∧ toLowerCase (name g) = toLowerCase n)
                      (genres st) with
              | Some _ => (st, Conflict)
              | None =>
                  let updatedGenre :=
                    {| id := id current;
                       name := n;
                       description := d;
                       image := orElse (body_image b) (image current);
                       createdAt := createdAt current;
                       updatedAt := Some now |} in
                  (Store (<[genreIndex := updatedGenre]> (genres st)) (nextId st),
                   Updated updatedGenre)
              end
          | _, _ => (st, InternalError)
          end
      end
  end.

(** The [updates] object of the PATCH handler: a property is present when
    the body's is not [undefined]; [name] and [description] are trimmed. *)
Record updates : Type := Updates {
  upd_name : option string;
  upd_description : option string;
  upd_image : option value
}.

Definition trimmedIfPresent (v : value) : option (option string) :=
  match v with
  | Undefined => Some None
  | _ => Some <$> trimOf v
  end.

Definition collectUpdates (b : body) : option updates :=
  n ← trimmedIfPresent (body_name b);
  d ← trimmedIfPresent (body_description b);
  Some (Updates n d
          (match body_image b with Undefined => None | v => Some v end)).

(** Reading a property of [updates]: [undefined] when it is missing. *)
Definition propOf (o : option string) : value :=
  match o with
  | Some s => Str s
  | None => Undefined
  end.

(** *** PATCH /api/genres/:id *)
Definition patchGenre (st : store) (idParam : string) (b : body) (now : timestamp)
  : store * response :=
  match findIndexById (Str idParam) (genres st) with
  | None => (st, NotFound)
  | Some (genreIndex, current) =>
      match collectUpdates b with
      | None => (st, InternalError)
      | Some u =>
          let checked :=
            if truthy (propOf (upd_name u)) || truthy (propOf (upd_description u))
            then validateGenre
                   (orElse (propOf (upd_name u)) (Str (name current)))
                   (orElse (propOf (upd_description u)) (Str (description current)))
            else Some [] in
          match checked with
          | None => (st, InternalError)
          | Some (e :: es) => (st, ValidationFailed (e :: es))
          | Some [] =>
              let duplicate :=
                match upd_name u with
                | Some n =>
                    if truthy (Str n)
                    then list_find
                           (fun g => ¬ strictEqNum (id g) (parseInt (Str idParam))
                                     ∧ toLowerCase (name g) = toLowerCase n)
                           (genres st)
                    else None
                | None => None
                end in
              match duplicate with
              | Some _ => (st, Conflict)
              | None =>
                  let updatedGenre :=
                    {| id := id current;
                       name := default (name current) (upd_name u);
                       description := default (description current) (upd_description u);
                       image := default (image current) (upd_image u);
                       createdAt := createdAt current;
                       updatedAt := Some now |} in
                  (Store (<[genreIndex := updatedGenre]> (genres st)) (nextId st),
                   Updated updatedGenre)
              end
          end
      end
  end.

(** *** DELETE /api/genres/:id *)
Definition deleteGenre (st : store) (idParam : string) : store * response :=
  match findIndexById (Str idParam) (genres st) with
  | None => (st, NotFound)
  | Some (genreIndex, deletedGenre) =>
      (Store (delete genreIndex (genres st)) (nextId st), Deleted deletedGenre)
  end.

(** *** DELETE /api/genres

    [genres.findIndex(g => g.id === parseInt(id))] for an element [id] of
    the body.  The callback, and with it [parseInt(id)], runs for the first
    genre of the array if there is one: on an empty array nothing is
    printed and the index is -1, on any other an [id] that cannot be
    printed raises the TypeError (the outer [None]). *)
Definition findIndexOf (x : json) (gs : list genre) : option (option (nat * genre)) :=
  match gs with
  | [] => Some None
  | _ :: _ =>
      n ← parseIntOf x;
      Some (list_find (fun g => strictEqNum (id g) n) gs)
  end.

(** The [ids.forEach] loop, threading the array and the two result
    lists.  The array is the module-level one, spliced in place: when a
    TypeError ends the loop, the result lists are lost ([None]) and the
    array stays as the loop has left it. *)
Fixpoint bulkLoop (gs : list genre) (ids : list json)
    (deletedGenres : list genre) (notFoundIds : list json)
  : list genre * option (list genre * list json) :=
  match ids with
  | [] => (gs, Some (deletedGenres, notFoundIds))
  | x :: rest =>
      match findIndexOf x gs with
      | None => (gs, None)
      | Some (Some (genreIndex, g)) =>
          bulkLoop (delete genreIndex gs) rest (deletedGenres ++ [g]) notFoundIds
      | Some None => bulkLoop gs rest deletedGenres (notFoundIds ++ [x])
      end
  end.

(** [ids] is [None] when the body's [ids] is missing or not an array.  A
    TypeError raised in the loop is caught by the handler: the answer is
    500, after the splices already done. *)
Definition deleteGenres (st : store) (ids : option (list json)) : store * response :=
  match ids with
  | None | Some [] => (st, BadRequest)
  | Some l =>
      match bulkLoop (genres st) l [] [] with
      | (gs, Some (deletedGenres, notFoundIds)) =>
          (Store gs (nextId st), BulkDeleted deletedGenres notFoundIds)
      | (gs, None) => (Store gs (nextId st), InternalError)
      end
  end.

(** *** GET /api/genres

    A property read [a[sort]] yields a primitive value or one of the ISO
    date strings, which is kept as its clock reading. *)
Inductive fieldValue : Type :=
| Plain (v : value)
| IsoDate (t : timestamp).

(** [g[key]] for the own properties of a genre object; any other key reads
    [undefined] (properties inherited from [Object.prototype] are not
    modelled). *)
Definition getField (g : genre) (key : string) : fieldValue :=
  if String.eqb key "id" then Plain (Num (id g))
  else if String.eqb key "name" then Plain (Str (name g))
  else if String.eqb key "description" then Plain (Str (description g))
  else if String.eqb key "image" then Plain (image g)
  else if String.eqb key "createdAt" then IsoDate (createdAt g)
  else if String.eqb key "updatedAt" then
    match updatedAt g with
    | Some t => IsoDate t
    | None => Plain Undefined
    end
  else Plain Undefined.

(** [typeof x === 'string']. *)
Definition isString (x : fieldValue) : bool :=
  match x with
  | Plain (Str _) | IsoDate _ => true
  | Plain _ => false
  end.

(** [x.toLowerCase()] on a property value; an ISO date keeps its order
    under lower-casing.  [None] is the TypeError. *)
Definition lowerField (x : fieldValue) : option fieldValue :=
  match x with
  | Plain (Str s) => Some (Plain (Str (toLowerCase s)))
  | IsoDate t => Some (IsoDate t)
  | Plain _ => None
  end.

Fixpoint allDigits (s : string) : bool :=
  match s with
  | EmptyString => true
  | String c r =>
      match digitValue c with
      | Some d => (d <? 10)%Z && allDigits r
      | None => false
      end
  end.

(** ToNumber.  On strings only the decimal integer literals (and the empty
    string) have a value in the integer model; every other string reads as
    NaN here. *)
Definition toNumber (x : fieldValue) : number :=
  match x with
  | Plain Undefined => NaN
  | Plain Null => Int 0
  | Plain (Bool b) => Int (if b then 1 else 0)
  | Plain (Num n) => Int n
  | Plain (Str s) =>
      match trim s with
      | EmptyString => Int 0
      | String c r as t =>
          let digits :=
            if (Ascii.eqb c "-" || Ascii.eqb c "+")%bool then r else t in
          match digits with
          | EmptyString => NaN
          | _ => if allDigits digits then parseIntString t else NaN
          end
      end
  | IsoDate _ => NaN
  end.

(** [x > y]: code-unit order when both are strings, numeric order
    otherwise, false as soon as one side is NaN.  The two operands of the
    comparator are the same property of two genres, so an ISO date only
    ever meets another one or [undefined]. *)
Definition greater (x y : fieldValue) : bool :=
  match x, y with
  | Plain (Str a), Plain (Str b) => JsString.ltb b a
  | IsoDate a, IsoDate b => (b <? a)%Z
  | _, _ =>
      match toNumber x, toNumber y with
      | Int a, Int b => (b <? a)%Z
      | _, _ => false
      end
  end.

(** The comparator handed to [result.sort]: 1 or -1, or a TypeError. *)
Definition compareGenres (sort order : string) (a b : genre) : option Z :=
  let aVal := getField a sort in
  let bVal := getField b sort in
  '(aVal, bVal) ←
    (if isString aVal
     then a' ← lowerField aVal; b' ← lowerField bVal; Some (a', b')
     else Some (aVal, bVal));
  if String.eqb order "desc"
  then Some (if greater bVal aVal then 1 else -1)%Z
  else Some (if greater aVal bVal then 1 else -1)%Z.

(** [Array.prototype.sort(comparefn)] as an insertion sort; an exception
    of the comparator aborts the sort.  Which pairs an engine compares, in
    which argument order, and where it puts elements that tie is its own
    business: this array is the engine's when no two elements tie and the
    comparator cannot throw on any pair, for then only one arrangement is
    in order.  The theorems about sorted answers are stated under those two
    conditions. *)
Fixpoint insertSorted {A} (comparefn : A -> A -> option Z) (x : A) (l : list A)
  : option (list A) :=
  match l with
  | [] => Some [x]
  | y :: r =>
      c ← comparefn x y;
      if (c <=? 0)%Z then Some (x :: y :: r)
      else r' ← insertSorted comparefn x r; Some (y :: r')
  end.

Fixpoint sortWith {A} (comparefn : A -> A -> option Z) (l : list A)
  : option (list A) :=
  match l with
  | [] => Some []
  | x :: r => r' ← sortWith comparefn r; insertSorted comparefn x r'
  end.

(** The query parameters are strings, [None] when missing; [order]
    defaults to ['asc']. *)
Definition getGenres (st : store) (sort order search : option string)
  : store * response :=
  let order := default "asc" order in
  let result := genres st in
  let result :=
    match search with
    | Some s =>
        if truthy (Str s)
        then
          let searchLower := toLowerCase s in
          List.filter
            (fun g => includes (toLowerCase (name g)) searchLower
                      || includes (toLowerCase (description g)) searchLower)
            result
        else result
    | None => result
    end in
  match sort with
  | Some key =>
      if truthy (Str key)
      then match sortWith (compareGenres key order) result with
           | Some sorted => (st, Listed sorted)
           | None => (st, InternalError)
           end
      else (st, Listed result)
  | None => (st, Listed result)
  end.

(** ** Requests and runs of the server *)

(** A request together with the clock readings its handler takes. *)
Inductive request : Type :=
| GetGenres (sort order search : option string)
| GetGenre (idParam : string)
| PostGenre (b : body) (now1 now2 : timestamp)
| PutGenre (idParam : string) (b : body) (now : timestamp)
| PatchGenre (idParam : string) (b : body) (now : timestamp)
| DeleteGenre (idParam : string)
| DeleteGenres (ids : option (list json)).

Definition handle (st : store) (r : request) : store * response :=
  match r with
  | GetGenres sort order search => getGenres st sort order search
  | GetGenre i => getGenre st i
  | PostGenre b now1 now2 => postGenre st b now1 now2
  | PutGenre i b now => putGenre st i b now
  | PatchGenre i b now => patchGenre st i b now
  | DeleteGenre i => deleteGenre st i
  | DeleteGenres ids => deleteGenres st ids
  end.

(** The requests are handled one after the other (section 5 of the
    specification); [run] returns the final store and every response. *)
Fixpoint run (st : store) (rs : list request) : store * list response :=
  match rs with
  | [] => (st, [])
  | r :: rest =>
      let '(st1, resp) := handle st r in
      let '(st2, resps) := run st1 rest in
      (st2, resp :: resps)
  end.

Definition storeAfter (st : store) (rs : list request) : store := fst (run st rs).

(** The ids handed out by [getNextId] during a run: those of the records
    the 201 responses carry. *)
Definition createdIds (resps : list response) : list Z :=
  omap (fun r => match r with Created g => Some (id g) | _ => None end) resps.

(** ** The patch, as the specification words it *)

(** A field of the combined record: the patched value after trimming
    when the body holds one, the existing value when it does not. *)
Definition combined (patched : value) (existing : string) : string :=
  match patched with
  | Str s => trim s
  | _ => existing
  end.

(** The rules a record violates: a name of at least 2 and a description of
    at least 5 characters after trimming. *)
Definition violations (n d : string) : list string :=
  (if (String.length (trim n) <? 2)%nat then [nameError] else [])
  ++ (if (String.length (trim d) <? 5)%nat then [descriptionError] else []).

(** Another genre (one whose id is not [self]) has the name [n], ignoring
    case. *)
Definition nameTaken (gs : list genre) (self : Z) (n : string) : Prop :=
  Exists (fun g => id g <> self /\ toLowerCase (name g) = toLowerCase n) gs.

#[global] Instance nameTaken_dec gs self n : Decision (nameTaken gs self n).
Proof. unfold nameTaken. apply _. Defined.

(** A body field that is missing, or a string with something left after
    trimming. *)
Definition missingOrNonBlank (v : value) : Prop :=
  v = Undefined \/ exists s, v = Str s /\ trim s <> "".

(** The record a patch of [g] with the body [b] merges to. *)
Definition merged (g : genre) (b : body) (now : timestamp) : genre :=
  {| id := id g;
     name := combined (body_name b) (name g);
     description := combined (body_description b) (description g);
     image := match body_image b with Undefined => image g | v => v end;
     createdAt := createdAt g;
     updatedAt := Some now |}.

(** ** The counter and the ids *)

(** Every id in the array was handed out before: it is below the counter. *)
Definition idsBelowCounter (st : store) : Prop :=
  Forall (fun g => (id g < nextId st)%Z) (genres st).

(** ** Sorted arrays *)

(** The comparator lets [a] stand before [b]: it returns normally, and
    not a positive number. *)
Definition precedes {A} (comparefn : A -> A -> option Z) (a b : A) : Prop :=
  exists c, comparefn a b = Some c /\ (c <= 0)%Z.

(** ** The clock *)

(** The clock readings a run takes are in order when no reading is
    earlier than the one before it; [now] is the latest reading so far. *)
Fixpoint clockOrdered (now : timestamp) (rs : list request) : Prop :=
  match rs with
  | [] => True
  | PostGenre _ t1 t2 :: rest => (now <= t1 <= t2)%Z /\ clockOrdered t2 rest
  | PutGenre _ _ t :: rest | PatchGenre _ _ t :: rest =>
      (now <= t)%Z /\ clockOrdered t rest
  | _ :: rest => clockOrdered now rest
  end.

(** The stamps of a genre are in order: created no later than [now], and
    updated, if ever, between the creation and [now]. *)
Definition stampsOrdered (now : timestamp) (g : genre) : Prop :=
  (createdAt g <= now)%Z
  /\ match updatedAt g with
     | Some u => (createdAt g <= u <= now)%Z
     | None => True
     end.

(** ** The bulk delete, as the specification words it *)

(** [String(x)] returns: no TypeError. *)
Definition printable (x : json) : Prop := is_Some (stringOf x).

#[global] Instance printable_dec x : Decision (printable x).
Proof. unfold printable. apply _. Defined.

(** The element [x] reads as the id of [g]: [parseInt(x)] is that id. *)
Definition readsAs (x : json) (g : genre) : Prop :=
  parseIntOf x = Some (Int (id g)).

#[global] Instance readsAs_dec x g : Decision (readsAs x g).
Proof. unfold readsAs. apply _. Defined.

(** The request lists the genre [g]: one of its elements reads as [g]'s
    id. *)
Definition listed (ids : list json) (g : genre) : Prop :=
  Exists (fun x => readsAs x g) ids.

#[global] Instance listed_dec ids g : Decision (listed ids g).
Proof. unfold listed. apply _. Defined.

(** Walking [ids] in input order over the store [gs] of the start of the
    request: an element is present when it reads as the id of a genre and
    no element before it (the elements [earlier]) has already removed that
    genre; the record of a present element goes to [deleted], an absent
    element goes to [notFound]. *)
Fixpoint bulkOutcome (gs : list genre) (earlier ids : list json)
  : list genre * list json :=
  match ids with
  | [] => ([], [])
  | x :: rest =>
      let '(deleted, notFound) := bulkOutcome gs (earlier ++ [x]) rest in
      match list_find (fun g => readsAs x g /\ ~ listed earlier g) gs with
      | Some (_, g) => (g :: deleted, notFound)
      | None => (deleted, x :: notFound)
      end
  end.

(** ** Decimal numerals *)

(** The integer a decimal numeral denotes, read digit by digit after the
    value [acc] of the digits before it. *)
Fixpoint uintValue (d : Decimal.uint) (acc : Z) : Z :=
  match d with
  | Decimal.Nil => acc
  | Decimal.D0 l => uintValue l (10 * acc)
  | Decimal.D1 l => uintValue l (10 * acc + 1)
  | Decimal.D2 l => uintValue l (10 * acc + 2)
  | Decimal.D3 l => uintValue l (10 * acc + 3)
  | Decimal.D4 l => uintValue l (10 * acc + 4)
  | Decimal.D5 l => uintValue l (10 * acc + 5)
  | Decimal.D6 l => uintValue l (10 * acc + 6)
  | Decimal.D7 l => uintValue l (10 * acc + 7)
  | Decimal.D8 l => uintValue l (10 * acc + 8)
  | Decimal.D9 l => uintValue l (10 * acc + 9)
  end%Z.

(** ** Create and replace, by their outcome *)

(** Some genre of [gs] has the name [n], ignoring case. *)
Definition nameInUse (gs : list genre) (n : string) : Prop :=
  Exists (fun g => toLowerCase (name g) = toLowerCase n) gs.

#[global] Instance nameInUse_dec gs n : Decision (nameInUse gs n).
Proof. unfold nameInUse. apply _. Defined.

(** The record a successful create of the strings [n] and [d] appends. *)
Definition createdRecord (st : store) (n d : string) (img : value)
    (now1 now2 : timestamp) : genre :=
  {| id := nextId st;
     name := trim n;
     description := trim d;
     image := if truthy img then img else Str (defaultImage n);
     createdAt := now1;
     updatedAt := Some now2 |}.

(** The record a successful replace of [g] by the strings [n] and [d]
    puts in its place. *)
Definition replacedRecord (g : genre) (n d : string) (img : value)
    (now : timestamp) : genre :=
  {| id := id g;
     name := trim n;
     description := trim d;
     image := if truthy img then img else image g;
     createdAt := createdAt g;
     updatedAt := Some now |}.

(** A value on which [.trim()] throws although [!v] is false: a non-zero
    number or [true]. *)
Definition truthyNonString (v : value) : Prop :=
  truthy v = true /\ forall s, v <> Str s.

(** ** Patches without text *)

(** A body field that is missing, or a string of white space only. *)
Definition missingOrBlank (v : value) : Prop :=
  v = Undefined \/ exists s, v = Str s /\ trim s = "".

(** A body field a PATCH cannot trim: present, and not a string. *)
Definition presentNonString (v : value) : Prop :=
  v <> Undefined /\ forall s, v <> Str s.

(** ** The text of the stored genres *)

(** A string field of a body that is blank: white space only. *)
Definition blankField (v : value) : Prop :=
  exists s, v = Str s /\ trim s = "".

(** No patch of the request carries a blank name or description. *)
Definition noBlankPatch (r : request) : Prop :=
  match r with
  | PatchGenre _ b _ => ~ blankField (body_name b) /\ ~ blankField (body_description b)
  | _ => True
  end.

(** The name and the description of [g] pass the two validation rules. *)
Definition validText (g : genre) : Prop :=
  violations (name g) (description g) = [].

(** No two genres of [gs] have the same name, ignoring case. *)
Definition distinctNames (gs : list genre) : Prop :=
  NoDup ((fun g => toLowerCase (name g)) <$> gs).

(** The name and the description of [g] carry no white space at either
    end. *)
Definition trimmedText (g : genre) : Prop :=
  trim (name g) = name g /\ trim (description g) = description g.

(** ** Deleting one by one *)

(** The numbers [ns] as the [ids] array of a body. *)
Definition numbers (ns : list Z) : list json :=
  (fun n => Prim (Num n)) <$> ns.

(** The single deletes of the numbers [ns], each one the request
    [DELETE /api/genres/<n>] with the number printed into the path: a
    decimal numeral is one path segment, and has nothing to decode. *)
Definition deletesOneByOne (ns : list Z) : list request :=
  (fun n => DeleteGenre (toString (Num n))) <$> ns.

(** The records the 200 answers of single deletes carry. *)
Definition deletedRecords (resps : list response) : list genre :=
  omap (fun r => match r with Deleted g => Some g | _ => None end) resps.

(** The ids whose single delete was answered 404. *)
Fixpoint missedIds (ns : list Z) (resps : list response) : list Z :=
  match ns, resps with
  | n :: ns', NotFound :: resps' => n :: missedIds ns' resps'
  | _ :: ns', _ :: resps' => missedIds ns' resps'
  | _, _ => []
  end.

(** ** Searching and sorting, as a reader of the list sees them *)

(** [sub] occurs in [s]. *)
Definition occursIn (sub s : string) : Prop :=
  exists before after, s = String.append before (String.append sub after).

(** The genre matches the search text: the text occurs in its name or in
    its description, ignoring case. *)
Definition matchesSearch (q : string) (g : genre) : Prop :=
  occursIn (toLowerCase q) (toLowerCase (name g))
  \/ occursIn (toLowerCase q) (toLowerCase (description g)).

(** [a] may stand before [b] in a list that ascends by the property
    [key]: names and descriptions ignoring case, in code-unit order. *)
Definition ascends (key : string) (a b : genre) : Prop :=
  if String.eqb key "name"
  then JsString.ltb (toLowerCase (name b)) (toLowerCase (name a)) = false
  else if String.eqb key "description"
  then JsString.ltb (toLowerCase (description b)) (toLowerCase (description a)) = false
  else if String.eqb key "id" then (id a <= id b)%Z
  else if String.eqb key "createdAt" then (createdAt a <= createdAt b)%Z
  else True.

(** The order a request for [sort=key&order=...] asks for: descending for
    ['desc'], ascending for anything else. *)
Definition inRequestedOrder (key : string) (order : option string) (a b : genre) : Prop :=
  if String.eqb (default "asc" order) "desc" then ascends key b a else ascends key a b.


(** ** The client: the script of [App.vue]

    The state is the refs the functions below read and write; the
    [loading], [error] and [successMessage] refs, which only drive what is
    displayed, are left out, and so is [showMessage] with its timer.  An
    [await apiCall(...)] is the server handling the request before the
    function goes on; [confirm(...)] is an answer supplied from outside. *)

Module JsSet.

(** A [Set] of numbers: its elements in insertion order, each once. *)
Definition has (s : list Z) (x : Z) : bool := bool_decide (x ∈ s).

Definition add (s : list Z) (x : Z) : list Z :=
  if has s x then s else s ++ [x].

Definition delete (s : list Z) (x : Z) : list Z :=
  filter (fun y => y <> x) s.

Definition clear (s : list Z) : list Z := [].

Definition size (s : list Z) : nat := length s.

End JsSet.

Module Client.

Record form : Type := Form {
  form_name : string;
  form_description : string;
  form_image : value
}.

Record state : Type := State {
  shown : list genre;           (* genres.value *)
  selectedGenres : list Z;      (* the Set of selected ids *)
  searchQuery : string;
  sortField : string;
  sortOrder : string;
  formData : form;
  editingGenre : option genre;
  showCreateForm : bool
}.

(** [response.ok]: a status from 200 to 299. *)
Definition ok (r : response) : bool :=
  ((200 <=? status r) && (status r <=? 299))%Z.

(** The computed [filteredGenres]. *)
Definition filteredGenres (c : state) : list genre :=
  if negb (truthy (Str (searchQuery c))) then shown c
  else
    let query := toLowerCase (searchQuery c) in
    List.filter
      (fun g => includes (toLowerCase (name g)) query
                || includes (toLowerCase (description g)) query)
      (shown c).

(** The computed [isAllSelected]. *)
Definition isAllSelected (c : state) : bool :=
  (0 <? length (filteredGenres c))%nat
  && forallb (fun g => JsSet.has (selectedGenres c) (id g)) (filteredGenres c).

Definition selectedCount (c : state) : nat := JsSet.size (selectedGenres c).

Definition withShown (c : state) (l : list genre) : state :=
  State l (selectedGenres c) (searchQuery c) (sortField c) (sortOrder c)
        (formData c) (editingGenre c) (showCreateForm c).

Definition withSelected (c : state) (s : list Z) : state :=
  State (shown c) s (searchQuery c) (sortField c) (sortOrder c)
        (formData c) (editingGenre c) (showCreateForm c).

(** [resetForm]. *)
Definition resetForm (c : state) : state :=
  State (shown c) (selectedGenres c) (searchQuery c) (sortField c) (sortOrder c)
        (Form "" "" (Str "")) None false.

(** [startEdit(genre)]. *)
Definition startEdit (c : state) (g : genre) : state :=
  State (shown c) (selectedGenres c) (searchQuery c) (sortField c) (sortOrder c)
        (Form (name g) (description g) (image g)) (Some g) true.

(** The body [JSON.stringify(formData.value)] sends. *)
Definition formBody (f : form) : body :=
  Body (Str (form_name f)) (Str (form_description f)) (form_image f).

(** [response.data] of an answer that carries one genre. *)
Definition data (r : response) : option genre :=
  match r with
  | Found g | Created g | Updated g | Deleted g => Some g
  | _ => None
  end.

(** [createGenre]: [apiCall] throws unless the answer is 2xx, and then
    only a message is shown; otherwise the returned record is pushed and
    the form reset. *)
Definition createGenre (c : state) (st : store) (now1 now2 : timestamp)
  : state * store :=
  let '(st', resp) := handle st (PostGenre (formBody (formData c)) now1 now2) in
  if ok resp
  then match data resp with
       | Some g => (resetForm (withShown c (shown c ++ [g])), st')
       | None => (c, st')
       end
  else (c, st').

(** [updateGenre], for the genre [editing] being edited. *)
Definition updateGenre (c : state) (editing : genre) (st : store) (now : timestamp)
  : state * store :=
  let '(st', resp) :=
    handle st (PutGenre (toString (Num (id editing))) (formBody (formData c)) now) in
  if ok resp
  then match data resp with
       | Some g =>
           let replaced :=
             match list_find (fun h => id h = id editing) (shown c) with
             | Some (index, _) => <[index := g]> (shown c)
             | None => shown c
             end in
           (resetForm (withShown c replaced), st')
       | None => (c, st')
       end
  else (c, st').

(** The guard of [submitForm]:
    [!formData.value.name.trim() || !formData.value.description.trim()]. *)
Definition formIncomplete (f : form) : bool :=
  negb (truthy (Str (trim (form_name f))))
  || negb (truthy (Str (trim (form_description f)))).

(** [submitForm]. *)
Definition submitForm (c : state) (st : store) (now1 now2 : timestamp)
  : state * store :=
  if formIncomplete (formData c) then (c, st)
  else
    match editingGenre c with
    | Some editing => updateGenre c editing st now1
    | None => createGenre c st now1 now2
    end.

(** [deleteGenre(genreId)]; [confirmed] is the answer to the dialog. *)
Definition deleteGenre (c : state) (genreId : Z) (confirmed : bool) (st : store)
  : state * store :=
  if negb confirmed then (c, st)
  else
    let '(st', resp) := handle st (DeleteGenre (toString (Num genreId))) in
    if ok resp
    then (State (filter (fun g => id g <> genreId) (shown c))
                (JsSet.delete (selectedGenres c) genreId)
                (searchQuery c) (sortField c) (sortOrder c)
                (formData c) (editingGenre c) (showCreateForm c),
          st')
    else (c, st').

(** [bulkDelete]: the ids sent are [Array.from(selectedGenres.value)]. *)
Definition bulkDelete (c : state) (confirmed : bool) (st : store) : state * store :=
  if (JsSet.size (selectedGenres c) =? 0)%nat then (c, st)
  else if negb confirmed then (c, st)
  else
    let ids := numbers (selectedGenres c) in
    let '(st', resp) := handle st (DeleteGenres (Some ids)) in
    if ok resp
    then (State (filter (fun g => JsSet.has (selectedGenres c) (id g) = false) (shown c))
                (JsSet.clear (selectedGenres c))
                (searchQuery c) (sortField c) (sortOrder c)
                (formData c) (editingGenre c) (showCreateForm c),
          st')
    else (c, st').

(** [toggleGenreSelection(genreId)]. *)
Definition toggleGenreSelection (c : state) (genreId : Z) : state :=
  if JsSet.has (selectedGenres c) genreId
  then withSelected c (JsSet.delete (selectedGenres c) genreId)
  else withSelected c (JsSet.add (selectedGenres c) genreId).

(** [toggleAllSelection]. *)
Definition toggleAllSelection (c : state) : state :=
  if isAllSelected c
  then withSelected c (JsSet.clear (selectedGenres c))
  else withSelected c
         (foldl (fun s g => JsSet.add s (id g)) (selectedGenres c) (filteredGenres c)).

End Client.

(** ** Basic facts about the helpers *)

Example parseInt_trailing_letters : parseInt (Str "5abc") = Int 5.
Proof. reflexivity. Qed.

Example parseInt_sign_and_hex : parseInt (Str "  -0x1f") = Int (-31).
Proof. reflexivity. Qed.

Example parseInt_of_numbers : parseInt (Num 42) = Int 42 /\ parseInt (Num (-7)) = Int (-7).
Proof. split; reflexivity. Qed.

Example parseInt_not_a_number :
  parseInt (Str "abc") = NaN /\ parseInt (Str "") = NaN /\ parseInt Null = NaN.
Proof. repeat split; reflexivity. Qed.

Example printNumber_forms :
  printNumber 1 22 = "1e+21" /\ printNumber 1 21 = "100000000000000000000"
  /\ printNumber 15 1 = "1.5" /\ printNumber 1 (-5) = "0.000001"
  /\ printNumber 1 (-6) = "1e-7" /\ printNumber 12345 26 = "1.2345e+25".
Proof. repeat split. Qed.

Example stringOf_array :
  stringOf (Arr [Prim (Num 1); Prim Null; Arr [Prim (Num 2); Prim (Str "x")]; Obj []])
  = Some "1,,2,x,[object Object]".
Proof. reflexivity. Qed.

Example stringOf_own_toString :
  stringOf (Obj [("toString", Prim (Num 0))]) = None
  /\ stringOf (Arr [Prim (Num 1); Obj [("toString", Prim Null)]]) = None.
Proof. split; reflexivity. Qed.

Example parseIntOf_elements :
  parseIntOf (Float false 1 22) = Some (Int 1)
  /\ parseIntOf (Float false 25 1) = Some (Int 2)
  /\ parseIntOf (Arr [Prim (Num 3)]) = Some (Int 3)
  /\ parseIntOf (Obj []) = Some NaN.
Proof. repeat split. Qed.

Example trim_keeps_inner_space : trim "  Rom Com  " = "Rom Com".
Proof. reflexivity. Qed.

Example search_is_case_insensitive :
  (getGenres (initialStore 0 0 0 0) None None (Some "COMEDY")).2 = Listed [comedy 0].
Proof. reflexivity. Qed.

Lemma tooShort_Str (s : string) (n : nat) :
  (0 < n)%nat ->
  tooShort (Str s) n = Some (String.length (trim s) <? n)%nat.
Proof.
  intros Hn. unfold tooShort. destruct s as [|c r]; simpl.
  - destruct n; [lia | reflexivity].
  - reflexivity.
Qed.

Lemma validateGenre_Str (n d : string) :
  validateGenre (Str n) (Str d) =
  Some ((if (String.length (trim n) <? 2)%nat then [nameError] else [])
        ++ (if (String.length (trim d) <? 5)%nat then [descriptionError] else [])).
Proof.
  unfold validateGenre. rewrite !tooShort_Str by lia. reflexivity.
Qed.

Lemma validateGenre_Str_ok (n d : string) :
  (2 <= String.length (trim n))%nat ->
  (5 <= String.length (trim d))%nat ->
  validateGenre (Str n) (Str d) = Some [].
Proof.
  intros Hn Hd. rewrite validateGenre_Str.
  destruct (Nat.ltb_spec (String.length (trim n)) 2); [lia|].
  destruct (Nat.ltb_spec (String.length (trim d)) 5); [lia|].
  reflexivity.
Qed.

Lemma findIndexById_Some (x : value) (gs : list genre) (i : nat) (g : genre) :
  findIndexById x gs = Some (i, g) ->
  gs !! i = Some g /\ parseInt x = Int (id g).
Proof.
  unfold findIndexById. intros H. apply list_find_Some in H.
  destruct H as (Hi & Hp & _). split; assumption.
Qed.

(** With pairwise distinct ids a lookup by id finds the one genre that
    carries it. *)
Lemma findIndexById_unique (x : value) (gs : list genre) (g : genre) :
  NoDup (id <$> gs) ->
  g ∈ gs ->
  parseInt x = Int (id g) ->
  exists i, findIndexById x gs = Some (i, g).
Proof.
  intros Hnd Hin Hp.
  destruct (findIndexById x gs) as [[i h]|] eqn:E.
  - exists i. destruct (findIndexById_Some _ _ _ _ E) as [Hi Hh].
    apply list_elem_of_lookup in Hin as [j Hj].
    assert (id h = id g) as Hid by (unfold strictEqNum in *; congruence).
    assert (i = j) as ->.
    { eapply NoDup_lookup; [exact Hnd| |].
      - rewrite list_lookup_fmap, Hi. reflexivity.
      - rewrite list_lookup_fmap, Hj. simpl. congruence. }
    congruence.
  - exfalso. unfold findIndexById in E.
    rewrite list_find_None, Forall_forall in E.
    apply (E g Hin). exact Hp.
Qed.

Lemma findIndexById_None (x : value) (gs : list genre) :
  findIndexById x gs = None <->
  forall g, g ∈ gs -> parseInt x <> Int (id g).
Proof.
  unfold findIndexById. rewrite list_find_None, Forall_forall.
  unfold strictEqNum. reflexivity.
Qed.

(** ** Reading one genre *)

(** C10: [get] answers with the genre whose id is [parseInt] of the id
    string: NaN is answered with NotFound, an integer [n] with the first
    (with distinct ids: the only) genre whose id is [n], and with NotFound
    when there is none; ["5abc"] parses to 5 and so addresses the same genre
    as ["5"]. *)
Theorem getGenre_addresses_parseInt (st : store) (s : string) :
  match parseInt (Str s) with
  | NaN => getGenre st s = (st, NotFound)
  | Int n =>
      getGenre st s =
        match list_find (fun g => id g = n) (genres st) with
        | Some (_, g) => (st, Found g)
        | None => (st, NotFound)
        end
      /\ (forall g, NoDup (id <$> genres st) -> g ∈ genres st -> id g = n ->
            getGenre st s = (st, Found g))
  end
  /\ parseInt (Str "5abc") = Int 5
  /\ getGenre st "5abc" = getGenre st "5".
Proof.
  split; [|split; reflexivity].
  unfold getGenre, findGenreById.
  destruct (parseInt (Str s)) as [|n] eqn:Hp.
  - assert (findIndexById (Str s) (genres st) = None) as ->; [|reflexivity].
    apply findIndexById_None. intros g _. congruence.
  - split.
    + unfold findIndexById. rewrite Hp.
      assert (list_find (fun g => strictEqNum (id g) (Int n)) (genres st)
              = list_find (fun g => id g = n) (genres st)) as ->.
      { apply list_find_ext. intros g. unfold strictEqNum.
        split; intros; congruence. }
      destruct (list_find _ _) as [[i g]|]; reflexivity.
    + intros g Hnd Hin Hid.
      destruct (findIndexById_unique (Str s) (genres st) g Hnd Hin) as [i ->];
        [congruence | reflexivity].
Qed.

Lemma getGenre_addresses_parseInt_witness :
  NoDup (id <$> genres (initialStore 0 0 0 0))
  /\ drama 0 ∈ genres (initialStore 0 0 0 0)
  /\ getGenre (initialStore 0 0 0 0) "3abc" = (initialStore 0 0 0 0, Found (drama 0)).
Proof.
  assert (NoDup (id <$> genres (initialStore 0 0 0 0))) as Hnd.
  { compute_done. }
  assert (drama 0 ∈ genres (initialStore 0 0 0 0)) as Hin.
  { compute_done. }
  split; [exact Hnd | split; [exact Hin|]].
  exact (proj2 (proj1 (getGenre_addresses_parseInt (initialStore 0 0 0 0) "3abc"))
           (drama 0) Hnd Hin eq_refl).
Defined.

(** ** Listing *)

(** The order is not an artefact of the sorting algorithm: an arrangement
    of the seed records in which the comparator lets every element stand
    before all later ones is this one. *)
Lemma seed_by_name_desc_unique (t1 t2 t3 t4 : timestamp) (l : list genre) :
  l ≡ₚ seed t1 t2 t3 t4 ->
  StronglySorted (precedes (compareGenres "name" "desc")) l ->
  l = [scifi t4; drama t3; comedy t2; action t1].
Proof.
  intros Hp Hs.
  assert (length l = 4%nat) as Hlen by (rewrite Hp; reflexivity).
  assert (NoDup l) as Hnd.
  { rewrite Hp. apply (NoDup_fmap_1 id). compute_done. }
  assert (forall x, x ∈ l ->
            x = action t1 \/ x = comedy t2 \/ x = drama t3 \/ x = scifi t4) as Hmem.
  { intros x Hx. rewrite Hp in Hx. unfold seed in Hx.
    rewrite !elem_of_cons, elem_of_nil in Hx. tauto. }
  destruct l as [|a [|b [|c [|d [|e l]]]]]; try discriminate Hlen.
  apply StronglySorted_inv in Hs as [Hs Ha].
  apply StronglySorted_inv in Hs as [Hs Hb].
  apply StronglySorted_inv in Hs as [_ Hc].
  apply Forall_cons in Ha as [Hab _].
  apply Forall_cons in Hb as [Hbc _].
  apply Forall_cons in Hc as [Hcd _].
  apply NoDup_cons in Hnd as [Ha Hnd]. apply NoDup_cons in Hnd as [Hb Hnd].
  apply NoDup_cons in Hnd as [Hc _].
  repeat rewrite not_elem_of_cons in Ha.
  repeat rewrite not_elem_of_cons in Hb.
  repeat rewrite not_elem_of_cons in Hc.
  destruct Ha as (Nab & Nac & Nad & _), Hb as (Nbc & Nbd & _), Hc as (Ncd & _).
  assert (a ∈ [a; b; c; d]) as Ia by (rewrite !elem_of_cons; tauto).
  assert (b ∈ [a; b; c; d]) as Ib by (rewrite !elem_of_cons; tauto).
  assert (c ∈ [a; b; c; d]) as Ic by (rewrite !elem_of_cons; tauto).
  assert (d ∈ [a; b; c; d]) as Id by (rewrite !elem_of_cons; tauto).
  apply Hmem in Ia, Ib, Ic, Id. clear Hmem Hp Hlen.
  destruct Ia as [-> | [-> | [-> | ->]]];
  destruct Ib as [-> | [-> | [-> | ->]]]; try congruence;
  destruct Ic as [-> | [-> | [-> | ->]]]; try congruence;
  destruct Id as [-> | [-> | [-> | ->]]]; try congruence;
  try reflexivity; exfalso;
  first
    [ destruct Hab as (z & Hz & Hle); vm_compute in Hz; injection Hz as <-; lia
    | destruct Hbc as (z & Hz & Hle); vm_compute in Hz; injection Hz as <-; lia
    | destruct Hcd as (z & Hz & Hle); vm_compute in Hz; injection Hz as <-; lia ].
Qed.

(** C8: on the seed collection, [list] with sort="name" and order="desc"
    answers Sci-Fi, Drama, Comedy, Action, and leaves the store alone; the
    answer is a rearrangement of the seed that the comparator accepts as
    sorted. *)
Theorem list_seed_by_name_desc (t1 t2 t3 t4 : timestamp) :
  getGenres (initialStore t1 t2 t3 t4) (Some "name") (Some "desc") None =
  (initialStore t1 t2 t3 t4, Listed [scifi t4; drama t3; comedy t2; action t1])
  /\ name <$> [scifi t4; drama t3; comedy t2; action t1]
     = ["Sci-Fi"; "Drama"; "Comedy"; "Action"]
  /\ [scifi t4; drama t3; comedy t2; action t1] ≡ₚ seed t1 t2 t3 t4
  /\ StronglySorted (precedes (compareGenres "name" "desc"))
       [scifi t4; drama t3; comedy t2; action t1].
Proof.
  split; [reflexivity|]. split; [reflexivity|]. split.
  - change ([scifi t4; drama t3; comedy t2; action t1]) with (reverse (seed t1 t2 t3 t4)).
    apply reverse_Permutation.
  - repeat constructor; eexists; (split; [vm_compute; reflexivity | lia]).
Qed.

(** ** Creating *)

(** C9: a create whose [image] is the empty string behaves as the same
    create without [image]; when it succeeds the record's image is
    [/images/<name, lower-cased, all white space removed>.jpg]. *)
Theorem create_empty_image_defaults
    (st : store) (n d : value) (t1 t2 : timestamp) :
  postGenre st (Body n d (Str "")) t1 t2 = postGenre st (Body n d Undefined) t1 t2
  /\ forall st' g,
       postGenre st (Body n d (Str "")) t1 t2 = (st', Created g) ->
       exists rawName, n = Str rawName /\ image g = Str (defaultImage rawName).
Proof.
  split; [reflexivity|].
  intros st' g. unfold postGenre. simpl.
  destruct (validateGenre n d) as [[|e es]|]; try discriminate.
  destruct n as [| |b|z|rawName]; simpl; try discriminate.
  destruct (list_find _ _); try discriminate.
  destruct (trimOf d); simpl; try discriminate.
  intros [= <- <-]. exists rawName. split; reflexivity.
Qed.

Lemma create_empty_image_defaults_witness :
  exists st' g,
    postGenre (initialStore 0 0 0 0) (Body (Str " Rom Com ") (Str "Love stories") (Str "")) 7 8
      = (st', Created g)
    /\ image g = Str "/images/romcom.jpg".
Proof.
  eexists _, _. split; [reflexivity|].
  destruct (proj2 (create_empty_image_defaults (initialStore 0 0 0 0)
                     (Str " Rom Com ") (Str "Love stories") 7 8) _ _ eq_refl)
    as (rawName & Hn & Hi).
  injection Hn as <-. exact Hi.
Defined.

(** C4, as stated, fails for a replace of an id that is not in the store:
    the 404 guard comes before the validation. *)
Lemma replace_missing_id_not_validated :
  (String.length (trim "a") < 2)%nat
  /\ (String.length (trim "abc") < 5)%nat
  /\ putGenre (initialStore 0 0 0 0) "999" (Body (Str "a") (Str "abc") Undefined) 9
     = (initialStore 0 0 0 0, NotFound).
Proof. repeat split; vm_compute; lia. Qed.

(** C4 (amended): a create, and a replace of an id that is in the store,
    whose name has fewer than 2 characters after trimming and whose
    description has fewer than 5, fails with the validation error that
    lists both violations, and leaves the store as it was. *)
Theorem short_name_and_description_rejected
    (st : store) (n d : string) (img : value) :
  (String.length (trim n) < 2)%nat ->
  (String.length (trim d) < 5)%nat ->
  (forall t1 t2,
     postGenre st (Body (Str n) (Str d) img) t1 t2 =
     (st, ValidationFailed [nameError; descriptionError]))
  /\ (forall idParam t,
        is_Some (findIndexById (Str idParam) (genres st)) ->
        putGenre st idParam (Body (Str n) (Str d) img) t =
        (st, ValidationFailed [nameError; descriptionError])).
Proof.
  intros Hn Hd.
  assert (validateGenre (Str n) (Str d) = Some [nameError; descriptionError]) as Hv.
  { rewrite validateGenre_Str.
    destruct (Nat.ltb_spec (String.length (trim n)) 2); [|lia].
    destruct (Nat.ltb_spec (String.length (trim d)) 5); [|lia].
    reflexivity. }
  split.
  - intros t1 t2. unfold postGenre. cbn [body_name body_description].
    rewrite Hv. reflexivity.
  - intros idParam t [[i g] Hf]. unfold putGenre.
    cbn [body_name body_description]. rewrite Hf, Hv. reflexivity.
Qed.

Lemma short_name_and_description_rejected_witness :
  postGenre (initialStore 0 0 0 0) (Body (Str " x ") (Str "abcd") Null) 7 8 =
    (initialStore 0 0 0 0, ValidationFailed [nameError; descriptionError])
  /\ putGenre (initialStore 0 0 0 0) "2" (Body (Str " x ") (Str "abcd") Null) 9 =
    (initialStore 0 0 0 0, ValidationFailed [nameError; descriptionError]).
Proof.
  assert (String.length (trim " x ") < 2)%nat as Hn by (vm_compute; lia).
  assert (String.length (trim "abcd") < 5)%nat as Hd by (vm_compute; lia).
  destruct (short_name_and_description_rejected (initialStore 0 0 0 0)
              " x " "abcd" Null Hn Hd) as [Hpost Hput].
  split; [apply Hpost|].
  apply Hput. vm_compute. eexists. reflexivity.
Defined.

(** C5, as stated, fails when the body does not pass validation, which
    comes first: the name is taken, yet the answer is the validation error.
    So it is with a description that is too short, and, once a patch has
    left a genre with the empty name, with a blank name. *)
Lemma create_taken_name_bad_description :
  (toLowerCase (name (action 0)) = toLowerCase (trim " ACTION ")
   /\ postGenre (initialStore 0 0 0 0) (Body (Str " ACTION ") (Str "") Undefined) 7 8
      = (initialStore 0 0 0 0, ValidationFailed [descriptionError]))
  /\ (let st := storeAfter (initialStore 0 0 0 0)
                  [PatchGenre "1" (Body (Str "  ") Undefined Undefined) 5] in
      (exists g, g ∈ genres st /\ toLowerCase (name g) = toLowerCase (trim " "))
      /\ postGenre st (Body (Str " ") (Str "Silent films") Undefined) 7 8
         = (st, ValidationFailed [nameError])).
Proof.
  split; [split; reflexivity|]. split; [|reflexivity].
  eexists. split; [left|reflexivity].
Qed.

(** C5 (amended): a create whose name and description pass validation and
    whose trimmed name equals, ignoring case, the name of a genre in the
    store fails with the conflict error and leaves the store (array and
    counter) as it was, whatever the image is. *)
Theorem create_taken_name_conflicts
    (st : store) (n d : string) (img : value) (t1 t2 : timestamp) (g : genre) :
  g ∈ genres st ->
  toLowerCase (name g) = toLowerCase (trim n) ->
  (2 <= String.length (trim n))%nat ->
  (5 <= String.length (trim d))%nat ->
  postGenre st (Body (Str n) (Str d) img) t1 t2 = (st, Conflict).
Proof.
  intros Hin Heq Hn Hd. unfold postGenre. cbn [body_name body_description trimOf].
  rewrite validateGenre_Str_ok by assumption.
  destruct (list_find _ _) as [[i h]|] eqn:E; [reflexivity|].
  exfalso. rewrite list_find_None, Forall_forall in E.
  exact (E g Hin Heq).
Qed.

Lemma create_taken_name_conflicts_witness :
  postGenre (initialStore 0 0 0 0)
    (Body (Str " sci-fi ") (Str "Space operas") (Num 3)) 7 8
  = (initialStore 0 0 0 0, Conflict).
Proof.
  apply (create_taken_name_conflicts (initialStore 0 0 0 0) " sci-fi " "Space operas"
           (Num 3) 7 8 (scifi 0)).
  - compute_done.
  - reflexivity.
  - vm_compute; lia.
  - vm_compute; lia.
Defined.

(** ** Patching *)

(** C7: a successful patch whose body holds the description only keeps
    the name, the image, the id and [createdAt] of the genre it addresses,
    stamps [updatedAt] with the clock reading of the request, and stores the
    result in the genre's place. *)
Theorem patch_description_only
    (st st' : store) (idParam : string) (d : value) (now : timestamp) (g' : genre) :
  patchGenre st idParam (Body Undefined d Undefined) now = (st', Updated g') ->
  exists i g,
    findIndexById (Str idParam) (genres st) = Some (i, g)
    /\ name g' = name g
    /\ image g' = image g
    /\ createdAt g' = createdAt g
    /\ updatedAt g' = Some now
    /\ id g' = id g
    /\ genres st' = <[i := g']> (genres st)
    /\ nextId st' = nextId st.
Proof.
  unfold patchGenre.
  destruct (findIndexById _ _) as [[i g]|] eqn:Hf; [|discriminate].
  unfold collectUpdates. cbn [body_name body_description body_image].
  cbn [trimmedIfPresent mbind option_bind].
  destruct (trimmedIfPresent d) as [od|]; cbn [mbind option_bind]; [|discriminate].
  cbn [upd_name upd_description upd_image propOf truthy orb default].
  match goal with
  | |- context [match ?c with Some _ => _ | None => _ end] =>
      destruct c as [[|e es]|]; try discriminate
  end.
  intros [= <- <-]. exists i, g. cbn. repeat split; reflexivity || exact Hf.
Qed.

Lemma patch_description_only_witness :
  exists st' g',
    patchGenre (initialStore 0 0 0 0) "2"
      (Body Undefined (Str "  Laugh out loud ") Undefined) 50 = (st', Updated g')
    /\ name g' = "Comedy"
    /\ image g' = Str "/images/comedy.jpg"
    /\ createdAt g' = 0%Z
    /\ updatedAt g' = Some 50%Z
    /\ description g' = "Laugh out loud".
Proof.
  eexists _, _. split; [reflexivity|].
  destruct (patch_description_only (initialStore 0 0 0 0) _ "2"
              (Str "  Laugh out loud ") 50 _ eq_refl)
    as (i & g & Hf & Hn & Hi & Hc & Hu & _).
  injection Hf as <- <-.
  repeat split; assumption || reflexivity.
Defined.

(** ** Bulk delete *)

Section DistinctIds.

Variable gs0 : list genre.
Hypothesis distinct : NoDup (id <$> gs0).

Lemma same_id_same_genre (g h : genre) :
  g ∈ gs0 -> h ∈ gs0 -> id g = id h -> g = h.
Proof.
  intros [i Hi]%list_elem_of_lookup [j Hj]%list_elem_of_lookup Hid.
  assert (i = j) as ->.
  { eapply NoDup_lookup; [exact distinct| |].
    - rewrite list_lookup_fmap, Hi. reflexivity.
    - rewrite list_lookup_fmap, Hj. simpl. congruence. }
  congruence.
Qed.

Lemma list_find_the_one (P : genre -> Prop) `{!forall g, Decision (P g)} (g : genre) :
  g ∈ gs0 -> P g -> (forall h, h ∈ gs0 -> P h -> id h = id g) ->
  exists j, list_find P gs0 = Some (j, g).
Proof.
  intros Hin HP Huniq.
  destruct (list_find_elem_of P gs0 g Hin HP) as [[j h] Hf].
  exists j. rewrite Hf.
  apply list_find_Some in Hf as (Hj & HPh & _).
  apply list_elem_of_lookup_2 in Hj.
  rewrite (same_id_same_genre h g); auto.
Qed.

End DistinctIds.

Lemma filter_on_members {A} (P Q : A -> Prop)
    `{!forall x, Decision (P x)} `{!forall x, Decision (Q x)} (l : list A) :
  (forall x, x ∈ l -> P x <-> Q x) -> filter P l = filter Q l.
Proof.
  induction l as [|a l IH]; intros Hiff; [reflexivity|].
  rewrite !filter_cons.
  assert (P a <-> Q a) as Ha by (apply Hiff; left).
  rewrite IH by (intros x Hx; apply Hiff; right; exact Hx).
  destruct (decide (P a)), (decide (Q a)); tauto.
Qed.

Lemma filter_all {A} (P : A -> Prop) `{!forall x, Decision (P x)} (l : list A) :
  (forall x, x ∈ l -> P x) -> filter P l = l.
Proof.
  induction l as [|a l IH]; intros Hall; [reflexivity|].
  rewrite filter_cons_True by (apply Hall; left).
  rewrite IH; [reflexivity|]. intros x Hx. apply Hall. right. exact Hx.
Qed.

Lemma NoDup_ids_filter (P : genre -> Prop) `{!forall g, Decision (P g)} (l : list genre) :
  NoDup (id <$> l) -> NoDup (id <$> filter P l).
Proof.
  induction l as [|a l IH]; [intros; constructor|].
  rewrite fmap_cons, NoDup_cons. intros [Ha Hl].
  rewrite filter_cons. destruct (decide (P a)); [|auto].
  rewrite fmap_cons, NoDup_cons. split; [|auto].
  intros (h & Hid & Hh)%list_elem_of_fmap. apply Ha.
  apply list_elem_of_fmap. exists h. split; [exact Hid|].
  apply list_elem_of_filter in Hh. tauto.
Qed.

(** [genres.splice(i, 1)] on an array with distinct ids removes exactly
    the genres that carry the id found at [i]. *)
Lemma splice_is_filter (l : list genre) (i : nat) (g : genre) :
  NoDup (id <$> l) -> l !! i = Some g ->
  delete i l = filter (fun h => id h <> id g) l.
Proof.
  revert i. induction l as [|a l IH]; intros i Hnd Hi; [discriminate|].
  rewrite fmap_cons, NoDup_cons in Hnd. destruct Hnd as [Ha Hl].
  destruct i as [|i]; simpl in Hi.
  - injection Hi as ->. simpl. rewrite filter_cons_False by tauto.
    symmetry. apply filter_all. intros h Hh Hid. apply Ha.
    apply list_elem_of_fmap. exists h. split; [congruence | exact Hh].
  - simpl. rewrite filter_cons_True.
    + f_equal. apply IH; assumption.
    + intros Hid. apply Ha. apply list_elem_of_fmap. exists g.
      split; [congruence|]. eapply list_elem_of_lookup_2; exact Hi.
Qed.

Lemma listed_snoc (earlier : list json) (x : json) (g : genre) :
  listed (earlier ++ [x]) g <-> listed earlier g \/ readsAs x g.
Proof.
  unfold listed. rewrite Exists_app, Exists_cons, Exists_nil. tauto.
Qed.

Lemma listed_nil (g : genre) : ~ listed [] g.
Proof. unfold listed. intros H. apply Exists_nil in H. exact H. Qed.

(** What an index found for an element of the body tells. *)
Lemma findIndexOf_found (x : json) (gs : list genre) (i : nat) (g : genre) :
  findIndexOf x gs = Some (Some (i, g)) ->
  gs !! i = Some g /\ readsAs x g.
Proof.
  unfold findIndexOf, readsAs. intros H.
  assert (exists n, parseIntOf x = Some n
                    /\ list_find (fun h => strictEqNum (id h) n) gs = Some (i, g))
    as (n & Hn & Hf).
  { destruct gs as [|g0 gs]; [discriminate|].
    destruct (parseIntOf x) as [n|]; [|discriminate].
    exists n. split; [reflexivity|]. injection H as H. exact H. }
  apply list_find_Some in Hf as (Hi & Hp & _).
  unfold strictEqNum in Hp. split; congruence.
Qed.

(** For an element that can be printed the index is that of the first
    genre it reads as, on every array. *)
Lemma findIndexOf_printable (x : json) (gs : list genre) :
  printable x ->
  findIndexOf x gs = Some (list_find (fun g => readsAs x g) gs).
Proof.
  intros [s Hs]. unfold findIndexOf.
  assert (parseIntOf x = Some (parseIntString s)) as Hp
    by (unfold parseIntOf; rewrite Hs; reflexivity).
  destruct gs as [|g0 gs]; [reflexivity|].
  rewrite Hp. cbn [mbind option_bind]. f_equal.
  apply list_find_ext. intros g. unfold readsAs, strictEqNum. rewrite Hp.
  split; congruence.
Qed.

(** The TypeError is raised by an element that cannot be printed, on an
    array that is not empty. *)
Lemma findIndexOf_throws (x : json) (gs : list genre) :
  findIndexOf x gs = None <-> stringOf x = None /\ gs <> [].
Proof.
  unfold findIndexOf, parseIntOf. destruct gs as [|g0 gs].
  - split; [discriminate | intros [_ H]; congruence].
  - destruct (stringOf x) as [s|]; cbn [fmap option_fmap option_map mbind option_bind].
    + split; [discriminate | intros [H _]; discriminate].
    + split; [intros _; split; [reflexivity | discriminate] | reflexivity].
Qed.

(** The loop of the handler against the walk of the specification: after
    the elements [earlier] the array holds the genres none of them
    listed. *)
Lemma bulkLoop_outcome (gs0 : list genre) (ids : list json) :
  NoDup (id <$> gs0) ->
  Forall printable ids ->
  forall earlier deleted notFound,
    bulkLoop (filter (fun g => ~ listed earlier g) gs0) ids deleted notFound =
    (filter (fun g => ~ listed (earlier ++ ids) g) gs0,
     Some (deleted ++ (bulkOutcome gs0 earlier ids).1,
           notFound ++ (bulkOutcome gs0 earlier ids).2)).
Proof.
  intros Hnd Hpr.
  induction Hpr as [|x rest Hx Hrest IH]; intros earlier deleted notFound.
  - simpl. rewrite !app_nil_r. reflexivity.
  - cbn [bulkLoop bulkOutcome].
    set (cur := filter (fun g => ~ listed earlier g) gs0).
    assert (earlier ++ x :: rest = (earlier ++ [x]) ++ rest) as Happ
      by (rewrite <- app_assoc; reflexivity).
    destruct (bulkOutcome gs0 (earlier ++ [x]) rest) as [del nf] eqn:Hout.
    rewrite (findIndexOf_printable x cur Hx).
    destruct (list_find (fun g => readsAs x g) cur) as [[i g]|] eqn:Hf.
    + apply list_find_Some in Hf as (Hi & Hp & _).
      assert (g ∈ cur) as Hcur by (eapply list_elem_of_lookup_2; exact Hi).
      apply list_elem_of_filter in Hcur as [Hnl Hg0].
      destruct (list_find_the_one gs0 Hnd
                  (fun h => readsAs x h /\ ~ listed earlier h) g)
        as [j ->]; [exact Hg0 | split; assumption | |].
      { intros h _ [Hh _]. unfold readsAs in *. congruence. }
      assert (delete i cur = filter (fun h => ~ listed (earlier ++ [x]) h) gs0) as ->.
      { rewrite (splice_is_filter cur i g);
          [|apply NoDup_ids_filter; exact Hnd|exact Hi].
        unfold cur. rewrite list_filter_filter.
        apply filter_on_members. intros h _. rewrite listed_snoc.
        unfold readsAs in *. split.
        - intros [H1 H2] [H3|H3]; [tauto | congruence].
        - intros H. split; [intros E; apply H; right; congruence | tauto]. }
      rewrite IH, Hout, Happ. cbn [fst snd].
      rewrite <- (app_assoc deleted [g] del). reflexivity.
    + rewrite list_find_None, Forall_forall in Hf.
      assert (list_find (fun h => readsAs x h /\ ~ listed earlier h) gs0 = None) as ->.
      { apply list_find_None, Forall_forall. intros h Hh [Hr Hnl].
        apply (Hf h); [|exact Hr]. apply list_elem_of_filter. tauto. }
      assert (cur = filter (fun h => ~ listed (earlier ++ [x]) h) gs0) as ->.
      { unfold cur. apply filter_on_members. intros h Hh. rewrite listed_snoc.
        split; [|tauto]. intros Hnl [H|H]; [tauto|].
        apply (Hf h); [|exact H]. apply list_elem_of_filter. tauto. }
      rewrite IH, Hout, Happ. cbn [fst snd].
      rewrite <- (app_assoc notFound [x] nf). reflexivity.
Qed.

(** Whatever the loop removes from the array it appends to [deleted], and
    every element lands in exactly one of the two result lists. *)
Lemma bulkLoop_conserves (ids : list json) :
  forall gs deleted notFound gs' deleted' notFound',
    bulkLoop gs ids deleted notFound = (gs', Some (deleted', notFound')) ->
    deleted' ++ gs' ≡ₚ deleted ++ gs
    /\ (length deleted' + length notFound'
        = length deleted + length notFound + length ids)%nat.
Proof.
  induction ids as [|x rest IH]; intros gs deleted notFound gs' deleted' notFound'.
  - simpl. intros [= <- <- <-]. split; [reflexivity | lia].
  - simpl. destruct (findIndexOf x gs) as [[[i g]|]|] eqn:Hf; intros Hloop.
    + apply IH in Hloop as [Hperm Hlen].
      destruct (findIndexOf_found _ _ _ _ Hf) as [Hi _].
      split.
      * rewrite Hperm, <- app_assoc. apply Permutation_app_head. simpl.
        symmetry. apply delete_Permutation. exact Hi.
      * rewrite length_app in Hlen. simpl in Hlen. lia.
    + apply IH in Hloop as [Hperm Hlen].
      split; [exact Hperm|]. rewrite length_app in Hlen. simpl in Hlen. lia.
    + discriminate.
Qed.

(** The loop always runs to its end on elements that can be printed. *)
Lemma bulkLoop_returns (ids : list json) :
  Forall printable ids ->
  forall gs deleted notFound,
    exists gs' deleted' notFound',
      bulkLoop gs ids deleted notFound = (gs', Some (deleted', notFound')).
Proof.
  induction 1 as [|x rest Hx Hrest IH]; intros gs deleted notFound.
  - eexists _, _, _. reflexivity.
  - cbn [bulkLoop]. rewrite (findIndexOf_printable x gs Hx).
    destruct (list_find _ gs) as [[i g]|]; apply IH.
Qed.

(** C6, as stated, fails on the seed store.  The string "3abc" is the id
    of no genre, yet it is not reported as not found: genre 3 is removed.
    Nor is the number 10^21, which prints as 1e+21: genre 1 is removed.  And
    a bulk delete can fail: after the id 1, an object with a property named
    toString cannot be printed, and the answer is 500 when genre 1 has
    already been removed. *)
Lemma bulk_delete_goes_by_parseInt :
  (Forall (fun g => toString (Num (id g)) <> "3abc") (seed 0 0 0 0)
   /\ deleteGenres (initialStore 0 0 0 0) (Some [Prim (Str "3abc")])
      = (Store [action 0; comedy 0; scifi 0] 5, BulkDeleted [drama 0] []))
  /\ (Forall (fun g => id g <> (10 ^ 21)%Z) (seed 0 0 0 0)
      /\ stringOf (Float false 1 22) = Some "1e+21"
      /\ deleteGenres (initialStore 0 0 0 0) (Some [Float false 1 22])
         = (Store [comedy 0; drama 0; scifi 0] 5, BulkDeleted [action 0] []))
  /\ deleteGenres (initialStore 0 0 0 0)
       (Some [Prim (Num 1); Obj [("toString", Prim (Num 0))]])
     = (Store [comedy 0; drama 0; scifi 0] 5, InternalError).
Proof.
  split; [split; [repeat constructor; discriminate | reflexivity]|].
  split; [|reflexivity].
  split; [repeat constructor; discriminate | split; reflexivity].
Qed.

(** C6 (amended): for a non-empty [ids] whose elements can all be printed
    (strings, numbers, booleans, null, and the arrays and objects on which
    String() does not throw) the bulk delete always answers with the two
    result lists.  The records removed are exactly the ones appended to
    [deleted], and every element lands in [deleted] or in [notFound].  Ids
    being distinct in the store, the lists are the ones the walk over [ids]
    in input order gives, an element being present when [parseInt] reads it
    as the id of a genre still in the store, while the store keeps,
    unchanged and in their order, the genres no element reads as.  The
    numbers among the elements are as [json] holds them: an integer is of
    magnitude below 10^21, any other number a [Float]. *)
Theorem deleteGenres_outcome (st : store) (ids : list json) :
  ids <> [] ->
  Forall printable ids ->
  Forall (fun x => plainIntegers x = true) ids ->
  (exists gs deleted notFound,
     deleteGenres st (Some ids) = (Store gs (nextId st), BulkDeleted deleted notFound)
     /\ deleted ++ gs ≡ₚ genres st
     /\ (length deleted + length notFound = length ids)%nat)
  /\ (NoDup (id <$> genres st) ->
      deleteGenres st (Some ids) =
      (Store (filter (fun g => ~ listed ids g) (genres st)) (nextId st),
       BulkDeleted (bulkOutcome (genres st) [] ids).1
                   (bulkOutcome (genres st) [] ids).2)).
Proof.
  intros Hne Hpr _. destruct ids as [|x rest]; [congruence|].
  unfold deleteGenres. split.
  - destruct (bulkLoop_returns (x :: rest) Hpr (genres st) [] [])
      as (gs & deleted & notFound & E).
    rewrite E. exists gs, deleted, notFound. split; [reflexivity|].
    apply bulkLoop_conserves in E as [Hperm Hlen]. split; [exact Hperm|].
    simpl in Hlen. simpl. lia.
  - intros Hnd.
    pose proof (bulkLoop_outcome (genres st) (x :: rest) Hnd Hpr [] [] []) as H.
    rewrite (filter_all (fun g => ~ listed [] g)) in H
      by (intros g _; apply listed_nil).
    rewrite H. reflexivity.
Qed.

Lemma deleteGenres_outcome_witness :
  deleteGenres (initialStore 0 0 0 0)
    (Some [Prim (Num 1); Prim (Str "3abc"); Prim Null; Prim (Num 1);
           Arr [Prim (Str "4"); Prim (Num 2)]; Float false 25 1; Obj []])
  = (Store [] 5,
     BulkDeleted [action 0; drama 0; scifi 0; comedy 0]
                 [Prim Null; Prim (Num 1); Obj []]).
Proof.
  set (ids := [Prim (Num 1); Prim (Str "3abc"); Prim Null; Prim (Num 1);
               Arr [Prim (Str "4"); Prim (Num 2)]; Float false 25 1; Obj []]).
  assert (ids <> []) as Hne by discriminate.
  assert (Forall printable ids) as Hpr by (repeat constructor; eexists; reflexivity).
  assert (Forall (fun x => plainIntegers x = true) ids) as Hpl
    by (repeat constructor).
  assert (NoDup (id <$> genres (initialStore 0 0 0 0))) as Hnd by compute_done.
  rewrite (proj2 (deleteGenres_outcome (initialStore 0 0 0 0) ids Hne Hpr Hpl) Hnd).
  vm_compute. reflexivity.
Defined.

(** ** Ids *)

Lemma bulkLoop_Forall (P : genre -> Prop) (ids : list json) :
  forall gs deleted notFound,
    Forall P gs -> Forall P (bulkLoop gs ids deleted notFound).1.
Proof.
  induction ids as [|x rest IH]; intros gs deleted notFound HP; [exact HP|].
  simpl. destruct (findIndexOf x gs) as [[[i g]|]|];
    [apply IH, Forall_delete; exact HP | apply IH; exact HP | exact HP].
Qed.

(** The bulk delete by its cases: the 400 answer, which touches nothing,
    or the loop, which leaves its array in the store and the counter
    alone, also when it ends in the 500 answer. *)
Lemma deleteGenres_cases (st st' : store) (ids : option (list json)) (resp : response) :
  deleteGenres st ids = (st', resp) ->
  (st' = st /\ resp = BadRequest)
  \/ exists l,
       ids = Some l
       /\ st' = Store (bulkLoop (genres st) l [] []).1 (nextId st)
       /\ match (bulkLoop (genres st) l [] []).2 with
          | Some (deleted, notFound) => resp = BulkDeleted deleted notFound
          | None => resp = InternalError
          end.
Proof.
  unfold deleteGenres. destruct ids as [[|x rest]|].
  - intros [= <- <-]. left. split; reflexivity.
  - destruct (bulkLoop (genres st) (x :: rest) [] []) as [gs [[d nf]|]] eqn:E;
      intros [= <- <-]; right; exists (x :: rest); rewrite E; repeat split.
  - intros [= <- <-]. left. split; reflexivity.
Qed.

Lemma seed_idsBelowCounter (t1 t2 t3 t4 : timestamp) :
  idsBelowCounter (initialStore t1 t2 t3 t4).
Proof. unfold idsBelowCounter. simpl. repeat constructor. Qed.

(** One request: the counter never goes back, the ids in the array stay
    below it, and the id of a created record is the counter's old value. *)
Lemma handle_counter (st st' : store) (r : request) (resp : response) :
  handle st r = (st', resp) ->
  (nextId st <= nextId st')%Z
  /\ (idsBelowCounter st -> idsBelowCounter st')
  /\ (forall g, resp = Created g -> id g = nextId st /\ nextId st' = (nextId st + 1)%Z).
Proof.
  unfold idsBelowCounter.
  destruct r as [sort order search|i|b t1 t2|i b t|i b t|i|ids]; simpl.
  - unfold getGenres. intros H.
    assert (st' = st) as -> by (repeat case_match; congruence).
    split; [lia|]. split; [auto|]. intros g ->. repeat case_match; discriminate.
  - unfold getGenre. intros H.
    assert (st' = st) as -> by (repeat case_match; congruence).
    split; [lia|]. split; [auto|]. intros g ->. repeat case_match; discriminate.
  - unfold postGenre, getNextId. intros H.
    repeat case_match; simplify_eq; simpl;
      (split; [lia|]); (split; [|intros ? [=]; subst; simpl; auto]); try done.
    all: intros Hb; rewrite ?Forall_app, ?Forall_singleton; simpl.
    all: repeat split; try lia.
    all: eapply Forall_impl; [exact Hb|]; simpl; intros; lia.
  - unfold putGenre. intros H.
    repeat case_match; simplify_eq; simpl;
      (split; [lia|]); (split; [|intros ? [=]]); try done.
    intros Hb. apply Forall_insert; [exact Hb|]. simpl.
    match goal with
    | Hf : findIndexById _ _ = Some _ |- _ =>
        apply findIndexById_Some in Hf as [Hi _];
        exact (Forall_lookup_1 _ _ _ _ Hb Hi)
    end.
  - unfold patchGenre. intros H.
    repeat case_match; simplify_eq; simpl;
      (split; [lia|]); (split; [|intros ? [=]]); try done.
    all: intros Hb; apply Forall_insert; [exact Hb|]; simpl.
    all: match goal with
         | Hf : findIndexById _ _ = Some _ |- _ =>
             apply findIndexById_Some in Hf as [Hi _];
             exact (Forall_lookup_1 _ _ _ _ Hb Hi)
         end.
  - unfold deleteGenre. intros H.
    repeat case_match; simplify_eq; simpl;
      (split; [lia|]); (split; [|intros ? [=]]); try done.
    intros Hb. apply Forall_delete. exact Hb.
  - intros H. apply deleteGenres_cases in H as [[-> ->]|(l & -> & -> & Hr)].
    + split; [lia|]. split; [auto | intros ? [=]].
    + cbn [genres nextId]. split; [lia|]. split.
      * apply bulkLoop_Forall.
      * intros g ->. destruct (bulkLoop (genres st) l [] []).2 as [[d nf]|];
          discriminate.
Qed.

Lemma run_app (rs1 rs2 : list request) (st : store) :
  run st (rs1 ++ rs2) =
  let '(st1, resps1) := run st rs1 in
  let '(st2, resps2) := run st1 rs2 in
  (st2, resps1 ++ resps2).
Proof.
  revert st. induction rs1 as [|r rs1 IH]; intros st; simpl.
  - destruct (run st rs2); reflexivity.
  - destruct (handle st r) as [st1 resp]. rewrite IH.
    destruct (run st1 rs1) as [st2 resps1].
    destruct (run st2 rs2) as [st3 resps2]. reflexivity.
Qed.

(** A run: the counter never goes back, ids stay below it, and the ids
    it hands out lie between its first and its last value. *)
Lemma run_counter (rs : list request) :
  forall st st' resps,
    run st rs = (st', resps) ->
    (nextId st <= nextId st')%Z
    /\ (idsBelowCounter st -> idsBelowCounter st')
    /\ Forall (fun i => (nextId st <= i < nextId st')%Z) (createdIds resps).
Proof.
  induction rs as [|r rs IH]; intros st st' resps; simpl.
  - intros [= <- <-]. split; [lia|]. split; [auto | constructor].
  - destruct (handle st r) as [st1 resp] eqn:Hh.
    destruct (run st1 rs) as [st2 resps2] eqn:Hr.
    intros [= <- <-].
    destruct (handle_counter _ _ _ _ Hh) as (Hle1 & Hinv1 & Hnew).
    destruct (IH _ _ _ Hr) as (Hle2 & Hinv2 & Hids).
    split; [lia|]. split; [auto|].
    unfold createdIds in *. destruct resp; simpl;
      try (eapply Forall_impl; [exact Hids|]; simpl; intros; lia).
    destruct (Hnew data eq_refl) as [Hid Hnext].
    constructor; [lia|].
    eapply Forall_impl; [exact Hids|]. simpl. intros; lia.
Qed.

(** C2: the id of a record returned by a successful create is greater
    than the id of every genre that was in the store at any earlier moment
    of the process (the seed set included) and than every id handed out by
    an earlier create; the counter then stands above it, so no later create
    hands it out again. *)
Theorem created_id_is_fresh
    (t1 t2 t3 t4 : timestamp) (rs : list request)
    (b : body) (now1 now2 : timestamp) (st' : store) (g : genre) :
  postGenre (storeAfter (initialStore t1 t2 t3 t4) rs) b now1 now2 = (st', Created g) ->
  (forall k g0,
     g0 ∈ genres (storeAfter (initialStore t1 t2 t3 t4) (take k rs)) ->
     (id g0 < id g)%Z)
  /\ Forall (fun i => (i < id g)%Z) (createdIds (run (initialStore t1 t2 t3 t4) rs).2)
  /\ (id g < nextId st')%Z.
Proof.
  intros Hpost. set (st0 := initialStore t1 t2 t3 t4) in *.
  destruct (handle_counter _ _ (PostGenre b now1 now2) _ Hpost) as (_ & _ & Hnew).
  destruct (Hnew g eq_refl) as [Hid Hnext].
  split; [|split].
  - intros k g0 Hin.
    pose proof (run_app (take k rs) (drop k rs) st0) as Happ.
    rewrite take_drop in Happ. unfold storeAfter in *.
    destruct (run st0 (take k rs)) as [stk respsk] eqn:Hk.
    destruct (run stk (drop k rs)) as [stn respsn] eqn:Hn.
    rewrite Happ in Hid. simpl in *.
    destruct (run_counter _ _ _ _ Hk) as (_ & Hinv & _).
    destruct (run_counter _ _ _ _ Hn) as (Hle & _ & _).
    specialize (Hinv (seed_idsBelowCounter t1 t2 t3 t4)).
    unfold idsBelowCounter in Hinv. rewrite Forall_forall in Hinv.
    specialize (Hinv g0 Hin). lia.
  - unfold storeAfter in Hid.
    destruct (run st0 rs) as [stn resps] eqn:Hn. simpl in *.
    destruct (run_counter _ _ _ _ Hn) as (_ & _ & Hids).
    eapply Forall_impl; [exact Hids|]. simpl. intros; lia.
  - lia.
Qed.

Lemma created_id_is_fresh_witness :
  exists st' g,
    postGenre
      (storeAfter (initialStore 0 0 0 0)
         [PostGenre (Body (Str "Horror") (Str "Scary films") Undefined) 1 2;
          DeleteGenre "5"])
      (Body (Str "Romance") (Str "Love stories") Undefined) 3 4 = (st', Created g)
    /\ id g = 6%Z
    /\ Forall (fun i => (i < id g)%Z) [5%Z].
Proof.
  eexists _, _. split; [reflexivity|]. split; [reflexivity|].
  exact (proj1 (proj2 (created_id_is_fresh 0 0 0 0
           [PostGenre (Body (Str "Horror") (Str "Scary films") Undefined) 1 2;
            DeleteGenre "5"]
           (Body (Str "Romance") (Str "Love stories") Undefined) 3 4 _ _ eq_refl))).
Defined.

(** ** Re-validation in a patch *)

Lemma truthy_Str_nonempty (s : string) : s <> "" -> truthy (Str s) = true.
Proof.
  intros Hs. simpl. destruct (String.eqb_spec s ""); [contradiction | reflexivity].
Qed.

Lemma find_other_with_name (gs : list genre) (x : number) (self : Z) (n : string) :
  x = Int self ->
  match list_find (fun g => ~ strictEqNum (id g) x
                            /\ toLowerCase (name g) = toLowerCase n) gs with
  | Some _ => nameTaken gs self n
  | None => ~ nameTaken gs self n
  end.
Proof.
  intros ->. unfold nameTaken, strictEqNum.
  destruct (list_find _ gs) as [[j h]|] eqn:E.
  - apply list_find_Some in E as (Hj & [Hne Hnm] & _).
    apply Exists_exists. exists h. split; [eapply list_elem_of_lookup_2; exact Hj|].
    split; [congruence | exact Hnm].
  - rewrite list_find_None, Forall_forall in E.
    intros (h & Hin & Hne & Hnm)%Exists_exists.
    apply (E h Hin). split; [congruence | exact Hnm].
Qed.

Ltac patch_steps :=
  cbn [collectUpdates body_name body_description body_image trimmedIfPresent
       trimOf fmap option_fmap option_map mbind option_bind
       upd_name upd_description upd_image propOf combined].

(** C1, as stated, fails in two ways on the seed store.  A patch that
    renames genre 1 to the name of genre 2 has a combined record that
    violates no rule, yet the merge does not succeed: the answer is the
    conflict error.  And a patch whose name is blank has a combined record
    that violates the name rule, yet no validation error is raised: the
    blank name is stored. *)
Lemma patch_validation_not_exact :
  (violations (combined (Str "Comedy") (name (action 0)))
              (combined Undefined (description (action 0))) = []
   /\ patchGenre (initialStore 0 0 0 0) "1" (Body (Str "Comedy") Undefined Undefined) 9
      = (initialStore 0 0 0 0, Conflict))
  /\ (violations (combined (Str "  ") (name (action 0)))
                 (combined Undefined (description (action 0))) = [nameError]
      /\ exists st' g',
           patchGenre (initialStore 0 0 0 0) "1" (Body (Str "  ") Undefined Undefined) 9
           = (st', Updated g')
           /\ name g' = "").
Proof.
  split; split; try reflexivity.
  eexists _, _. split; reflexivity.
Qed.

(** C1 (amended): for a patch of an id that is in the store, whose name
    and/or description is present and, where present, a string that is not
    blank after trimming, the answer is the validation error exactly when
    the combined record violates a rule (and then lists the violated
    rules); otherwise it is the conflict error when the name is present and
    another genre has it, ignoring case, and otherwise the merge
    succeeds. *)
Theorem patch_revalidates_combined
    (st : store) (idParam : string) (i : nat) (g : genre) (b : body) (now : timestamp) :
  findIndexById (Str idParam) (genres st) = Some (i, g) ->
  missingOrNonBlank (body_name b) ->
  missingOrNonBlank (body_description b) ->
  body_name b <> Undefined \/ body_description b <> Undefined ->
  patchGenre st idParam b now =
    match violations (combined (body_name b) (name g))
                     (combined (body_description b) (description g)) with
    | e :: es => (st, ValidationFailed (e :: es))
    | [] =>
        if decide (body_name b <> Undefined
                   /\ nameTaken (genres st) (id g) (combined (body_name b) (name g)))
        then (st, Conflict)
        else (Store (<[i := merged g b now]> (genres st)) (nextId st),
              Updated (merged g b now))
    end.
Proof.
  intros Hf Hn Hd Hsome.
  destruct (findIndexById_Some _ _ _ _ Hf) as [_ Hp].
  unfold patchGenre, merged. rewrite Hf.
  destruct b as [bn bd bi]. cbn [body_name body_description body_image] in *.
  destruct Hn as [-> | (sn & -> & Hsn)], Hd as [-> | (sd & -> & Hsd)];
    [exfalso; destruct Hsome; congruence | | |].
  - (* description only *)
    patch_steps. revert Hsd. generalize (trim sd). intros td Htd.
    unfold orElse. rewrite !(truthy_Str_nonempty td Htd). cbn [truthy orb].
    rewrite validateGenre_Str. unfold violations.
    match goal with |- context [(?l1 ++ ?l2)] => destruct (l1 ++ l2) end;
      [|reflexivity].
    destruct (decide _) as [[Hc _]|_]; [congruence|].
    destruct bi; reflexivity.
  - (* name only *)
    patch_steps. revert Hsn. generalize (trim sn). intros tn Htn.
    unfold orElse. rewrite !(truthy_Str_nonempty tn Htn). cbn [truthy orb].
    rewrite validateGenre_Str. unfold violations.
    match goal with |- context [(?l1 ++ ?l2)] => destruct (l1 ++ l2) end;
      [|reflexivity].
    pose proof (find_other_with_name (genres st) _ (id g) tn Hp) as Hdup.
    destruct (list_find _ (genres st)) as [[j h]|].
    + rewrite decide_True by (split; [discriminate | exact Hdup]). reflexivity.
    + rewrite decide_False by tauto. destruct bi; reflexivity.
  - (* both *)
    patch_steps. revert Hsn Hsd. generalize (trim sn), (trim sd).
    intros tn td Htn Htd.
    unfold orElse. rewrite !(truthy_Str_nonempty tn Htn).
    rewrite !(truthy_Str_nonempty td Htd). cbn [truthy orb].
    rewrite validateGenre_Str. unfold violations.
    match goal with |- context [(?l1 ++ ?l2)] => destruct (l1 ++ l2) end;
      [|reflexivity].
    pose proof (find_other_with_name (genres st) _ (id g) tn Hp) as Hdup.
    destruct (list_find _ (genres st)) as [[j h]|].
    + rewrite decide_True by (split; [discriminate | exact Hdup]). reflexivity.
    + rewrite decide_False by tauto. destruct bi; reflexivity.
Qed.

Lemma patch_revalidates_combined_witness :
  patchGenre (initialStore 0 0 0 0) "1" (Body (Str " Thriller ") Undefined Undefined) 9
  = (Store [Genre 1 "Thriller" "Fast-paced, stunt-heavy films"
              (Str "/images/action.jpg") 0 (Some 9%Z);
            comedy 0; drama 0; scifi 0] 5,
     Updated (Genre 1 "Thriller" "Fast-paced, stunt-heavy films"
                (Str "/images/action.jpg") 0 (Some 9%Z)))
  /\ patchGenre (initialStore 0 0 0 0) "1" (Body (Str " T ") (Str "Tense") Undefined) 9
     = (initialStore 0 0 0 0, ValidationFailed [nameError]).
Proof.
  split.
  - rewrite (patch_revalidates_combined (initialStore 0 0 0 0) "1" 0 (action 0)
               (Body (Str " Thriller ") Undefined Undefined) 9).
    + vm_compute. reflexivity.
    + reflexivity.
    + right. exists " Thriller ". split; [reflexivity | vm_compute; discriminate].
    + left. reflexivity.
    + left. discriminate.
  - rewrite (patch_revalidates_combined (initialStore 0 0 0 0) "1" 0 (action 0)
               (Body (Str " T ") (Str "Tense") Undefined) 9).
    + vm_compute. reflexivity.
    + reflexivity.
    + right. exists " T ". split; [reflexivity | vm_compute; discriminate].
    + right. exists "Tense". split; [reflexivity | vm_compute; discriminate].
    + left. discriminate.
Defined.

(** ** Stamps *)

Lemma elem_of_insert_inv {A} (l : list A) (i : nat) (x y : A) :
  y ∈ <[i := x]> l -> y = x \/ y ∈ l.
Proof.
  intros [j Hj]%list_elem_of_lookup.
  apply list_lookup_insert_Some in Hj as [(_ & -> & _)|[_ Hj]]; [left; reflexivity|].
  right. eapply list_elem_of_lookup_2; exact Hj.
Qed.

Lemma bulkLoop_members (ids : list json) :
  forall gs deleted notFound g,
    g ∈ (bulkLoop gs ids deleted notFound).1 -> g ∈ gs.
Proof.
  induction ids as [|x rest IH]; intros gs deleted notFound g; [auto|].
  simpl. destruct (findIndexOf x gs) as [[[i h]|]|]; intros Hin.
  - apply IH in Hin. eapply list_elem_of_delete_inv; exact Hin.
  - apply IH in Hin. exact Hin.
  - exact Hin.
Qed.

Lemma bulkLoop_NoDup_ids (ids : list json) :
  forall gs deleted notFound,
    NoDup (id <$> gs) -> NoDup (id <$> (bulkLoop gs ids deleted notFound).1).
Proof.
  induction ids as [|x rest IH]; intros gs deleted notFound Hnd; [exact Hnd|].
  simpl. destruct (findIndexOf x gs) as [[[i h]|]|];
    [apply IH | apply IH; exact Hnd | exact Hnd].
  rewrite list_fmap_delete. eapply sublist_NoDup; [exact Hnd|].
  apply sublist_delete.
Qed.

(** Where the genres of the store after a request come from: each was in
    the store before, or is the record a create has just returned, or
    replaces, under the same id and with the same [createdAt], a genre that
    was in the store, and is stamped with the request's clock reading. *)
Lemma handle_provenance (st st' : store) (r : request) (resp : response) (g' : genre) :
  handle st r = (st', resp) ->
  g' ∈ genres st' ->
  g' ∈ genres st
  \/ (exists b t1 t2, r = PostGenre b t1 t2 /\ resp = Created g'
        /\ id g' = nextId st /\ createdAt g' = t1 /\ updatedAt g' = Some t2)
  \/ (exists g t, g ∈ genres st /\ id g' = id g /\ createdAt g' = createdAt g
        /\ updatedAt g' = Some t
        /\ (exists i b, r = PutGenre i b t \/ r = PatchGenre i b t)).
Proof.
  destruct r as [sort order search|i|b t1 t2|i b t|i b t|i|ids]; simpl.
  - unfold getGenres. intros H Hin. left.
    assert (st' = st) as -> by (repeat case_match; congruence). exact Hin.
  - unfold getGenre. intros H Hin. left.
    assert (st' = st) as -> by (repeat case_match; congruence). exact Hin.
  - unfold postGenre, getNextId. intros H Hin.
    repeat case_match; simplify_eq; simpl in *; auto.
    apply elem_of_app in Hin as [Hin|Hin]; [auto|].
    apply list_elem_of_singleton in Hin as ->.
    right. left. eexists _, _, _. repeat split; reflexivity.
  - unfold putGenre. intros H Hin.
    repeat case_match; simplify_eq; simpl in *; auto.
    apply elem_of_insert_inv in Hin as [->|Hin]; [|auto].
    right. right.
    match goal with
    | Hf : findIndexById _ _ = Some (_, ?g) |- _ =>
        apply findIndexById_Some in Hf as [Hi _]; exists g, t
    end.
    repeat split; try reflexivity; [eapply list_elem_of_lookup_2; eassumption|].
    eexists _, _. left. reflexivity.
  - unfold patchGenre. intros H Hin.
    repeat case_match; simplify_eq; simpl in *; auto.
    all: apply elem_of_insert_inv in Hin as [->|Hin]; [|auto].
    all: right; right.
    all: match goal with
         | Hf : findIndexById _ _ = Some (_, ?g) |- _ =>
             apply findIndexById_Some in Hf as [Hi _]; exists g, t
         end.
    all: repeat split; try reflexivity; [eapply list_elem_of_lookup_2; eassumption|].
    all: eexists _, _; right; reflexivity.
  - unfold deleteGenre. intros H Hin. left.
    repeat case_match; simplify_eq; simpl in *; auto.
    eapply list_elem_of_delete_inv; exact Hin.
  - intros H Hin. left.
    apply deleteGenres_cases in H as [[-> ->]|(l & -> & -> & Hr)]; [exact Hin|].
    eapply bulkLoop_members. exact Hin.
Qed.

Lemma stampsOrdered_later (now now' : timestamp) (g : genre) :
  (now <= now')%Z -> stampsOrdered now g -> stampsOrdered now' g.
Proof.
  unfold stampsOrdered. intros Hle [Hc Hu]. split; [lia|].
  destruct (updatedAt g); [lia | exact I].
Qed.

(** With a clock that never goes back the stamps stay in order along a
    run. *)
Lemma run_stamps (rs : list request) :
  forall now st,
    Forall (stampsOrdered now) (genres st) ->
    clockOrdered now rs ->
    exists now', Forall (stampsOrdered now') (genres (storeAfter st rs)).
Proof.
  unfold storeAfter.
  induction rs as [|r rs IH]; intros now st Hst Hclock; [exists now; exact Hst|].
  simpl. destruct (handle st r) as [st1 resp] eqn:Hh.
  destruct (run st1 rs) as [st2 resps] eqn:Hr. simpl.
  assert (exists now1, (now <= now1)%Z /\ clockOrdered now1 rs
            /\ (forall b t1 t2, r = PostGenre b t1 t2 -> (now <= t1 <= t2)%Z /\ now1 = t2)
            /\ (forall i b t, r = PutGenre i b t \/ r = PatchGenre i b t -> now1 = t))
    as (now1 & Hle & Hrest & Hpost & Hupd).
  { destruct r; simpl in Hclock.
    1,2,6,7: exists now; repeat split; try lia; try exact Hclock;
             try discriminate; intros ? ? ? [?|?]; discriminate.
    - destruct Hclock as [Ht Hc]. exists now2. repeat split; try lia; try exact Hc.
      + injection H as -> -> ->. lia.
      + injection H as -> -> ->. lia.
      + injection H as -> -> ->. reflexivity.
      + intros ? ? ? [?|?]; discriminate.
    - destruct Hclock as [Ht Hc]. exists now0. repeat split; try lia; try exact Hc;
        try discriminate. intros ? ? ? [[= -> -> ->]|[=]]. reflexivity.
    - destruct Hclock as [Ht Hc]. exists now0. repeat split; try lia; try exact Hc;
        try discriminate. intros ? ? ? [[=]|[= -> -> ->]]. reflexivity. }
  specialize (IH now1 st1). rewrite Hr in IH. apply IH; [|exact Hrest].
  apply Forall_forall. intros g' Hin. rewrite Forall_forall in Hst.
  destruct (handle_provenance _ _ _ _ _ Hh Hin)
    as [Hold | [(b & t1 & t2 & -> & _ & _ & Hc & Hu)
               | (g & t & Hg & _ & Hc & Hu & i & b & Hr')]].
  - eapply stampsOrdered_later; [exact Hle | auto].
  - destruct (Hpost b t1 t2 eq_refl) as [Ht ->].
    unfold stampsOrdered. rewrite Hc, Hu. lia.
  - rewrite (Hupd i b t Hr') in *.
    destruct (Hst g Hg) as [Hcg _].
    unfold stampsOrdered. rewrite Hc, Hu. lia.
Qed.

(** Along a run from a store with distinct ids below the counter, a genre
    found under the id of a genre of the first store has its [createdAt]. *)
Lemma run_keeps_createdAt (st : store) (rs : list request) (g g' : genre) :
  NoDup (id <$> genres st) ->
  idsBelowCounter st ->
  g ∈ genres st ->
  g' ∈ genres (storeAfter st rs) ->
  id g' = id g ->
  createdAt g' = createdAt g.
Proof.
  intros Hnd Hinv Hg. revert g'. unfold storeAfter.
  induction rs as [|r rs IH] using rev_ind; intros g' Hin Hid.
  - simpl in Hin. rewrite (same_id_same_genre (genres st) Hnd g' g); auto.
  - rewrite run_app in Hin.
    destruct (run st rs) as [st1 resps1] eqn:Hr. simpl in Hin, IH.
    destruct (handle st1 r) as [st2 resp] eqn:Hh. simpl in Hin.
    destruct (run_counter _ _ _ _ Hr) as (Hle & _ & _).
    destruct (handle_provenance _ _ _ _ _ Hh Hin)
      as [Hold | [(b & t1 & t2 & _ & _ & Hnew & _)
                 | (g1 & t & Hg1 & Hid1 & Hc & _)]].
    + auto.
    + exfalso. unfold idsBelowCounter in Hinv. rewrite Forall_forall in Hinv.
      specialize (Hinv g Hg). lia.
    + rewrite Hc. apply IH; [exact Hg1 | congruence].
Qed.

(** A genre of a store reached from the seed that has no [updatedAt] is a
    seed record no update has touched. *)
Lemma missing_updatedAt_is_seed
    (t1 t2 t3 t4 : timestamp) (rs : list request) (g : genre) :
  g ∈ genres (storeAfter (initialStore t1 t2 t3 t4) rs) ->
  updatedAt g = None ->
  g ∈ seed t1 t2 t3 t4.
Proof.
  revert g. unfold storeAfter.
  induction rs as [|r rs IH] using rev_ind; intros g Hin Hnone; [exact Hin|].
  rewrite run_app in Hin.
  destruct (run (initialStore t1 t2 t3 t4) rs) as [st1 resps1]. simpl in Hin, IH.
  destruct (handle st1 r) as [st2 resp] eqn:Hh. simpl in Hin.
  destruct (handle_provenance _ _ _ _ _ Hh Hin)
    as [Hold | [(b & n1 & n2 & _ & _ & _ & _ & Hu) | (g1 & t & _ & _ & _ & Hu & _)]];
    [auto | congruence | congruence].
Qed.

(** The part of C3 the code keeps: with a clock that never goes back,
    every [updatedAt] of a store reached from the seed is at least the
    [createdAt] next to it. *)
Lemma updatedAt_after_createdAt
    (t1 t2 t3 t4 : timestamp) (rs : list request) (g : genre) (u : timestamp) :
  (t1 <= t2 <= t3)%Z -> (t3 <= t4)%Z ->
  clockOrdered t4 rs ->
  g ∈ genres (storeAfter (initialStore t1 t2 t3 t4) rs) ->
  updatedAt g = Some u ->
  (createdAt g <= u)%Z.
Proof.
  intros H123 H34 Hclock Hin Hu.
  destruct (run_stamps rs t4 (initialStore t1 t2 t3 t4)) as [now Hall].
  - simpl. unfold stampsOrdered. repeat constructor; simpl; lia.
  - exact Hclock.
  - rewrite Forall_forall in Hall. destruct (Hall g Hin) as [_ Hord].
    rewrite Hu in Hord. lia.
Qed.

(** C3: at process start no seed record carries an [updatedAt]: reading
    genre 1 straight after the start returns a record without one, while a
    record that a create returns always carries both stamps. *)
Theorem seed_records_lack_updatedAt (t1 t2 t3 t4 : timestamp) :
  Forall (fun g => updatedAt g = None) (genres (initialStore t1 t2 t3 t4))
  /\ getGenre (initialStore t1 t2 t3 t4) "1" = (initialStore t1 t2 t3 t4, Found (action t1))
  /\ updatedAt (action t1) = None
  /\ forall st b n1 n2 st' g,
       postGenre st b n1 n2 = (st', Created g) ->
       createdAt g = n1 /\ updatedAt g = Some n2.
Proof.
  split; [repeat constructor|]. split; [reflexivity|]. split; [reflexivity|].
  intros st b n1 n2 st' g. unfold postGenre, getNextId.
  intros H. repeat case_match; simplify_eq. split; reflexivity.
Qed.

Lemma seed_records_lack_updatedAt_witness :
  exists st' g,
    postGenre (initialStore 0 0 0 0)
      (Body (Str "Horror") (Str "Scary films") Undefined) 3 4 = (st', Created g)
    /\ createdAt g = 3%Z /\ updatedAt g = Some 4%Z.
Proof.
  eexists _, _. split; [reflexivity|].
  exact (proj2 (proj2 (proj2 (seed_records_lack_updatedAt 0 0 0 0)))
           (initialStore 0 0 0 0) (Body (Str "Horror") (Str "Scary films") Undefined)
           3%Z 4%Z _ _ eq_refl).
Defined.

(** ** The ids of a reachable store are distinct *)

Lemma handle_distinct_ids (st st' : store) (r : request) (resp : response) :
  handle st r = (st', resp) ->
  idsBelowCounter st ->
  NoDup (id <$> genres st) ->
  NoDup (id <$> genres st').
Proof.
  intros Hh Hinv Hnd.
  destruct r as [sort order search|i|b t1 t2|i b t|i b t|i|ids]; simpl in Hh.
  - unfold getGenres in Hh.
    assert (st' = st) as -> by (repeat case_match; congruence). exact Hnd.
  - unfold getGenre in Hh.
    assert (st' = st) as -> by (repeat case_match; congruence). exact Hnd.
  - unfold postGenre, getNextId in Hh.
    repeat case_match; simplify_eq; simpl; try exact Hnd.
    rewrite fmap_app. apply NoDup_app. split; [exact Hnd|]. split.
    + intros x (g & -> & Hg)%list_elem_of_fmap Hx.
      apply list_elem_of_singleton in Hx. simpl in Hx.
      unfold idsBelowCounter in Hinv. rewrite Forall_forall in Hinv.
      specialize (Hinv g Hg). lia.
    + apply NoDup_singleton.
  - unfold putGenre in Hh.
    repeat case_match; simplify_eq; simpl; try exact Hnd.
    rewrite list_fmap_insert. simpl. rewrite list_insert_id; [exact Hnd|].
    match goal with
    | Hf : findIndexById _ _ = Some _ |- _ =>
        apply findIndexById_Some in Hf as [Hi _]
    end.
    rewrite list_lookup_fmap, Hi. reflexivity.
  - unfold patchGenre in Hh.
    repeat case_match; simplify_eq; simpl; try exact Hnd.
    all: rewrite list_fmap_insert; simpl; rewrite list_insert_id; [exact Hnd|].
    all: match goal with
         | Hf : findIndexById _ _ = Some _ |- _ =>
             apply findIndexById_Some in Hf as [Hi _]
         end.
    all: rewrite list_lookup_fmap, Hi; reflexivity.
  - unfold deleteGenre in Hh.
    repeat case_match; simplify_eq; simpl; try exact Hnd.
    rewrite list_fmap_delete. eapply sublist_NoDup; [exact Hnd|].
    apply sublist_delete.
  - apply deleteGenres_cases in Hh as [[-> ->]|(l & -> & -> & Hr)]; [exact Hnd|].
    apply bulkLoop_NoDup_ids. exact Hnd.
Qed.

(** The invariant of section 3 of the specification: in every store
    reached from the seed an id names one genre only. *)
Lemma reachable_distinct_ids (t1 t2 t3 t4 : timestamp) (rs : list request) :
  NoDup (id <$> genres (storeAfter (initialStore t1 t2 t3 t4) rs))
  /\ idsBelowCounter (storeAfter (initialStore t1 t2 t3 t4) rs).
Proof.
  unfold storeAfter. induction rs as [|r rs IH] using rev_ind.
  - split; [compute_done | apply seed_idsBelowCounter].
  - rewrite run_app.
    destruct (run (initialStore t1 t2 t3 t4) rs) as [st1 resps1]. simpl in IH.
    destruct IH as [Hnd Hinv]. simpl.
    destruct (handle st1 r) as [st2 resp] eqn:Hh. simpl. split.
    + eapply handle_distinct_ids; eassumption.
    + destruct (handle_counter _ _ _ _ Hh) as (_ & Hkeep & _). auto.
Qed.

(** ** Printing and reading back an id *)

Lemma of_uint_acc_value (d : Decimal.uint) :
  forall acc, Zpos (Pos.of_uint_acc d acc) = uintValue d (Zpos acc).
Proof.
  induction d; intros acc; cbn [Pos.of_uint_acc uintValue];
    [reflexivity | rewrite IHd; f_equal; lia ..].
Qed.

Lemma of_uint_value (d : Decimal.uint) : Z.of_N (Pos.of_uint d) = uintValue d 0.
Proof.
  induction d; cbn [Pos.of_uint uintValue]; try reflexivity; try exact IHd;
    cbn [Z.of_N]; rewrite of_uint_acc_value; reflexivity.
Qed.

Lemma readDigits_numeral (d : Decimal.uint) :
  forall acc,
    readDigits 10 (NilEmpty.string_of_uint d) (Some acc) = Some (uintValue d acc).
Proof.
  induction d; intros acc; cbn [NilEmpty.string_of_uint uintValue];
    [reflexivity | ..];
    cbn [readDigits];
    match goal with
    | |- context [digitValue ?c] =>
        let v := eval vm_compute in (digitValue c) in
        change (digitValue c) with v
    end;
    cbv beta iota; change (_ <? 10)%Z with true; cbv beta iota;
    cbn [default]; rewrite IHd; cbv [Datatypes.id]; do 2 f_equal; lia.
Qed.

Lemma readDigits_numeral_start (d : Decimal.uint) :
  d <> Decimal.Nil ->
  readDigits 10 (NilEmpty.string_of_uint d) None = Some (uintValue d 0).
Proof.
  destruct d; [congruence | ..]; intros _;
    cbn [NilEmpty.string_of_uint uintValue readDigits];
    match goal with
    | |- context [digitValue ?c] =>
        let v := eval vm_compute in (digitValue c) in
        change (digitValue c) with v
    end;
    cbv beta iota; change (_ <? 10)%Z with true; cbv beta iota;
    rewrite readDigits_numeral; reflexivity.
Qed.

Lemma parseIntString_numeral (d : Decimal.uint) :
  d <> Decimal.Nil ->
  parseIntString (NilEmpty.string_of_uint d) = Int (uintValue d 0)
  /\ parseIntString (String "-" (NilEmpty.string_of_uint d)) = Int (- uintValue d 0).
Proof.
  intros Hd. pose proof (readDigits_numeral_start d Hd) as Hread.
  destruct d as [|d|d|d|d|d|d|d|d|d|d]; [congruence | ..];
    cbn [NilEmpty.string_of_uint] in *; unfold parseIntString;
    simpl trimStart; cbv beta iota zeta.
  1: destruct d; cbn [NilEmpty.string_of_uint] in *; cbv beta iota zeta;
     try (match goal with
          | |- context [isX ?c] =>
              let v := eval vm_compute in (isX c) in change (isX c) with v
          end; cbv beta iota zeta).
  all: rewrite Hread; split; f_equal; lia.
Qed.

(** [parseInt] reads back the decimal numeral [String(n)] prints: an
    integer id survives the way through a URL or a JSON body. *)
Lemma parseInt_toString_Num (n : Z) : parseInt (Num n) = Int n.
Proof.
  unfold parseInt, toString, NilZero.string_of_int, NilZero.string_of_uint.
  destruct n as [|p|p]; simpl Z.to_int.
  - reflexivity.
  - pose proof (DecimalPos.Unsigned.to_uint_nonnil p) as Hnn.
    destruct (parseIntString_numeral (Pos.to_uint p) Hnn) as [Hpos _].
    destruct (Pos.to_uint p) eqn:E; [congruence | ..];
      rewrite Hpos, <- of_uint_value, <- E, DecimalPos.Unsigned.of_to; reflexivity.
  - pose proof (DecimalPos.Unsigned.to_uint_nonnil p) as Hnn.
    destruct (parseIntString_numeral (Pos.to_uint p) Hnn) as [_ Hneg].
    destruct (Pos.to_uint p) eqn:E; [congruence | ..];
      rewrite Hneg, <- of_uint_value, <- E, DecimalPos.Unsigned.of_to; reflexivity.
Qed.

(** ** What create and replace answer *)

Lemma tooShort_falsy (v : value) (n : nat) :
  truthy v = false -> tooShort v n = Some true.
Proof. unfold tooShort. intros ->. reflexivity. Qed.

Lemma tooShort_truthyNonString (v : value) (n : nat) :
  truthyNonString v -> tooShort v n = None.
Proof.
  unfold tooShort. intros [-> Hns].
  destruct v; try reflexivity. exfalso. eapply Hns. reflexivity.
Qed.

Lemma tooShort_is_Some (v : value) (n : nat) (b : bool) :
  tooShort v n = Some b -> truthy v = false \/ exists s, v = Str s.
Proof.
  unfold tooShort. destruct (truthy v) eqn:E; [|auto].
  destruct v; try discriminate. right. eexists. reflexivity.
Qed.

Lemma validateGenre_nil_inv (n d : value) :
  validateGenre n d = Some [] ->
  exists sn sd, n = Str sn /\ d = Str sd
    /\ (2 <= String.length (trim sn))%nat /\ (5 <= String.length (trim sd))%nat.
Proof.
  unfold validateGenre.
  destruct (tooShort n 2) as [[|]|] eqn:En; cbn [mbind option_bind];
    [destruct (tooShort d 5) as [[|]|]; discriminate | | discriminate].
  destruct (tooShort d 5) as [[|]|] eqn:Ed; cbn [mbind option_bind];
    try discriminate. intros _.
  destruct (tooShort_is_Some _ _ _ En) as [Hf|[sn ->]];
    [rewrite tooShort_falsy in En by exact Hf; discriminate|].
  destruct (tooShort_is_Some _ _ _ Ed) as [Hf|[sd ->]];
    [rewrite tooShort_falsy in Ed by exact Hf; discriminate|].
  rewrite tooShort_Str in En, Ed by lia.
  injection En as En. injection Ed as Ed.
  apply Nat.ltb_ge in En, Ed. exists sn, sd. repeat split; assumption.
Qed.

Lemma list_find_nameInUse (gs : list genre) (n : string) :
  match list_find (fun g => toLowerCase (name g) = toLowerCase n) gs with
  | Some _ => nameInUse gs n
  | None => ~ nameInUse gs n
  end.
Proof.
  unfold nameInUse. destruct (list_find _ gs) as [[j h]|] eqn:E.
  - apply list_find_Some in E as (Hj & Hnm & _).
    apply Exists_exists. exists h. split; [eapply list_elem_of_lookup_2; exact Hj|].
    exact Hnm.
  - rewrite list_find_None, Forall_forall in E.
    intros (h & Hin & Hnm)%Exists_exists. exact (E h Hin Hnm).
Qed.

(** A create with a string name and a string description: the validation
    error when a rule is violated, else the conflict error when the trimmed
    name is in use (ignoring case), else the new record, which takes the
    counter's value as its id and goes to the end of the array. *)
Theorem create_outcome
    (st : store) (n d : string) (img : value) (now1 now2 : timestamp) :
  postGenre st (Body (Str n) (Str d) img) now1 now2 =
    match violations n d with
    | e :: es => (st, ValidationFailed (e :: es))
    | [] =>
        if decide (nameInUse (genres st) (trim n)) then (st, Conflict)
        else (Store (genres st ++ [createdRecord st n d img now1 now2])
                    (nextId st + 1),
              Created (createdRecord st n d img now1 now2))
    end.
Proof.
  unfold postGenre. cbn [body_name body_description body_image trimOf toLowerCaseOf].
  rewrite validateGenre_Str. unfold violations.
  match goal with |- context [(?l1 ++ ?l2)] => destruct (l1 ++ l2) end;
    [|reflexivity].
  pose proof (list_find_nameInUse (genres st) (trim n)) as Hfind.
  destruct (list_find _ (genres st)) as [[j h]|].
  - rewrite decide_True by exact Hfind. reflexivity.
  - rewrite decide_False by exact Hfind. reflexivity.
Qed.

(** A replace of an id in the store with a string name and a string
    description: the validation error when a rule is violated, else the
    conflict error when another genre has the trimmed name, else the record
    is overwritten in place, keeping its id and [createdAt], and its image
    too unless the body brings a truthy one. *)
Theorem replace_outcome
    (st : store) (idParam : string) (i : nat) (g : genre)
    (n d : string) (img : value) (now : timestamp) :
  findIndexById (Str idParam) (genres st) = Some (i, g) ->
  putGenre st idParam (Body (Str n) (Str d) img) now =
    match violations n d with
    | e :: es => (st, ValidationFailed (e :: es))
    | [] =>
        if decide (nameTaken (genres st) (id g) (trim n)) then (st, Conflict)
        else (Store (<[i := replacedRecord g n d img now]> (genres st)) (nextId st),
              Updated (replacedRecord g n d img now))
    end.
Proof.
  intros Hf. destruct (findIndexById_Some _ _ _ _ Hf) as [_ Hp].
  unfold putGenre. rewrite Hf.
  cbn [body_name body_description body_image trimOf].
  rewrite validateGenre_Str. unfold violations.
  match goal with |- context [(?l1 ++ ?l2)] => destruct (l1 ++ l2) end;
    [|reflexivity].
  pose proof (find_other_with_name (genres st) _ (id g) (trim n) Hp) as Hdup.
  destruct (list_find _ (genres st)) as [[j h]|].
  - rewrite decide_True by exact Hdup. reflexivity.
  - rewrite decide_False by exact Hdup. reflexivity.
Qed.

Lemma replace_outcome_witness :
  putGenre (initialStore 0 0 0 0) "3"
    (Body (Str " drama ") (Str "Slow and sad") (Str "")) 9
  = (Store [action 0; comedy 0;
            Genre 3 "drama" "Slow and sad" (Str "/images/drama.jpg") 0 (Some 9%Z);
            scifi 0] 5,
     Updated (Genre 3 "drama" "Slow and sad" (Str "/images/drama.jpg") 0 (Some 9%Z))).
Proof.
  rewrite (replace_outcome (initialStore 0 0 0 0) "3" 2 (drama 0)); reflexivity.
Defined.

(** ** Errors change nothing *)

Lemma postGenre_cases (st st' : store) (b : body) (now1 now2 : timestamp)
    (resp : response) :
  postGenre st b now1 now2 = (st', resp) ->
  (st' = st /\ (400 <= status resp)%Z)
  \/ exists n d,
       body_name b = Str n /\ body_description b = Str d
       /\ violations n d = [] /\ ~ nameInUse (genres st) (trim n)
       /\ resp = Created (createdRecord st n d (body_image b) now1 now2)
       /\ st' = Store (genres st ++ [createdRecord st n d (body_image b) now1 now2])
                      (nextId st + 1).
Proof.
  unfold postGenre.
  destruct (validateGenre (body_name b) (body_description b)) as [[|e es]|] eqn:Hv;
    [|intros [= <- <-]; left; split; [reflexivity | simpl; lia] ..].
  destruct (validateGenre_nil_inv _ _ Hv) as (n & d & Hn & Hd & Hln & Hld).
  rewrite Hn, Hd in *. cbn [trimOf toLowerCaseOf].
  pose proof (list_find_nameInUse (genres st) (trim n)) as Hfind.
  destruct (list_find _ (genres st)) as [[j h]|]; intros [= <- <-].
  - left. split; [reflexivity | simpl; lia].
  - right. exists n, d. split; [reflexivity|]. split; [reflexivity|].
    split; [|split; [exact Hfind | split; reflexivity]].
    rewrite validateGenre_Str in Hv. injection Hv as Hv. exact Hv.
Qed.

(** The same for a replace. *)
Lemma putGenre_cases (st st' : store) (idParam : string) (b : body)
    (now : timestamp) (resp : response) :
  putGenre st idParam b now = (st', resp) ->
  (st' = st /\ (400 <= status resp)%Z)
  \/ exists i g n d,
       findIndexById (Str idParam) (genres st) = Some (i, g)
       /\ body_name b = Str n /\ body_description b = Str d
       /\ violations n d = [] /\ ~ nameTaken (genres st) (id g) (trim n)
       /\ resp = Updated (replacedRecord g n d (body_image b) now)
       /\ st' = Store (<[i := replacedRecord g n d (body_image b) now]> (genres st))
                      (nextId st).
Proof.
  unfold putGenre.
  destruct (findIndexById (Str idParam) (genres st)) as [[i g]|] eqn:Hf;
    [|intros [= <- <-]; left; split; [reflexivity | simpl; lia]].
  destruct (findIndexById_Some _ _ _ _ Hf) as [_ Hp].
  destruct (validateGenre (body_name b) (body_description b)) as [[|e es]|] eqn:Hv;
    [|intros [= <- <-]; left; split; [reflexivity | simpl; lia] ..].
  destruct (validateGenre_nil_inv _ _ Hv) as (n & d & Hn & Hd & Hln & Hld).
  rewrite Hn, Hd in *. cbn [trimOf].
  pose proof (find_other_with_name (genres st) _ (id g) (trim n) Hp) as Hdup.
  destruct (list_find _ (genres st)) as [[j h]|]; intros [= <- <-].
  - left. split; [reflexivity | simpl; lia].
  - right. exists i, g, n, d. split; [reflexivity|]. split; [reflexivity|].
    split; [reflexivity|]. split; [|split; [exact Hdup | split; reflexivity]].
    rewrite validateGenre_Str in Hv. injection Hv as Hv. exact Hv.
Qed.

(** On an empty array the loop prints nothing: it reports every element
    as not found. *)
Lemma bulkLoop_empty (ids : list json) :
  forall deleted notFound,
    bulkLoop [] ids deleted notFound = ([], Some (deleted, notFound ++ ids)).
Proof.
  induction ids as [|x rest IH]; intros deleted notFound; cbn [bulkLoop findIndexOf].
  - rewrite app_nil_r. reflexivity.
  - rewrite IH, <- app_assoc. reflexivity.
Qed.

(** An index looked for in an array that is not empty, without a
    TypeError, is the index of an element that can be printed. *)
Lemma findIndexOf_printed (x : json) (gs : list genre) (found : option (nat * genre)) :
  gs <> [] -> findIndexOf x gs = Some found -> printable x.
Proof.
  intros Hne Hf. unfold printable.
  destruct (stringOf x) as [s|] eqn:Hs; [eexists; reflexivity|].
  assert (findIndexOf x gs = None) as E by (apply findIndexOf_throws; auto).
  congruence.
Qed.

(** A loop ended by a TypeError: it stopped at the first element that
    cannot be printed, the array not being empty then, and left the array
    as the loop over the elements before that one leaves it. *)
Lemma bulkLoop_throws (ids : list json) :
  forall gs deleted notFound gs',
    bulkLoop gs ids deleted notFound = (gs', None) ->
    exists k x,
      ids !! k = Some x /\ stringOf x = None
      /\ Forall printable (take k ids)
      /\ gs' <> []
      /\ gs' = (bulkLoop gs (take k ids) deleted notFound).1.
Proof.
  induction ids as [|x rest IH]; intros gs deleted notFound gs'; [discriminate|].
  cbn [bulkLoop].
  destruct gs as [|g0 gs0] eqn:Egs; [rewrite bulkLoop_empty; discriminate|].
  rewrite <- Egs. assert (gs <> []) as Hne by (rewrite Egs; discriminate).
  clear Egs. destruct (findIndexOf x gs) as [found|] eqn:Hf.
  - pose proof (findIndexOf_printed _ _ _ Hne Hf) as Hx.
    intros Hloop.
    assert (exists gs1 d1 n1,
              bulkLoop gs1 rest d1 n1 = (gs', None)
              /\ forall l, bulkLoop gs (x :: l) deleted notFound = bulkLoop gs1 l d1 n1)
      as (gs1 & d1 & n1 & Hrest & Hstep).
    { destruct found as [[i g]|]; eexists _, _, _; (split; [exact Hloop|]);
        intros l; cbn [bulkLoop]; rewrite Hf; reflexivity. }
    destruct (IH _ _ _ _ Hrest) as (k & y & Hk & Hy & Hpr & Hne' & Hgs).
    exists (S k), y. cbn [lookup list_lookup take].
    split; [exact Hk|]. split; [exact Hy|].
    split; [constructor; assumption|]. split; [exact Hne'|].
    rewrite Hstep. exact Hgs.
  - intros [= <-]. exists 0%nat, x.
    apply findIndexOf_throws in Hf as [Hs _].
    split; [reflexivity|]. split; [exact Hs|]. split; [constructor|].
    split; [exact Hne | reflexivity].
Qed.

(** The store a bulk delete leaves, whatever it answers. *)
Lemma deleteGenres_store (st : store) (l : list json) :
  (deleteGenres st (Some l)).1 = Store (bulkLoop (genres st) l [] []).1 (nextId st).
Proof.
  unfold deleteGenres. destruct l as [|x rest]; [destruct st; reflexivity|].
  destruct (bulkLoop (genres st) (x :: rest) [] []) as [gs [[d nf]|]]; reflexivity.
Qed.

(** A request that is answered with an error status (400 and above)
    leaves the array and the counter exactly as they were, with one
    exception: a bulk delete answered 500.  That answer is the TypeError of
    the first element of [ids] that cannot be printed; the store is then
    the one the bulk delete of the elements before it leaves, so the
    genres those elements read as are gone. *)
Theorem errors_keep_store_unless_bulk_500
    (st st' : store) (r : request) (resp : response) :
  handle st r = (st', resp) ->
  (400 <= status resp)%Z ->
  st' = st
  \/ exists ids k x,
       r = DeleteGenres (Some ids) /\ resp = InternalError
       /\ ids !! k = Some x /\ stringOf x = None
       /\ Forall printable (take k ids)
       /\ genres st' <> []
       /\ st' = (deleteGenres st (Some (take k ids))).1.
Proof.
  destruct r as [sort order search|i|b t1 t2|i b t|i b t|i|ids]; cbn [handle].
  - unfold getGenres. intros H _. left. repeat case_match; congruence.
  - unfold getGenre. intros H _. left. repeat case_match; congruence.
  - intros H Hs. left.
    apply postGenre_cases in H as [[-> _]|(n & d & _ & _ & _ & _ & -> & _)];
      [reflexivity | simpl in Hs; lia].
  - unfold putGenre. intros H Hs. left.
    repeat case_match; simplify_eq; simpl in Hs; reflexivity || lia.
  - unfold patchGenre. intros H Hs. left.
    repeat case_match; simplify_eq; simpl in Hs; reflexivity || lia.
  - unfold deleteGenre. intros H Hs. left.
    repeat case_match; simplify_eq; simpl in Hs; reflexivity || lia.
  - intros H Hs.
    apply deleteGenres_cases in H as [[-> ->]|(l & -> & -> & Hr)];
      [left; reflexivity|].
    destruct (bulkLoop (genres st) l [] []) as [gs [[d nf]|]] eqn:E;
      cbn [fst snd] in *; subst resp; [simpl in Hs; lia|].
    right. destruct (bulkLoop_throws _ _ _ _ _ E) as (k & x & Hk & Hx & Hpr & Hne & Hgs).
    exists l, k, x. rewrite deleteGenres_store, <- Hgs. repeat split; assumption.
Qed.

Lemma errors_keep_store_unless_bulk_500_witness :
  let st := initialStore 0 0 0 0 in
  let r := DeleteGenres (Some [Prim (Num 1); Obj [("toString", Prim (Num 0))]]) in
  handle st r = (Store [comedy 0; drama 0; scifi 0] 5, InternalError)
  /\ (Store [comedy 0; drama 0; scifi 0] 5 = st
      \/ exists ids k x,
           r = DeleteGenres (Some ids) /\ InternalError = InternalError
           /\ ids !! k = Some x /\ stringOf x = None
           /\ Forall printable (take k ids)
           /\ genres (Store [comedy 0; drama 0; scifi 0] 5) <> []
           /\ Store [comedy 0; drama 0; scifi 0] 5
              = (deleteGenres st (Some (take k ids))).1).
Proof.
  cbv zeta. split; [reflexivity|].
  apply (errors_keep_store_unless_bulk_500 (initialStore 0 0 0 0) _
           (DeleteGenres (Some [Prim (Num 1); Obj [("toString", Prim (Num 0))]]))
           InternalError);
    [reflexivity | simpl; lia].
Defined.

(** ** The ids handed out *)

Lemma handle_counter_step (st st' : store) (r : request) (resp : response) :
  handle st r = (st', resp) ->
  match resp with
  | Created g => id g = nextId st /\ nextId st' = (nextId st + 1)%Z
  | _ => nextId st' = nextId st
  end.
Proof.
  intros H. destruct (handle_counter _ _ _ _ H) as (_ & _ & Hnew).
  destruct resp; try (exact (Hnew _ eq_refl)).
  all: destruct r as [sort order search|i|b t1 t2|i b t|i b t|i|ids]; simpl in H.
  all: try (apply postGenre_cases in H
              as [[-> _]|(n & d & _ & _ & _ & _ & [=] & _)];
            reflexivity).
  all: try (unfold getGenres in H; repeat case_match; simplify_eq; reflexivity).
  all: try (unfold getGenre in H; repeat case_match; simplify_eq; reflexivity).
  all: try (unfold putGenre in H; repeat case_match; simplify_eq; reflexivity).
  all: try (unfold patchGenre in H; repeat case_match; simplify_eq; reflexivity).
  all: try (unfold deleteGenre in H; repeat case_match; simplify_eq; reflexivity).
  all: unfold deleteGenres in H; repeat case_match; simplify_eq; reflexivity.
Qed.

Lemma run_created_ids (rs : list request) :
  forall st st' resps,
    run st rs = (st', resps) ->
    nextId st' = (nextId st + Z.of_nat (length (createdIds resps)))%Z
    /\ forall k i, createdIds resps !! k = Some i -> i = (nextId st + Z.of_nat k)%Z.
Proof.
  induction rs as [|r rs IH]; intros st st' resps; simpl.
  - intros [= <- <-]. simpl. split; [lia | intros k i; rewrite lookup_nil; discriminate].
  - destruct (handle st r) as [st1 resp] eqn:Hh.
    destruct (run st1 rs) as [st2 resps2] eqn:Hr.
    intros [= <- <-]. destruct (IH _ _ _ Hr) as [Hn Hk].
    pose proof (handle_counter_step _ _ _ _ Hh) as Hstep.
    unfold createdIds in *.
    destruct resp; cbn [omap list_omap] in *;
      try (rewrite Hstep in Hn, Hk; split; [exact Hn | exact Hk]).
    destruct Hstep as [Hid Hnext]. cbn [length]. split; [lia|].
    intros [|k] i; cbn [lookup list_lookup].
    + intros [= <-]. lia.
    + intros Hi. rewrite (Hk k i Hi). lia.
Qed.

(** The ids a process hands out are 5, 6, 7, ... in the order of the
    successful creates, whatever else is requested in between: the k-th
    record created (counting from 0) has the id 5 + k, and the counter
    stands at 5 plus the number of records created. *)
Theorem created_ids_consecutive
    (t1 t2 t3 t4 : timestamp) (rs : list request) :
  let '(st, resps) := run (initialStore t1 t2 t3 t4) rs in
  nextId st = (5 + Z.of_nat (length (createdIds resps)))%Z
  /\ forall k i, createdIds resps !! k = Some i -> i = (5 + Z.of_nat k)%Z.
Proof.
  destruct (run (initialStore t1 t2 t3 t4) rs) as [st resps] eqn:Hr.
  exact (run_created_ids rs _ _ _ Hr).
Qed.

Lemma created_ids_consecutive_witness :
  createdIds
    (run (initialStore 0 0 0 0)
       [PostGenre (Body (Str "Horror") (Str "Scary films") Undefined) 1 2;
        PostGenre (Body (Str "horror") (Str "Scary films") Undefined) 3 4;
        DeleteGenres (Some [Prim (Num 5); Prim (Num 1)]);
        PostGenre (Body (Str "Romance") (Str "Love stories") Undefined) 5 6]).2
  = [5%Z; 6%Z]
  /\ 6%Z = (5 + Z.of_nat 1)%Z.
Proof.
  split; [reflexivity|].
  pose proof (created_ids_consecutive 0 0 0 0
    [PostGenre (Body (Str "Horror") (Str "Scary films") Undefined) 1 2;
     PostGenre (Body (Str "horror") (Str "Scary films") Undefined) 3 4;
     DeleteGenres (Some [Prim (Num 5); Prim (Num 1)]);
     PostGenre (Body (Str "Romance") (Str "Love stories") Undefined) 5 6]) as H.
  destruct (run _ _) as [st resps] eqn:E in H. destruct H as [_ H].
  vm_compute in E. injection E as <- <-.
  exact (H 1%nat 6%Z eq_refl).
Defined.

(** ** Reading back what was written *)

Lemma find_in_filter {A} (P Q : A -> Prop)
    `{!forall x, Decision (P x)} `{!forall x, Decision (Q x)} (l : list A) :
  (forall x, P x -> Q x) ->
  snd <$> list_find P (filter Q l) = snd <$> list_find P l.
Proof.
  intros HPQ. induction l as [|a l IH]; [reflexivity|].
  rewrite filter_cons. destruct (decide (Q a)) as [Hq|Hq].
  - cbn [list_find]. destruct (decide (P a)); [reflexivity|].
    destruct (list_find P (filter Q l)) as [[j x]|],
             (list_find P l) as [[j' x']|]; simpl in *; congruence.
  - cbn [list_find]. destruct (decide (P a)) as [Hp|Hp]; [exfalso; auto|].
    rewrite IH. destruct (list_find P l) as [[j x]|]; reflexivity.
Qed.

(** The record a create has just returned is read back by a get of its
    id, printed in decimal as a client would put it in the URL. *)
Theorem create_then_get
    (st st' : store) (b : body) (now1 now2 : timestamp) (g : genre) :
  idsBelowCounter st ->
  postGenre st b now1 now2 = (st', Created g) ->
  getGenre st' (toString (Num (id g))) = (st', Found g).
Proof.
  intros Hinv Hpost.
  apply postGenre_cases in Hpost
    as [[_ Hs]|(n & d & _ & _ & _ & _ & [= ->] & ->)];
    [simpl in Hs; lia|].
  unfold getGenre, findGenreById, findIndexById. cbn [genres].
  change (parseInt (Str (toString (Num (id (createdRecord st n d (body_image b) now1 now2))))))
    with (parseInt (Num (nextId st))).
  rewrite parseInt_toString_Num.
  rewrite list_find_app_r.
  - cbn [list_find]. rewrite decide_True by reflexivity. reflexivity.
  - apply list_find_None, Forall_forall. intros h Hh Heq.
    unfold idsBelowCounter in Hinv. rewrite Forall_forall in Hinv.
    specialize (Hinv h Hh). unfold strictEqNum in Heq. injection Heq as Heq. lia.
Qed.

Lemma create_then_get_witness :
  exists st' g,
    postGenre (initialStore 0 0 0 0)
      (Body (Str "Horror") (Str "Scary films") Undefined) 1 2 = (st', Created g)
    /\ id g = 5%Z
    /\ getGenre st' "5" = (st', Found g).
Proof.
  eexists _, _. split; [reflexivity|]. split; [reflexivity|].
  exact (create_then_get (initialStore 0 0 0 0) _
           (Body (Str "Horror") (Str "Scary films") Undefined) 1 2 _
           (seed_idsBelowCounter 0 0 0 0) eq_refl).
Defined.

Lemma updated_in_place (st st' : store) (r : request) (g' : genre) :
  handle st r = (st', Updated g') ->
  exists idParam i g,
    (exists b t, r = PutGenre idParam b t \/ r = PatchGenre idParam b t)
    /\ findIndexById (Str idParam) (genres st) = Some (i, g)
    /\ id g' = id g
    /\ st' = Store (<[i := g']> (genres st)) (nextId st).
Proof.
  destruct r as [sort order search|i|b t1 t2|i b t|i b t|i|ids]; simpl; intros H.
  - unfold getGenres in H. repeat case_match; simplify_eq.
  - unfold getGenre in H. repeat case_match; simplify_eq.
  - apply postGenre_cases in H as [[_ Hs]|(n & d & _ & _ & _ & _ & [=] & _)].
    simpl in Hs. lia.
  - unfold putGenre in H. repeat case_match; simplify_eq.
    eexists i, _, _. split; [eexists _, _; left; reflexivity|].
    split; [eassumption|]. split; reflexivity.
  - unfold patchGenre in H. repeat case_match; simplify_eq.
    all: eexists i, _, _; (split; [eexists _, _; right; reflexivity|]).
    all: split; [eassumption|]; split; reflexivity.
  - unfold deleteGenre in H. repeat case_match; simplify_eq.
  - unfold deleteGenres in H. repeat case_match; simplify_eq.
Qed.

(** The record a replace or a patch has just returned is read back by a
    get of the same id string, and it sits where the old record sat. *)
Theorem update_then_get (st st' : store) (r : request) (g' : genre) :
  handle st r = (st', Updated g') ->
  exists idParam b t,
    (r = PutGenre idParam b t \/ r = PatchGenre idParam b t)
    /\ getGenre st' idParam = (st', Found g')
    /\ id <$> genres st' = id <$> genres st.
Proof.
  intros H.
  destruct (updated_in_place _ _ _ _ H) as (idParam & i & g & (b & t & Hr) & Hf & Hid & ->).
  exists idParam, b, t. split; [exact Hr|].
  unfold findIndexById in Hf. apply list_find_Some in Hf as (Hi & Hp & Hfirst).
  split.
  - unfold getGenre, findGenreById, findIndexById. cbn [genres].
    assert (list_find (fun h => strictEqNum (id h) (parseInt (Str idParam)))
              (<[i := g']> (genres st)) = Some (i, g')) as ->; [|reflexivity].
    apply list_find_Some. split; [|split].
    + apply list_lookup_insert_eq. eapply lookup_lt_Some; exact Hi.
    + unfold strictEqNum in *. congruence.
    + intros j h Hj Hlt. rewrite list_lookup_insert_ne in Hj by lia.
      eapply Hfirst; eassumption.
  - cbn [genres]. rewrite list_fmap_insert, Hid. apply list_insert_id.
    rewrite list_lookup_fmap, Hi. reflexivity.
Qed.

Lemma update_then_get_witness :
  exists st' g',
    handle (initialStore 0 0 0 0)
      (PatchGenre "4xyz" (Body Undefined Undefined (Str "/images/space.png")) 9)
    = (st', Updated g')
    /\ getGenre st' "4xyz" = (st', Found g')
    /\ image g' = Str "/images/space.png".
Proof.
  eexists _, _. split; [reflexivity|].
  destruct (update_then_get (initialStore 0 0 0 0) _
              (PatchGenre "4xyz" (Body Undefined Undefined (Str "/images/space.png")) 9)
              _ eq_refl) as (idParam & b & t & [[=]|[= <- _ _]] & Hget & _).
  split; [exact Hget | reflexivity].
Defined.

(** After a delete has removed a genre, a get of the same id string is
    answered NotFound, and a get of an id string that reads as another
    number is answered as before. *)
Theorem delete_then_get (st st' : store) (idParam : string) (g : genre) :
  NoDup (id <$> genres st) ->
  deleteGenre st idParam = (st', Deleted g) ->
  getGenre st' idParam = (st', NotFound)
  /\ genres st' = filter (fun h => id h <> id g) (genres st)
  /\ forall other,
       parseInt (Str other) <> parseInt (Str idParam) ->
       (getGenre st' other).2 = (getGenre st other).2.
Proof.
  intros Hnd. unfold deleteGenre.
  destruct (findIndexById (Str idParam) (genres st)) as [[i h]|] eqn:Hf;
    [|discriminate].
  intros [= <- ->]. destruct (findIndexById_Some _ _ _ _ Hf) as [Hi Hp].
  cbn [genres]. rewrite (splice_is_filter _ _ _ Hnd Hi).
  split; [|split; [reflexivity|]].
  - unfold getGenre, findGenreById. cbn [genres].
    assert (findIndexById (Str idParam)
              (filter (fun h => id h <> id g) (genres st)) = None) as ->;
      [|reflexivity].
    apply findIndexById_None. intros h [Hne _]%list_elem_of_filter.
    rewrite Hp. congruence.
  - intros other Hother. unfold getGenre, findGenreById, findIndexById.
    cbn [genres].
    rewrite (find_in_filter (fun h => strictEqNum (id h) (parseInt (Str other)))
               (fun h => id h <> id g)).
    + destruct (list_find _ (genres st)) as [[j x]|]; reflexivity.
    + intros x Hx Hid. apply Hother. unfold strictEqNum in Hx. congruence.
Qed.

Lemma delete_then_get_witness :
  exists st',
    deleteGenre (initialStore 0 0 0 0) "2" = (st', Deleted (comedy 0))
    /\ getGenre st' "2" = (st', NotFound)
    /\ (getGenre st' "3").2 = Found (drama 0).
Proof.
  eexists. split; [reflexivity|].
  assert (NoDup (id <$> genres (initialStore 0 0 0 0))) as Hnd by compute_done.
  destruct (delete_then_get (initialStore 0 0 0 0) _ "2" (comedy 0) Hnd eq_refl)
    as (Hget & _ & Hother).
  split; [exact Hget|].
  rewrite (Hother "3"); [reflexivity | vm_compute; discriminate].
Defined.

(** ** Fields that are not strings *)

(** A create or a replace whose name (or, the name being acceptable to
    [!v], whose description) is truthy without being a string, such as a
    non-zero number or [true], runs into the TypeError of [.trim()]: the
    answer is 500, not 400, and nothing is stored. *)
Theorem non_string_field_is_500
    (st : store) (n d img : value) :
  truthyNonString n
  \/ ((truthy n = false \/ exists s, n = Str s) /\ truthyNonString d) ->
  (forall now1 now2, postGenre st (Body n d img) now1 now2 = (st, InternalError))
  /\ (forall idParam now,
        is_Some (findIndexById (Str idParam) (genres st)) ->
        putGenre st idParam (Body n d img) now = (st, InternalError)).
Proof.
  intros H.
  assert (validateGenre n d = None) as Hv.
  { unfold validateGenre. destruct H as [Hn|[Hn Hd]].
    - rewrite (tooShort_truthyNonString n 2 Hn). reflexivity.
    - rewrite (tooShort_truthyNonString d 5 Hd).
      destruct Hn as [Hn|[s ->]].
      + rewrite (tooShort_falsy n 2 Hn). reflexivity.
      + rewrite tooShort_Str by lia. reflexivity. }
  split.
  - intros now1 now2. unfold postGenre. cbn [body_name body_description].
    rewrite Hv. reflexivity.
  - intros idParam now [[i g] Hf]. unfold putGenre.
    cbn [body_name body_description]. rewrite Hf, Hv. reflexivity.
Qed.

Lemma non_string_field_is_500_witness :
  postGenre (initialStore 0 0 0 0) (Body (Num 42) (Str "A number") Undefined) 1 2
    = (initialStore 0 0 0 0, InternalError)
  /\ putGenre (initialStore 0 0 0 0) "1" (Body (Str "") (Bool true) Undefined) 3
    = (initialStore 0 0 0 0, InternalError).
Proof.
  assert (truthyNonString (Num 42)) as H42 by (split; [reflexivity | discriminate]).
  assert (truthyNonString (Bool true)) as Htrue
    by (split; [reflexivity | discriminate]).
  split.
  - apply (non_string_field_is_500 (initialStore 0 0 0 0)
             (Num 42) (Str "A number") Undefined).
    left. exact H42.
  - apply (non_string_field_is_500 (initialStore 0 0 0 0)
             (Str "") (Bool true) Undefined).
    + right. split; [left; reflexivity | exact Htrue].
    + vm_compute. eexists. reflexivity.
Defined.

(** A patch of an id in the store whose name or description is present
    without being a string (a number, a boolean, even [null]) runs into the
    TypeError of [.trim()]: the answer is 500 and nothing is stored. *)
Theorem patch_non_string_is_500
    (st : store) (idParam : string) (b : body) (now : timestamp) :
  is_Some (findIndexById (Str idParam) (genres st)) ->
  presentNonString (body_name b) \/ presentNonString (body_description b) ->
  patchGenre st idParam b now = (st, InternalError).
Proof.
  intros [[i g] Hf] H. unfold patchGenre. rewrite Hf.
  assert (collectUpdates b = None) as ->; [|reflexivity].
  assert (forall v, presentNonString v -> trimmedIfPresent v = None) as Hnone.
  { intros v [Hu Hs]. destruct v; try reflexivity; [congruence|].
    exfalso. eapply Hs. reflexivity. }
  unfold collectUpdates. destruct H as [H|H].
  - rewrite (Hnone _ H). reflexivity.
  - rewrite (Hnone _ H). destruct (trimmedIfPresent (body_name b)); reflexivity.
Qed.

Lemma patch_non_string_is_500_witness :
  patchGenre (initialStore 0 0 0 0) "1" (Body Null Undefined Undefined) 3
    = (initialStore 0 0 0 0, InternalError).
Proof.
  apply patch_non_string_is_500.
  - vm_compute. eexists. reflexivity.
  - left. split; discriminate.
Defined.

(** ** Patches that skip the checks *)

Lemma trimmedIfPresent_blank (v : value) :
  missingOrBlank v ->
  exists o, trimmedIfPresent v = Some o /\ truthy (propOf o) = false
            /\ o = match v with Undefined => None | _ => Some "" end.
Proof.
  intros [->|(s & -> & Hs)].
  - exists None. repeat split.
  - exists (Some ""). cbn [trimmedIfPresent trimOf fmap option_fmap option_map].
    rewrite Hs. repeat split.
Qed.

(** A patch of an id in the store whose name and description are each
    missing or blank always succeeds: nothing is validated and no duplicate
    is looked for.  A missing field keeps its value, a blank one is stored
    as the empty string, the image is stored as given when present, and
    [updatedAt] is refreshed; so the empty patch only touches
    [updatedAt]. *)
Theorem patch_without_text_succeeds
    (st : store) (idParam : string) (i : nat) (g : genre) (b : body) (now : timestamp) :
  findIndexById (Str idParam) (genres st) = Some (i, g) ->
  missingOrBlank (body_name b) ->
  missingOrBlank (body_description b) ->
  exists g',
    patchGenre st idParam b now
      = (Store (<[i := g']> (genres st)) (nextId st), Updated g')
    /\ name g' = match body_name b with Undefined => name g | _ => "" end
    /\ description g'
       = match body_description b with Undefined => description g | _ => "" end
    /\ image g' = match body_image b with Undefined => image g | v => v end
    /\ id g' = id g /\ createdAt g' = createdAt g /\ updatedAt g' = Some now.
Proof.
  intros Hf Hn Hd. unfold patchGenre. rewrite Hf. unfold collectUpdates.
  destruct (trimmedIfPresent_blank _ Hn) as (on & -> & Htn & Hon).
  destruct (trimmedIfPresent_blank _ Hd) as (od & -> & Htd & Hod).
  cbn [mbind option_bind upd_name upd_description upd_image].
  rewrite Htn, Htd. cbn [orb].
  assert (match on with
          | Some n =>
              if truthy (Str n)
              then list_find
                     (fun h => ~ strictEqNum (id h) (parseInt (Str idParam))
                               /\ toLowerCase (name h) = toLowerCase n) (genres st)
              else None
          | None => None
          end = None) as ->.
  { destruct on as [n|]; [|reflexivity]. cbn [propOf] in Htn. rewrite Htn.
    reflexivity. }
  eexists. split; [reflexivity|]. cbn [name description image id createdAt updatedAt].
  rewrite Hon, Hod.
  destruct (body_name b), (body_description b), (body_image b); repeat split.
Qed.

Lemma patch_without_text_succeeds_witness :
  exists g',
    patchGenre (initialStore 0 0 0 0) "1" (Body (Str "   ") Undefined Null) 9
      = (Store [g'; comedy 0; drama 0; scifi 0] 5, Updated g')
    /\ name g' = "" /\ image g' = Null
    /\ description g' = "Fast-paced, stunt-heavy films".
Proof.
  assert (missingOrBlank (Str "   ")) as Hn
    by (right; exists "   "; split; reflexivity).
  assert (missingOrBlank Undefined) as Hd by (left; reflexivity).
  destruct (patch_without_text_succeeds (initialStore 0 0 0 0) "1" 0 (action 0)
              (Body (Str "   ") Undefined Null) 9 eq_refl Hn Hd)
    as (g' & Hp & Hnm & Hds & Hi & _).
  exists g'. split; [exact Hp|]. split; [exact Hnm|]. split; [exact Hi | exact Hds].
Defined.

(** ** Trimming *)

Lemma trimEnd_idem (s : string) : trimEnd (trimEnd s) = trimEnd s.
Proof.
  induction s as [|c r IH]; [reflexivity|].
  cbn [trimEnd]. destruct (trimEnd r) as [|c' r'] eqn:E.
  - destruct (isWhiteSpace c) eqn:Hc; [reflexivity|].
    cbn [trimEnd]. rewrite Hc. reflexivity.
  - cbn [trimEnd] in *. rewrite IH. reflexivity.
Qed.

Lemma trimStart_head (s : string) :
  trimStart s = ""
  \/ exists c r, trimStart s = String c r /\ isWhiteSpace c = false.
Proof.
  induction s as [|c r IH]; [left; reflexivity|].
  cbn [trimStart]. destruct (isWhiteSpace c) eqn:Hc; [exact IH|].
  right. exists c, r. split; [reflexivity | exact Hc].
Qed.

Lemma trimEnd_head (c : ascii) (r : string) :
  isWhiteSpace c = false -> exists r', trimEnd (String c r) = String c r'.
Proof.
  intros Hc. cbn [trimEnd]. destruct (trimEnd r).
  - rewrite Hc. eexists. reflexivity.
  - eexists. reflexivity.
Qed.

(** Trimming twice is trimming once. *)
Lemma trim_idem (s : string) : trim (trim s) = trim s.
Proof.
  unfold trim. destruct (trimStart_head s) as [->|(c & r & -> & Hc)];
    [reflexivity|].
  destruct (trimEnd_head c r Hc) as [r' E]. rewrite E.
  cbn [trimStart]. rewrite Hc, <- E. apply trimEnd_idem.
Qed.

Lemma violations_trim (n d : string) :
  violations (trim n) (trim d) = violations n d.
Proof. unfold violations. rewrite !trim_idem. reflexivity. Qed.

Lemma trimmedIfPresent_trimmed (v : value) (s : string) :
  trimmedIfPresent v = Some (Some s) -> trim s = s /\ exists raw, v = Str raw /\ s = trim raw.
Proof.
  destruct v; try discriminate. cbn. intros [= <-].
  split; [apply trim_idem | eexists; split; reflexivity].
Qed.

(** What a patch answers: an error, with the store as it was, or the
    merge of the collected updates, after the checks the handler makes. *)
Lemma patchGenre_cases (st st' : store) (idParam : string) (b : body)
    (now : timestamp) (resp : response) :
  patchGenre st idParam b now = (st', resp) ->
  (st' = st /\ (400 <= status resp)%Z)
  \/ exists i g u,
       findIndexById (Str idParam) (genres st) = Some (i, g)
       /\ collectUpdates b = Some u
       /\ (truthy (propOf (upd_name u)) || truthy (propOf (upd_description u)) = true ->
           validateGenre (orElse (propOf (upd_name u)) (Str (name g)))
             (orElse (propOf (upd_description u)) (Str (description g))) = Some [])
       /\ (forall n, upd_name u = Some n -> n <> "" ->
           ~ nameTaken (genres st) (id g) n)
       /\ resp = Updated
                   {| id := id g;
                      name := default (name g) (upd_name u);
                      description := default (description g) (upd_description u);
                      image := default (image g) (upd_image u);
                      createdAt := createdAt g;
                      updatedAt := Some now |}
       /\ st' = Store (<[i := {| id := id g;
                                name := default (name g) (upd_name u);
                                description := default (description g) (upd_description u);
                                image := default (image g) (upd_image u);
                                createdAt := createdAt g;
                                updatedAt := Some now |}]> (genres st))
                      (nextId st).
Proof.
  unfold patchGenre.
  destruct (findIndexById (Str idParam) (genres st)) as [[i g]|] eqn:Hf;
    [|intros [= <- <-]; left; split; [reflexivity | simpl; lia]].
  destruct (findIndexById_Some _ _ _ _ Hf) as [_ Hp].
  destruct (collectUpdates b) as [u|];
    [|intros [= <- <-]; left; split; [reflexivity | simpl; lia]].
  cbv zeta.
  destruct (if truthy (propOf (upd_name u)) || truthy (propOf (upd_description u))
            then _ else Some []) as [[|e es]|] eqn:Hchk;
    [|intros [= <- <-]; left; split; [reflexivity | simpl; lia] ..].
  assert (forall n, upd_name u = Some n -> n <> "" ->
            match list_find
                    (fun h => ~ strictEqNum (id h) (parseInt (Str idParam))
                              /\ toLowerCase (name h) = toLowerCase n) (genres st)
            with Some _ => nameTaken (genres st) (id g) n
            | None => ~ nameTaken (genres st) (id g) n end) as Hdup.
  { intros n _ _. apply find_other_with_name. exact Hp. }
  destruct (upd_name u) as [n|] eqn:Hun.
  - destruct (truthy (Str n)) eqn:Htn.
    + specialize (Hdup n eq_refl).
      destruct (list_find _ (genres st)) as [[j h]|]; intros [= <- <-].
      * left. split; [reflexivity | simpl; lia].
      * right. exists i, g, u. rewrite Hun.
        split; [reflexivity|]. split; [reflexivity|]. split.
        { intros Ht. rewrite Ht in Hchk. exact Hchk. }
        split; [|split; reflexivity].
        intros n' [= <-] Hne. apply Hdup. exact Hne.
    + intros [= <- <-]. right. exists i, g, u. rewrite Hun.
      split; [reflexivity|]. split; [reflexivity|]. split.
      { intros Ht. rewrite Ht in Hchk. exact Hchk. }
      split; [|split; reflexivity].
      intros n' [= <-] Hne. exfalso. simpl in Htn.
      destruct (String.eqb_spec n ""); [contradiction | discriminate].
  - intros [= <- <-]. right. exists i, g, u. rewrite Hun.
    split; [reflexivity|]. split; [reflexivity|]. split.
    { intros Ht. rewrite Ht in Hchk. exact Hchk. }
    split; [|split; reflexivity]. intros n' [=].
Qed.

(** ** Invariants of the stored text *)

Lemma collectUpdates_inv (b : body) (u : updates) :
  collectUpdates b = Some u ->
  trimmedIfPresent (body_name b) = Some (upd_name u)
  /\ trimmedIfPresent (body_description b) = Some (upd_description u).
Proof.
  unfold collectUpdates.
  destruct (trimmedIfPresent (body_name b)) as [on|]; [|discriminate].
  destruct (trimmedIfPresent (body_description b)) as [od|]; [|discriminate].
  cbn. intros [= <-]. split; reflexivity.
Qed.

Lemma trimmedIfPresent_not_blank (v : value) (o : option string) :
  trimmedIfPresent v = Some o ->
  ~ blankField v ->
  o = None \/ exists s, o = Some s /\ s <> "" /\ trim s = s.
Proof.
  destruct v as [| | | |raw]; cbn; try discriminate.
  - intros [= <-] _. left. reflexivity.
  - intros [= <-] Hnb. right. exists (trim raw). split; [reflexivity|].
    split; [|apply trim_idem]. intros E. apply Hnb. exists raw. split; [reflexivity | exact E].
Qed.

Lemma NoDup_insert_fresh {A} (l : list A) (i : nat) (x : A) :
  NoDup l ->
  (forall j y, j <> i -> l !! j = Some y -> y <> x) ->
  NoDup (<[i := x]> l).
Proof.
  intros Hnd Hfresh. apply NoDup_alt. intros j k y Hj Hk.
  apply list_lookup_insert_Some in Hj as [(-> & -> & _)|[Hne Hj]];
    apply list_lookup_insert_Some in Hk as [(E & E' & _)|[Hne' Hk]]; subst.
  - reflexivity.
  - exfalso. eapply Hfresh; [|exact Hk|reflexivity]. congruence.
  - exfalso. eapply Hfresh; [|exact Hj|reflexivity]. congruence.
  - eapply NoDup_lookup; eassumption.
Qed.

Lemma rename_keeps_distinct (gs : list genre) (i : nat) (g g' : genre) :
  NoDup (id <$> gs) ->
  distinctNames gs ->
  gs !! i = Some g ->
  ~ nameTaken gs (id g) (name g') ->
  distinctNames (<[i := g']> gs).
Proof.
  unfold distinctNames. intros Hids Hnames Hi Hfree.
  rewrite list_fmap_insert. apply NoDup_insert_fresh; [exact Hnames|].
  intros j y Hne Hj Hy. rewrite list_lookup_fmap in Hj.
  destruct (gs !! j) as [h|] eqn:Hh; [|discriminate]. injection Hj as <-.
  apply Hfree. unfold nameTaken. apply Exists_exists. exists h.
  split; [eapply list_elem_of_lookup_2; exact Hh|]. split; [|exact Hy].
  intros Hid. apply Hne. eapply NoDup_lookup; [exact Hids| |].
  - rewrite list_lookup_fmap, Hh. reflexivity.
  - rewrite list_lookup_fmap, Hi. simpl. congruence.
Qed.

Lemma bulkLoop_NoDup_fmap {B} (f : genre -> B) (ids : list json) :
  forall gs deleted notFound,
    NoDup (f <$> gs) -> NoDup (f <$> (bulkLoop gs ids deleted notFound).1).
Proof.
  induction ids as [|x rest IH]; intros gs deleted notFound Hnd; [exact Hnd|].
  simpl. destruct (findIndexOf x gs) as [[[i h]|]|];
    [apply IH | apply IH; exact Hnd | exact Hnd].
  rewrite list_fmap_delete. eapply sublist_NoDup; [exact Hnd|].
  apply sublist_delete.
Qed.

Lemma handle_trimmed (st st' : store) (r : request) (resp : response) :
  handle st r = (st', resp) ->
  Forall trimmedText (genres st) ->
  Forall trimmedText (genres st').
Proof.
  intros Hh Hall.
  destruct r as [sort order search|i|b t1 t2|i b t|i b t|i|ids]; simpl in Hh.
  - unfold getGenres in Hh.
    assert (st' = st) as -> by (repeat case_match; congruence). exact Hall.
  - unfold getGenre in Hh.
    assert (st' = st) as -> by (repeat case_match; congruence). exact Hall.
  - apply postGenre_cases in Hh as [[-> _]|(n & d & _ & _ & _ & _ & _ & ->)];
      [exact Hall|].
    cbn [genres]. apply Forall_app. split; [exact Hall|].
    apply Forall_singleton. split; apply trim_idem.
  - apply putGenre_cases in Hh as [[-> _]|(j & g & n & d & _ & _ & _ & _ & _ & _ & ->)];
      [exact Hall|].
    cbn [genres]. apply Forall_insert; [exact Hall|]. split; apply trim_idem.
  - apply patchGenre_cases in Hh
      as [[-> _]|(j & g & u & Hf & Hu & _ & _ & _ & ->)]; [exact Hall|].
    cbn [genres]. apply Forall_insert; [exact Hall|].
    apply findIndexById_Some in Hf as [Hj _].
    apply (Forall_lookup_1 _ _ _ _ Hall) in Hj as [Hgn Hgd].
    apply collectUpdates_inv in Hu as [Hn Hd].
    split; cbn [name description].
    + destruct (upd_name u) as [s|]; [|exact Hgn].
      apply trimmedIfPresent_trimmed in Hn as [Hn _]. exact Hn.
    + destruct (upd_description u) as [s|]; [|exact Hgd].
      apply trimmedIfPresent_trimmed in Hd as [Hd _]. exact Hd.
  - unfold deleteGenre in Hh. repeat case_match; simplify_eq; [|exact Hall].
    apply Forall_delete. exact Hall.
  - apply deleteGenres_cases in Hh as [[-> ->]|(l & -> & -> & Hr)]; [exact Hall|].
    apply bulkLoop_Forall. exact Hall.
Qed.

(** In every store reached from the seed the names and the descriptions
    are trimmed: no handler stores white space at either end. *)
Theorem stored_text_is_trimmed (t1 t2 t3 t4 : timestamp) (rs : list request) :
  Forall trimmedText (genres (storeAfter (initialStore t1 t2 t3 t4) rs)).
Proof.
  unfold storeAfter. induction rs as [|r rs IH] using rev_ind.
  - simpl. repeat constructor.
  - rewrite run_app.
    destruct (run (initialStore t1 t2 t3 t4) rs) as [st1 resps1]. simpl in IH. simpl.
    destruct (handle st1 r) as [st2 resp] eqn:Hh. simpl.
    eapply handle_trimmed; eassumption.
Qed.

Lemma handle_text (st st' : store) (r : request) (resp : response) :
  handle st r = (st', resp) ->
  noBlankPatch r ->
  NoDup (id <$> genres st) ->
  distinctNames (genres st) ->
  Forall validText (genres st) ->
  distinctNames (genres st') /\ Forall validText (genres st').
Proof.
  intros Hh Hnb Hids Hnames Hvalid.
  destruct r as [sort order search|i|b t1 t2|i b t|i b t|i|ids]; simpl in Hh.
  - unfold getGenres in Hh.
    assert (st' = st) as -> by (repeat case_match; congruence). auto.
  - unfold getGenre in Hh.
    assert (st' = st) as -> by (repeat case_match; congruence). auto.
  - apply postGenre_cases in Hh as [[-> _]|(n & d & _ & _ & Hv & Hfree & _ & ->)];
      [auto|].
    cbn [genres]. split.
    + unfold distinctNames. rewrite fmap_app. apply NoDup_app.
      split; [exact Hnames|]. split; [|apply NoDup_singleton].
      intros x (h & -> & Hh)%list_elem_of_fmap Hx.
      apply list_elem_of_singleton in Hx. cbn [name createdRecord] in Hx.
      apply Hfree. unfold nameInUse. apply Exists_exists. exists h. auto.
    + apply Forall_app. split; [exact Hvalid|]. apply Forall_singleton.
      unfold validText. cbn [name description createdRecord].
      rewrite violations_trim. exact Hv.
  - apply putGenre_cases in Hh
      as [[-> _]|(j & g & n & d & Hf & _ & _ & Hv & Hfree & _ & ->)]; [auto|].
    apply findIndexById_Some in Hf as [Hj _]. cbn [genres]. split.
    + eapply rename_keeps_distinct; eauto.
    + apply Forall_insert; [exact Hvalid|]. unfold validText.
      cbn [name description replacedRecord]. rewrite violations_trim. exact Hv.
  - apply patchGenre_cases in Hh
      as [[-> _]|(j & g & u & Hf & Hu & Hchk & Hfree & _ & ->)]; [auto|].
    apply findIndexById_Some in Hf as [Hj _]. cbn [genres].
    apply collectUpdates_inv in Hu as [Hn Hd]. destruct Hnb as [Hnbn Hnbd].
    pose proof (trimmedIfPresent_not_blank _ _ Hn Hnbn) as Hon.
    pose proof (trimmedIfPresent_not_blank _ _ Hd Hnbd) as Hod.
    pose proof (Forall_lookup_1 _ _ _ _ Hvalid Hj) as Hg.
    split.
    + destruct Hon as [Hon|(s & Hon & Hs & _)]; rewrite Hon in *.
      * cbn [default]. unfold distinctNames. rewrite list_fmap_insert.
        cbn [name]. rewrite list_insert_id; [exact Hnames|].
        rewrite list_lookup_fmap, Hj. reflexivity.
      * eapply rename_keeps_distinct; eauto.
    + apply Forall_insert; [exact Hvalid|]. unfold validText. cbn [name description].
      destruct Hon as [Hon|(sn & Hon & Hsn & _)],
               Hod as [Hod|(sd & Hod & Hsd & _)]; rewrite Hon, Hod in *;
        cbn [default propOf] in *; try exact Hg.
      all: unfold orElse in Hchk;
        rewrite ?(truthy_Str_nonempty sn Hsn), ?(truthy_Str_nonempty sd Hsd) in Hchk;
        cbn [truthy orb] in Hchk; rewrite ?orb_true_r in Hchk;
        specialize (Hchk eq_refl); rewrite validateGenre_Str in Hchk;
        injection Hchk as Hchk; exact Hchk.
  - unfold deleteGenre in Hh. repeat case_match; simplify_eq; [|auto].
    cbn [genres]. split.
    + unfold distinctNames. rewrite list_fmap_delete.
      eapply sublist_NoDup; [exact Hnames | apply sublist_delete].
    + apply Forall_delete. exact Hvalid.
  - apply deleteGenres_cases in Hh as [[-> ->]|(l & -> & -> & Hr)]; [auto|].
    split; [apply bulkLoop_NoDup_fmap; exact Hnames | apply bulkLoop_Forall; exact Hvalid].
Qed.

(** As long as no patch carries a blank name or description, the store
    reached from the seed keeps the two rules of the data model: no two
    genres have the same name, ignoring case, and every genre passes the
    validation rules (a name of at least 2 and a description of at least 5
    characters after trimming). *)
Theorem text_rules_hold_without_blank_patch
    (t1 t2 t3 t4 : timestamp) (rs : list request) :
  Forall noBlankPatch rs ->
  distinctNames (genres (storeAfter (initialStore t1 t2 t3 t4) rs))
  /\ Forall validText (genres (storeAfter (initialStore t1 t2 t3 t4) rs)).
Proof.
  intros Hnb.
  enough (NoDup (id <$> genres (storeAfter (initialStore t1 t2 t3 t4) rs))
          /\ idsBelowCounter (storeAfter (initialStore t1 t2 t3 t4) rs)
          /\ distinctNames (genres (storeAfter (initialStore t1 t2 t3 t4) rs))
          /\ Forall validText (genres (storeAfter (initialStore t1 t2 t3 t4) rs)))
    as (_ & _ & Hnames & Hvalid) by (split; assumption).
  induction rs as [|r rs IH] using rev_ind.
  - split; [compute_done|]. split; [apply seed_idsBelowCounter|].
    split; [compute_done | repeat constructor].
  - apply Forall_app in Hnb as [Hrs Hr]. rewrite Forall_singleton in Hr.
    destruct (IH Hrs) as (Hids & Hinv & Hnames & Hvalid).
    unfold storeAfter in *. rewrite run_app.
    destruct (run (initialStore t1 t2 t3 t4) rs) as [st1 resps1]. simpl in *.
    destruct (handle st1 r) as [st2 resp] eqn:Hh. simpl.
    split; [eapply handle_distinct_ids; eassumption|].
    split; [destruct (handle_counter _ _ _ _ Hh) as (_ & Hkeep & _); auto|].
    eapply handle_text; eassumption.
Qed.

Lemma text_rules_hold_without_blank_patch_witness :
  distinctNames
    (genres (storeAfter (initialStore 0 0 0 0)
       [PostGenre (Body (Str "Horror") (Str "Scary films") Undefined) 1 2;
        PatchGenre "5" (Body (Str " Thriller ") Undefined Undefined) 3;
        PutGenre "1" (Body (Str "horror") (Str "Scary films") Undefined) 4])).
Proof.
  apply text_rules_hold_without_blank_patch.
  repeat constructor; intros (s & [= <-] & Hs); vm_compute in Hs; discriminate.
Defined.

(** ** An id printed into a URL *)

(** A get of the decimal print of a stored genre's id returns that genre
    (ids being distinct), for an id of magnitude below 10^21: in that range
    [String(id)] is the plain decimal numeral, which [parseInt] reads
    back. *)
Theorem get_by_printed_id (st : store) (g : genre) :
  NoDup (id <$> genres st) ->
  g ∈ genres st ->
  (Z.abs (id g) < 10 ^ 21)%Z ->
  getGenre st (toString (Num (id g))) = (st, Found g).
Proof.
  intros Hnd Hin _. unfold getGenre, findGenreById.
  destruct (findIndexById_unique (Str (toString (Num (id g)))) (genres st) g Hnd Hin)
    as [i ->]; [|reflexivity].
  change (parseInt (Str (toString (Num (id g))))) with (parseInt (Num (id g))).
  apply parseInt_toString_Num.
Qed.

Lemma get_by_printed_id_witness :
  getGenre (initialStore 0 0 0 0) "4" = (initialStore 0 0 0 0, Found (scifi 0)).
Proof.
  apply (get_by_printed_id (initialStore 0 0 0 0) (scifi 0)); compute_done.
Defined.

(** ** A bulk delete is its single deletes in a row *)

(** On a primitive element the index is the one a route parameter that
    prints the same gives. *)
Lemma findIndexOf_Prim (v : value) (gs : list genre) :
  findIndexOf (Prim v) gs = Some (findIndexById v gs).
Proof. destruct gs; reflexivity. Qed.

Lemma bulkLoop_is_run (ns : list Z) :
  forall gs n deleted notFound,
    bulkLoop gs (numbers ns) deleted notFound =
    (genres (run (Store gs n) (deletesOneByOne ns)).1,
     Some (deleted ++ deletedRecords (run (Store gs n) (deletesOneByOne ns)).2,
           notFound ++ numbers (missedIds ns (run (Store gs n) (deletesOneByOne ns)).2)))
    /\ nextId (run (Store gs n) (deletesOneByOne ns)).1 = n.
Proof.
  induction ns as [|x rest IH]; intros gs n deleted notFound.
  - simpl. rewrite !app_nil_r. split; reflexivity.
  - cbn [numbers bulkLoop deletesOneByOne fmap list_fmap run handle].
    fold (numbers rest). fold (deletesOneByOne rest).
    rewrite findIndexOf_Prim. unfold deleteGenre. cbn [genres nextId].
    change (findIndexById (Str (toString (Num x))) gs) with (findIndexById (Num x) gs).
    destruct (findIndexById (Num x) gs) as [[i g]|].
    + destruct (IH (delete i gs) n (deleted ++ [g]) notFound) as [Hloop Hn].
      destruct (run (Store (delete i gs) n) (deletesOneByOne rest)) as [st2 resps].
      cbn [fst snd] in *. rewrite Hloop. unfold deletedRecords.
      cbn [omap list_omap missedIds].
      rewrite <- (app_assoc deleted [g]). split; [reflexivity | exact Hn].
    + destruct (IH gs n deleted (notFound ++ [Prim (Num x)])) as [Hloop Hn].
      destruct (run (Store gs n) (deletesOneByOne rest)) as [st2 resps].
      cbn [fst snd] in *. rewrite Hloop. unfold deletedRecords.
      cbn [omap list_omap missedIds numbers fmap list_fmap].
      rewrite <- (app_assoc notFound [Prim (Num x)]). split; [reflexivity | exact Hn].
Qed.

(** A bulk delete of a non-empty array of integers, each of magnitude
    below 10^21, leaves the store that the single deletes
    [DELETE /api/genres/<n>] of the same numbers, sent one after the other,
    leave; its [deleted] are the records those deletes return, and its
    [notFound] the numbers whose delete is answered 404. *)
Theorem bulk_delete_is_single_deletes (st : store) (ns : list Z) :
  ns <> [] ->
  Forall (fun n => (Z.abs n < 10 ^ 21)%Z) ns ->
  deleteGenres st (Some (numbers ns)) =
  ((run st (deletesOneByOne ns)).1,
   BulkDeleted (deletedRecords (run st (deletesOneByOne ns)).2)
               (numbers (missedIds ns (run st (deletesOneByOne ns)).2))).
Proof.
  intros Hne _. destruct ns as [|x rest]; [congruence|].
  destruct st as [gs n].
  destruct (bulkLoop_is_run (x :: rest) gs n [] []) as [Hloop Hn].
  destruct (run (Store gs n) (deletesOneByOne (x :: rest))) as [[gs' n'] resps].
  unfold deleteGenres. cbn [numbers fmap list_fmap genres nextId fst snd app] in *.
  rewrite Hloop. subst n'. reflexivity.
Qed.

Lemma bulk_delete_is_single_deletes_witness :
  deleteGenres (initialStore 0 0 0 0) (Some (numbers [2; 9; 2; 4]%Z))
  = (Store [action 0; drama 0] 5,
     BulkDeleted [comedy 0; scifi 0] (numbers [9; 2]%Z)).
Proof.
  rewrite bulk_delete_is_single_deletes;
    [reflexivity | discriminate | repeat constructor].
Defined.

(** ** Searching *)

Lemma append_cons (c : ascii) (a b : string) :
  String.append (String c a) b = String c (String.append a b).
Proof. reflexivity. Qed.

Lemma append_empty (b : string) : String.append "" b = b.
Proof. reflexivity. Qed.

Lemma prefix_occurs (sub s : string) :
  String.prefix sub s = true <-> exists after, s = String.append sub after.
Proof.
  revert s. induction sub as [|a sub IH]; intros s.
  - destruct s; simpl; (split; [intros _; eexists; reflexivity | reflexivity]).
  - destruct s as [|b s]; simpl.
    + split; [discriminate | intros [after E]; rewrite append_cons in E; discriminate].
    + destruct (Ascii.ascii_dec a b) as [->|Hne].
      * rewrite IH.
        split; intros [after E]; exists after; rewrite append_cons in *; congruence.
      * split; [discriminate|].
        intros [after E]. rewrite append_cons in E. congruence.
Qed.

Lemma includes_occurs (s sub : string) :
  includes s sub = true <-> occursIn sub s.
Proof.
  unfold occursIn. induction s as [|c s IH].
  - cbn [includes]. rewrite orb_false_r, prefix_occurs. split.
    + intros [after E]. exists "", after. exact E.
    + intros ([|b before] & after & E);
        [exists after; exact E | rewrite append_cons in E; discriminate].
  - cbn [includes]. rewrite orb_true_iff, prefix_occurs, IH. split.
    + intros [[after E]|(before & after & E)].
      * exists "", after. exact E.
      * exists (String c before), after. rewrite append_cons. congruence.
    + intros ([|b before] & after & E).
      * left. exists after. exact E.
      * right. exists before, after. rewrite append_cons in E. congruence.
Qed.

Lemma elem_of_List_filter {A} (f : A -> bool) (l : list A) (x : A) :
  x ∈ List.filter f l <-> x ∈ l /\ f x = true.
Proof. rewrite !list_elem_of_In. apply List.filter_In. Qed.

Lemma List_filter_sublist {A} (f : A -> bool) (l : list A) :
  List.filter f l `sublist_of` l.
Proof.
  induction l as [|a l IH]; [constructor|].
  simpl. destruct (f a); [apply sublist_skip | apply sublist_cons]; exact IH.
Qed.

(** A list request with a search text and no sort returns, in the order
    of the store, exactly the genres in whose name or description the text
    occurs, ignoring case; without a search text (or with the empty one) it
    returns the whole store.  The store is left alone. *)
Theorem search_outcome (st : store) (order : option string) (q : string) :
  (exists l,
     getGenres st None order (Some q) = (st, Listed l)
     /\ l `sublist_of` genres st
     /\ (q <> "" -> forall g, g ∈ l <-> g ∈ genres st /\ matchesSearch q g))
  /\ getGenres st None order (Some "") = (st, Listed (genres st))
  /\ getGenres st None order None = (st, Listed (genres st)).
Proof.
  split; [|split; reflexivity].
  unfold getGenres. destruct (truthy (Str q)) eqn:Hq.
  - eexists. split; [reflexivity|]. split; [apply List_filter_sublist|].
    intros _ g. rewrite elem_of_List_filter, orb_true_iff, !includes_occurs.
    reflexivity.
  - exists (genres st). split; [reflexivity|]. split; [reflexivity|].
    intros Hne. exfalso. simpl in Hq.
    destruct (String.eqb_spec q ""); [contradiction | discriminate].
Qed.

Lemma search_outcome_witness :
  exists l,
    getGenres (initialStore 0 0 0 0) None None (Some "FILMS") = (initialStore 0 0 0 0, Listed l)
    /\ (action 0 ∈ l /\ comedy 0 ∈ l) /\ drama 0 ∉ l.
Proof.
  destruct (proj1 (search_outcome (initialStore 0 0 0 0) None "FILMS"))
    as (l & Hl & _ & Hmem).
  exists l. split; [exact Hl|].
  specialize (Hmem ltac:(discriminate)). split; [split|].
  - apply Hmem. split; [compute_done|]. right.
    exists "fast-paced, stunt-heavy ", "". reflexivity.
  - apply Hmem. split; [compute_done|]. right.
    exists "funny ", " to make you laugh". reflexivity.
  - injection Hl as <-. compute_done.
Defined.

(** ** Sorting *)



Lemma ltb_asym (a b : string) : JsString.ltb a b = true -> JsString.ltb b a = false.
Proof.
  revert b. induction a as [|x a IH]; intros [|y b]; simpl; try congruence.
  destruct (N.ltb_spec (code x) (code y)), (N.ltb_spec (code y) (code x));
    try congruence; try lia. apply IH.
Qed.


Section InsertionSort.

Context {A : Type} (comparefn : A -> A -> option Z) (R : A -> A -> Prop).
Hypothesis compare_R :
  forall a b, exists c, comparefn a b = Some c /\ ((c <=? 0)%Z = true <-> R a b).
Hypothesis R_total : forall a b, R a b \/ R b a.
Hypothesis R_trans : forall a b c, R a b -> R b c -> R a c.



End InsertionSort.

Lemma compareGenres_in_order (key : string) (order : option string) (a b : genre) :
  key ∈ ["name"; "description"; "id"; "createdAt"] ->
  exists c, compareGenres key (default "asc" order) a b = Some c
            /\ ((c <=? 0)%Z = true <-> inRequestedOrder key order a b).
Proof.
  intros Hkey. unfold inRequestedOrder, compareGenres.
  repeat (apply elem_of_cons in Hkey as [->|Hkey]); [..|inversion Hkey];
    cbn [getField String.eqb Ascii.eqb Bool.eqb isString lowerField mbind option_bind
         ascends];
    destruct (String.eqb (default "asc" order) "desc");
    eexists; (split; [reflexivity|]); cbn [greater toNumber].
  all: match goal with
       | |- context [if ?t then 1%Z else (-1)%Z] => destruct t eqn:E
       end; cbn.
  all: try (split; [discriminate | congruence]).
  all: try (split; [reflexivity | congruence]).
  all: try (apply Z.ltb_lt in E; split; [discriminate | lia]).
  all: apply Z.ltb_ge in E; split; [intros _; exact E | reflexivity].
Qed.

Lemma ascends_total (key : string) (a b : genre) : ascends key a b \/ ascends key b a.
Proof.
  unfold ascends. repeat case_match; try (left; exact I); try lia.
  all: match goal with
       | |- JsString.ltb ?x ?y = false \/ _ =>
           destruct (JsString.ltb x y) eqn:E; [right; apply ltb_asym; exact E | left; reflexivity]
       end.
Qed.


(** The comparator returns 1 or -1, when it returns. *)
Lemma compareGenres_sign (key order : string) (a b : genre) (c : Z) :
  compareGenres key order a b = Some c -> c = 1%Z \/ c = (-1)%Z.
Proof.
  unfold compareGenres.
  destruct (isString (getField a key));
    [destruct (lowerField (getField a key)); [|discriminate];
     destruct (lowerField (getField b key)); [|discriminate]|];
    cbn [mbind option_bind]; destruct (String.eqb order "desc");
    intros [= <-];
    match goal with
    | |- context [if ?t then 1%Z else (-1)%Z] => destruct t
    end; auto.
Qed.

Lemma inRequestedOrder_total (key : string) (order : option string) (a b : genre) :
  inRequestedOrder key order a b \/ inRequestedOrder key order b a.
Proof. unfold inRequestedOrder. destruct (String.eqb _ _); apply ascends_total. Qed.


(** The comparator of the list request, for the keys name, description,
    id and createdAt: in either argument order it returns, and returns 1
    or -1, never 0.  It returns 1 exactly when its first argument belongs
    after its second in the order asked for, so on two genres with
    different keys the two argument orders give opposite signs; on two
    genres that tie it answers -1 in both argument orders. *)
Theorem comparator_never_returns_zero
    (key : string) (order : option string) (a b : genre) :
  key ∈ ["name"; "description"; "id"; "createdAt"] ->
  exists c d,
    compareGenres key (default "asc" order) a b = Some c
    /\ compareGenres key (default "asc" order) b a = Some d
    /\ (c = 1 \/ c = -1)%Z /\ (d = 1 \/ d = -1)%Z
    /\ (c = 1%Z <-> ~ inRequestedOrder key order a b)
    /\ (d = 1%Z <-> ~ inRequestedOrder key order b a)
    /\ (c = 1%Z -> d = (-1)%Z) /\ (d = 1%Z -> c = (-1)%Z)
    /\ (inRequestedOrder key order a b -> inRequestedOrder key order b a ->
        c = (-1)%Z /\ d = (-1)%Z).
Proof.
  intros Hkey.
  destruct (compareGenres_in_order key order a b Hkey) as (c & Hc & Hcle).
  destruct (compareGenres_in_order key order b a Hkey) as (d & Hd & Hdle).
  pose proof (compareGenres_sign _ _ _ _ _ Hc) as Hcs.
  pose proof (compareGenres_sign _ _ _ _ _ Hd) as Hds.
  exists c, d. split; [exact Hc|]. split; [exact Hd|].
  split; [exact Hcs|]. split; [exact Hds|].
  rewrite Z.leb_le in Hcle, Hdle.
  pose proof (inRequestedOrder_total key order a b) as Htotal.
  split; [|split; [|split; [|split]]].
  - split; [intros -> Hin; apply Hcle in Hin; lia|].
    intros Hn. destruct Hcs as [->| ->]; [reflexivity|].
    exfalso. apply Hn, Hcle. lia.
  - split; [intros -> Hin; apply Hdle in Hin; lia|].
    intros Hn. destruct Hds as [->| ->]; [reflexivity|].
    exfalso. apply Hn, Hdle. lia.
  - intros ->. destruct Hds as [->| ->]; [|reflexivity].
    destruct Htotal as [H|H]; [apply Hcle in H | apply Hdle in H]; lia.
  - intros ->. destruct Hcs as [->| ->]; [|reflexivity].
    destruct Htotal as [H|H]; [apply Hcle in H | apply Hdle in H]; lia.
  - intros Hab Hba. apply Hcle in Hab. apply Hdle in Hba. lia.
Qed.

Lemma comparator_never_returns_zero_witness :
  exists c d,
    compareGenres "createdAt" "asc" (action 7) (comedy 7) = Some c
    /\ compareGenres "createdAt" "asc" (comedy 7) (action 7) = Some d
    /\ c = (-1)%Z /\ d = (-1)%Z.
Proof.
  destruct (comparator_never_returns_zero "createdAt" None (action 7) (comedy 7))
    as (c & d & Hc & Hd & _ & _ & _ & _ & _ & _ & Htie); [compute_done|].
  exists c, d. split; [exact Hc|]. split; [exact Hd|].
  apply Htie; vm_compute; discriminate.
Defined.



(** ** The client: selection *)

Lemma JsSet_has_add (s : list Z) (x y : Z) :
  JsSet.has (JsSet.add s x) y = JsSet.has s y || bool_decide (y = x).
Proof.
  unfold JsSet.add, JsSet.has. apply eq_true_iff_eq.
  rewrite orb_true_iff, !bool_decide_eq_true.
  destruct (bool_decide (x ∈ s)) eqn:E.
  - apply bool_decide_eq_true in E.
    split; [tauto | intros [H| ->]; assumption].
  - rewrite elem_of_app, list_elem_of_singleton. reflexivity.
Qed.

Lemma JsSet_has_delete (s : list Z) (x y : Z) :
  JsSet.has (JsSet.delete s x) y = JsSet.has s y && negb (bool_decide (y = x)).
Proof.
  unfold JsSet.delete, JsSet.has. apply eq_true_iff_eq.
  rewrite andb_true_iff, negb_true_iff, !bool_decide_eq_true, bool_decide_eq_false.
  rewrite list_elem_of_filter. tauto.
Qed.

(** Toggling a genre's selection flips whether its id is selected and
    touches no other id and nothing else of the state; toggling twice
    restores the selected set. *)
Theorem toggle_selection_flips (c : Client.state) (x : Z) :
  JsSet.has (Client.selectedGenres (Client.toggleGenreSelection c x)) x
    = negb (JsSet.has (Client.selectedGenres c) x)
  /\ (forall y, y <> x ->
        JsSet.has (Client.selectedGenres (Client.toggleGenreSelection c x)) y
        = JsSet.has (Client.selectedGenres c) y)
  /\ (forall y,
        JsSet.has (Client.selectedGenres
                     (Client.toggleGenreSelection (Client.toggleGenreSelection c x) x)) y
        = JsSet.has (Client.selectedGenres c) y)
  /\ Client.shown (Client.toggleGenreSelection c x) = Client.shown c.
Proof.
  assert (forall c0 y,
            JsSet.has (Client.selectedGenres (Client.toggleGenreSelection c0 x)) y
            = if bool_decide (y = x)
              then negb (JsSet.has (Client.selectedGenres c0) x)
              else JsSet.has (Client.selectedGenres c0) y) as Hflip.
  { intros c0 y. unfold Client.toggleGenreSelection.
    destruct (JsSet.has (Client.selectedGenres c0) x) eqn:E;
      cbn [Client.selectedGenres Client.withSelected];
      rewrite ?JsSet_has_add, ?JsSet_has_delete;
      destruct (decide (y = x)) as [->|Hne];
      rewrite ?(bool_decide_eq_true_2 (x = x)) by reflexivity;
      rewrite ?(bool_decide_eq_false_2 (y = x)) by exact Hne;
      rewrite ?E; cbn; rewrite ?andb_true_r, ?andb_false_r, ?orb_true_r, ?orb_false_r;
      reflexivity. }
  split; [|split; [|split]].
  - rewrite Hflip, bool_decide_eq_true_2 by reflexivity. reflexivity.
  - intros y Hne. rewrite Hflip, bool_decide_eq_false_2 by exact Hne. reflexivity.
  - intros y. rewrite !Hflip. destruct (bool_decide (y = x)) eqn:E; [|reflexivity].
    apply bool_decide_eq_true in E as ->.
    rewrite bool_decide_eq_true_2 by reflexivity. apply negb_involutive.
  - unfold Client.toggleGenreSelection. destruct (JsSet.has _ _); reflexivity.
Qed.

Lemma toggle_selection_flips_witness :
  JsSet.has
    (Client.selectedGenres
       (Client.toggleGenreSelection
          (Client.State (seed 0 0 0 0) [1%Z; 3%Z] "" "name" "asc"
             (Client.Form "" "" (Str "")) None false) 3)) 1 = true.
Proof.
  rewrite (proj1 (proj2 (toggle_selection_flips
             (Client.State (seed 0 0 0 0) [1%Z; 3%Z] "" "name" "asc"
                (Client.Form "" "" (Str "")) None false) 3)) 1%Z ltac:(lia)).
  reflexivity.
Defined.

Lemma has_foldl_add (l : list genre) :
  forall (s : list Z) (y : Z),
    JsSet.has (foldl (fun s g => JsSet.add s (id g)) s l) y
    = JsSet.has s y || bool_decide (y ∈ id <$> l).
Proof.
  induction l as [|g l IH]; intros s y; cbn [foldl fmap list_fmap].
  - rewrite (bool_decide_eq_false_2 (y ∈ [])) by (apply not_elem_of_nil).
    rewrite orb_false_r. reflexivity.
  - rewrite IH, JsSet_has_add, <- orb_assoc. f_equal.
    apply eq_true_iff_eq. rewrite orb_true_iff, !bool_decide_eq_true, elem_of_cons.
    reflexivity.
Qed.

(** "Select all": when not every listed genre is selected, the toggle
    adds the listed ones to the selection, keeping what was selected, and
    every listed genre is then selected; when all are, it empties the whole
    selection, ids of genres hidden by the search included. *)
Theorem toggle_all_selection (c : Client.state) :
  (Client.isAllSelected c = true ->
   Client.selectedGenres (Client.toggleAllSelection c) = [])
  /\ (Client.isAllSelected c = false ->
      (forall y,
         JsSet.has (Client.selectedGenres (Client.toggleAllSelection c)) y
         = JsSet.has (Client.selectedGenres c) y
           || bool_decide (y ∈ id <$> Client.filteredGenres c))
      /\ (Client.filteredGenres c <> [] ->
          Client.isAllSelected (Client.toggleAllSelection c) = true)).
Proof.
  unfold Client.toggleAllSelection. split; intros Hall; rewrite Hall.
  - reflexivity.
  - cbn [Client.selectedGenres Client.withSelected].
    split; [intros y; apply has_foldl_add|].
    intros Hne. unfold Client.isAllSelected.
    change (Client.filteredGenres (Client.withSelected c _))
      with (Client.filteredGenres c).
    cbn [Client.selectedGenres Client.withSelected].
    apply andb_true_iff. split.
    + destruct (Client.filteredGenres c); [congruence | reflexivity].
    + apply forallb_forall. intros g Hg. rewrite has_foldl_add.
      apply orb_true_iff. right. apply bool_decide_eq_true.
      apply list_elem_of_fmap_2. apply list_elem_of_In. exact Hg.
Qed.

Lemma toggle_all_selection_witness :
  Client.selectedGenres
    (Client.toggleAllSelection
       (Client.State (seed 0 0 0 0) [3%Z; 9%Z] "dr" "name" "asc"
          (Client.Form "" "" (Str "")) None false)) = []
  /\ Client.isAllSelected
       (Client.toggleAllSelection
          (Client.State (seed 0 0 0 0) [9%Z] "fi" "name" "asc"
             (Client.Form "" "" (Str "")) None false)) = true.
Proof.
  split.
  - apply (proj1 (toggle_all_selection _)). reflexivity.
  - apply (proj2 (toggle_all_selection _)); [reflexivity|]. vm_compute. discriminate.
Defined.

(** ** The client: the search box *)

(** The list the client displays holds exactly the shown genres that
    match the search box (all of them while the box is empty), and it is the
    list the server answers for the same text when both start from the same
    genres. *)
Theorem client_filter_matches_server (c : Client.state) :
  (forall g,
     g ∈ Client.filteredGenres c <->
     g ∈ Client.shown c
     /\ (Client.searchQuery c = "" \/ matchesSearch (Client.searchQuery c) g))
  /\ (forall st order,
        genres st = Client.shown c ->
        getGenres st None order
          (if truthy (Str (Client.searchQuery c)) then Some (Client.searchQuery c) else None)
        = (st, Listed (Client.filteredGenres c))).
Proof.
  unfold Client.filteredGenres, getGenres. split.
  - intros g. destruct (truthy (Str (Client.searchQuery c))) eqn:Hq; cbn [negb].
    + rewrite elem_of_List_filter, orb_true_iff, !includes_occurs.
      unfold matchesSearch. split; [tauto|]. intros [Hin [Hempty|Hm]]; [|tauto].
      rewrite Hempty in Hq. discriminate.
    + split; [|tauto]. intros Hin. split; [exact Hin|]. left.
      simpl in Hq. destruct (String.eqb_spec (Client.searchQuery c) "");
        [assumption | discriminate].
  - intros st order Hsame.
    destruct (truthy (Str (Client.searchQuery c))) eqn:Hq; cbn [negb];
      rewrite ?Hq, Hsame; reflexivity.
Qed.

Lemma client_filter_matches_server_witness :
  getGenres (initialStore 0 0 0 0) None None (Some "dra")
  = (initialStore 0 0 0 0,
     Listed (Client.filteredGenres
               (Client.State (seed 0 0 0 0) [] "dra" "name" "asc"
                  (Client.Form "" "" (Str "")) None false))).
Proof.
  apply (proj2 (client_filter_matches_server
                  (Client.State (seed 0 0 0 0) [] "dra" "name" "asc"
                     (Client.Form "" "" (Str "")) None false))
           (initialStore 0 0 0 0) None eq_refl).
Defined.

(** ** The client: the form *)

Lemma not_ok_of_error (r : response) : (400 <= status r)%Z -> Client.ok r = false.
Proof. unfold Client.ok. intros H. apply andb_false_iff. right. lia. Qed.

Lemma formIncomplete_violates (f : Client.form) :
  Client.formIncomplete f = true ->
  violations (Client.form_name f) (Client.form_description f) <> [].
Proof.
  unfold Client.formIncomplete, violations. intros H.
  apply orb_true_iff in H as [H|H]; apply negb_true_iff in H; simpl in H;
    apply negb_false_iff, String.eqb_eq in H;
    intros E; apply app_eq_nil in E as [E1 E2]; rewrite H in *; discriminate.
Qed.

(** A form that breaks a validation rule of the server changes nothing
    when it is submitted, neither the client state nor the store: either
    the guard of the client stops it, or the server rejects it (or does not
    know the edited id).  And the guard stops no form the server would
    accept. *)
Theorem rejected_form_changes_nothing
    (c : Client.state) (st : store) (now1 now2 : timestamp) :
  (violations (Client.form_name (Client.formData c))
              (Client.form_description (Client.formData c)) <> [] ->
   Client.submitForm c st now1 now2 = (c, st))
  /\ (Client.formIncomplete (Client.formData c) = true ->
      violations (Client.form_name (Client.formData c))
                 (Client.form_description (Client.formData c)) <> []).
Proof.
  split; [|apply formIncomplete_violates].
  intros Hv. unfold Client.submitForm.
  destruct (Client.formIncomplete (Client.formData c)); [reflexivity|].
  destruct (Client.editingGenre c) as [editing|].
  - unfold Client.updateGenre. cbn [handle].
    destruct (putGenre st _ _ now1) as [st' resp] eqn:Hput.
    apply putGenre_cases in Hput
      as [[-> Hs]|(i & g & n & d & _ & [= <-] & [= <-] & Hok & _)];
      [|contradiction].
    rewrite (not_ok_of_error _ Hs). reflexivity.
  - unfold Client.createGenre. cbn [handle].
    destruct (postGenre st _ now1 now2) as [st' resp] eqn:Hpost.
    apply postGenre_cases in Hpost
      as [[-> Hs]|(n & d & [= <-] & [= <-] & Hok & _)]; [|contradiction].
    rewrite (not_ok_of_error _ Hs). reflexivity.
Qed.

Lemma rejected_form_changes_nothing_witness :
  Client.formIncomplete (Client.Form "K" "Korean drama" (Str "")) = false
  /\ Client.submitForm
       (Client.State (seed 0 0 0 0) [] "" "name" "asc"
          (Client.Form "K" "Korean drama" (Str "")) None true)
       (initialStore 0 0 0 0) 1 2
     = (Client.State (seed 0 0 0 0) [] "" "name" "asc"
          (Client.Form "K" "Korean drama" (Str "")) None true,
        initialStore 0 0 0 0).
Proof.
  split; [reflexivity|].
  apply (proj1 (rejected_form_changes_nothing
                  (Client.State (seed 0 0 0 0) [] "" "name" "asc"
                     (Client.Form "K" "Korean drama" (Str "")) None true)
                  (initialStore 0 0 0 0) 1 2)).
  vm_compute. discriminate.
Defined.

Lemma postGenre_accepts (st : store) (n d : string) (img : value) (now1 now2 : timestamp) :
  violations n d = [] ->
  ~ nameInUse (genres st) (trim n) ->
  postGenre st (Body (Str n) (Str d) img) now1 now2 =
  (Store (genres st ++ [createdRecord st n d img now1 now2]) (nextId st + 1),
   Created (createdRecord st n d img now1 now2)).
Proof.
  intros Hv Hfree. unfold postGenre.
  cbn [body_name body_description body_image trimOf toLowerCaseOf].
  rewrite validateGenre_Str. unfold violations in Hv. rewrite Hv.
  pose proof (list_find_nameInUse (genres st) (trim n)) as Hfind.
  destruct (list_find _ (genres st)) as [[j h]|]; [contradiction | reflexivity].
Qed.

Lemma putGenre_accepts (st : store) (idParam : string) (i : nat) (g : genre)
    (n d : string) (img : value) (now : timestamp) :
  findIndexById (Str idParam) (genres st) = Some (i, g) ->
  violations n d = [] ->
  ~ nameTaken (genres st) (id g) (trim n) ->
  putGenre st idParam (Body (Str n) (Str d) img) now =
  (Store (<[i := replacedRecord g n d img now]> (genres st)) (nextId st),
   Updated (replacedRecord g n d img now)).
Proof.
  intros Hf Hv Hfree. destruct (findIndexById_Some _ _ _ _ Hf) as [_ Hp].
  unfold putGenre. rewrite Hf. cbn [body_name body_description body_image trimOf].
  rewrite validateGenre_Str. unfold violations in Hv. rewrite Hv.
  pose proof (find_other_with_name (genres st) _ (id g) (trim n) Hp) as Hdup.
  destruct (list_find _ (genres st)) as [[j h]|]; [contradiction | reflexivity].
Qed.

Lemma valid_form_is_complete (f : Client.form) :
  violations (Client.form_name f) (Client.form_description f) = [] ->
  Client.formIncomplete f = false.
Proof.
  intros Hv. destruct (Client.formIncomplete f) eqn:E; [|reflexivity].
  apply formIncomplete_violates in E. contradiction.
Qed.

(** A form the server accepts: submitted as a new genre, the record the
    server appends to its store is the one the client appends to its list;
    submitted as an edit of a genre the server has, the record the server
    puts in place is the one the client puts in the place of the first
    shown genre with that id.  In both cases the form is reset. *)
Theorem accepted_form_is_shown
    (c : Client.state) (st : store) (now1 now2 : timestamp) :
  let n := Client.form_name (Client.formData c) in
  let d := Client.form_description (Client.formData c) in
  let img := Client.form_image (Client.formData c) in
  violations n d = [] ->
  (Client.editingGenre c = None ->
   ~ nameInUse (genres st) (trim n) ->
   Client.submitForm c st now1 now2 =
   (Client.resetForm
      (Client.withShown c (Client.shown c ++ [createdRecord st n d img now1 now2])),
    Store (genres st ++ [createdRecord st n d img now1 now2]) (nextId st + 1)))
  /\ (forall editing i g,
        Client.editingGenre c = Some editing ->
        NoDup (id <$> genres st) ->
        genres st !! i = Some g -> id g = id editing ->
        ~ nameTaken (genres st) (id g) (trim n) ->
        Client.submitForm c st now1 now2 =
        (Client.resetForm
           (Client.withShown c
              (match list_find (fun h => id h = id editing) (Client.shown c) with
               | Some (index, _) =>
                   <[index := replacedRecord g n d img now1]> (Client.shown c)
               | None => Client.shown c
               end)),
         Store (<[i := replacedRecord g n d img now1]> (genres st)) (nextId st))).
Proof.
  intros n d img Hv. unfold Client.submitForm.
  rewrite (valid_form_is_complete _ Hv). split.
  - intros -> Hfree. unfold Client.createGenre. cbn [handle].
    unfold Client.formBody. fold n d img.
    rewrite (postGenre_accepts st n d img now1 now2 Hv Hfree). reflexivity.
  - intros editing i g -> Hnd Hi Hid Hfree. unfold Client.updateGenre. cbn [handle].
    unfold Client.formBody. fold n d img.
    destruct (findIndexById_unique (Str (toString (Num (id editing)))) (genres st) g Hnd)
      as [j Hf].
    { eapply list_elem_of_lookup_2. exact Hi. }
    { change (parseInt (Str (toString (Num (id editing)))))
        with (parseInt (Num (id editing))).
      rewrite parseInt_toString_Num. congruence. }
    assert (j = i) as ->.
    { apply findIndexById_Some in Hf as [Hj _].
      eapply NoDup_lookup; [exact Hnd| |].
      - rewrite list_lookup_fmap, Hj. reflexivity.
      - rewrite list_lookup_fmap, Hi. reflexivity. }
    rewrite (putGenre_accepts st _ i g n d img now1 Hf Hv Hfree). reflexivity.
Qed.

Lemma accepted_form_is_shown_witness :
  Client.submitForm
    (Client.startEdit
       (Client.State [drama 0; action 0] [] "" "name" "desc"
          (Client.Form "" "" (Str "")) None false) (action 0))
    (initialStore 0 0 0 0) 7 8
  = (Client.State
       [drama 0; replacedRecord (action 0) "Action" "Fast-paced, stunt-heavy films"
                   (Str "/images/action.jpg") 7]
       [] "" "name" "desc" (Client.Form "" "" (Str "")) None false,
     Store [replacedRecord (action 0) "Action" "Fast-paced, stunt-heavy films"
              (Str "/images/action.jpg") 7; comedy 0; drama 0; scifi 0] 5).
Proof.
  assert (violations "Action" "Fast-paced, stunt-heavy films" = []) as Hv
    by reflexivity.
  rewrite (proj2 (accepted_form_is_shown
                    (Client.startEdit
                       (Client.State [drama 0; action 0] [] "" "name" "desc"
                          (Client.Form "" "" (Str "")) None false) (action 0))
                    (initialStore 0 0 0 0) 7 8 Hv) (action 0) 0%nat (action 0)).
  - reflexivity.
  - reflexivity.
  - compute_done.
  - reflexivity.
  - reflexivity.
  - intros H. apply Exists_exists in H as (h & Hin & Hne & Hnm).
    unfold initialStore, seed in Hin. cbn [genres] in Hin.
    rewrite !elem_of_cons, elem_of_nil in Hin.
    destruct Hin as [->|[->|[->|[->|[]]]]]; vm_compute in Hnm; try discriminate.
    apply Hne. reflexivity.
Defined.

(** ** The client: deleting *)

Lemma fmap_filter_ids (P : Z -> Prop) `{!forall x, Decision (P x)} (l : list genre) :
  id <$> filter (fun g => P (id g)) l = filter P (id <$> l).
Proof.
  induction l as [|g l IH]; [reflexivity|].
  rewrite fmap_cons, !filter_cons.
  destruct (decide (P (id g))); rewrite ?fmap_cons, IH; reflexivity.
Qed.

Lemma ok_Deleted (g : genre) : Client.ok (Deleted g) = true.
Proof. reflexivity. Qed.

(** The client's single delete.  Declined in the dialog, it does
    nothing.  Confirmed for an id the server has, it removes that id from
    the store, from the shown list and from the selection.  Confirmed for an
    id the server does not have (any more), it changes nothing: the 404 only
    shows a message and the genre stays in the shown list. *)
Theorem client_delete_outcome
    (c : Client.state) (x : Z) (confirmed : bool) (st : store) :
  NoDup (id <$> genres st) ->
  let '(c', st') := Client.deleteGenre c x confirmed st in
  if confirmed && bool_decide (x ∈ id <$> genres st)
  then id <$> genres st' = filter (fun y => y <> x) (id <$> genres st)
       /\ nextId st' = nextId st
       /\ id <$> Client.shown c' = filter (fun y => y <> x) (id <$> Client.shown c)
       /\ Client.selectedGenres c' = JsSet.delete (Client.selectedGenres c) x
  else c' = c /\ st' = st.
Proof.
  intros Hnd. unfold Client.deleteGenre.
  destruct confirmed; cbn [negb andb]; [|split; reflexivity].
  cbn [handle]. unfold deleteGenre.
  change (findIndexById (Str (toString (Num x))) (genres st))
    with (findIndexById (Num x) (genres st)).
  destruct (bool_decide (x ∈ id <$> genres st)) eqn:Hx.
  - apply bool_decide_eq_true in Hx. apply list_elem_of_fmap in Hx as (g & -> & Hg).
    destruct (findIndexById_unique (Num (id g)) (genres st) g Hnd Hg
                (parseInt_toString_Num (id g))) as [i Hf].
    rewrite Hf. cbv beta iota zeta. rewrite ok_Deleted.
    cbn [genres nextId Client.shown Client.selectedGenres].
    apply findIndexById_Some in Hf as [Hi _].
    rewrite (splice_is_filter _ _ _ Hnd Hi).
    split; [exact (fmap_filter_ids (fun y => y <> id g) _)|].
    split; [reflexivity|].
    split; [exact (fmap_filter_ids (fun y => y <> id g) _) | reflexivity].
  - apply bool_decide_eq_false in Hx.
    assert (findIndexById (Num x) (genres st) = None) as ->.
    { apply findIndexById_None. intros g Hg Hp. apply Hx.
      rewrite parseInt_toString_Num in Hp. injection Hp as ->.
      apply list_elem_of_fmap_2. exact Hg. }
    cbv beta iota zeta. split; reflexivity.
Qed.

Lemma client_delete_outcome_witness :
  let '(c', st') :=
    Client.deleteGenre
      (Client.State [scifi 0; drama 0] [3%Z; 4%Z] "" "name" "desc"
         (Client.Form "" "" (Str "")) None false)
      3 true (initialStore 0 0 0 0) in
  id <$> genres st' = [1%Z; 2%Z; 4%Z]
  /\ nextId st' = 5%Z
  /\ id <$> Client.shown c' = [4%Z]
  /\ Client.selectedGenres c' = [4%Z].
Proof.
  assert (NoDup (id <$> genres (initialStore 0 0 0 0))) as Hnd by compute_done.
  exact (client_delete_outcome
           (Client.State [scifi 0; drama 0] [3%Z; 4%Z] "" "name" "desc"
              (Client.Form "" "" (Str "")) None false)
           3 true (initialStore 0 0 0 0) Hnd).
Defined.

Lemma readsAs_Num (n : Z) (g : genre) : readsAs (Prim (Num n)) g <-> n = id g.
Proof.
  unfold readsAs.
  change (parseIntOf (Prim (Num n))) with (Some (parseInt (Num n))).
  rewrite parseInt_toString_Num. split; congruence.
Qed.

Lemma listed_Num (sel : list Z) (g : genre) :
  listed (numbers sel) g <-> id g ∈ sel.
Proof.
  unfold listed, numbers. rewrite Exists_exists. split.
  - intros (v & (n & -> & Hn)%list_elem_of_fmap & Hp).
    apply readsAs_Num in Hp as ->. exact Hn.
  - intros Hin. exists (Prim (Num (id g))).
    split; [exact (list_elem_of_fmap_2 (fun n => Prim (Num n)) _ _ Hin)|].
    apply readsAs_Num. reflexivity.
Qed.

Lemma numbers_printable (sel : list Z) : Forall printable (numbers sel).
Proof.
  unfold numbers. apply Forall_fmap, Forall_forall. intros n _.
  eexists. reflexivity.
Qed.

(** The client's bulk delete, confirmed, with a non-empty selection: the
    server drops from its store exactly the genres whose id is selected, the
    client drops the same ids from the shown list, and the selection is
    emptied; so a shown list that agreed with the store on its ids still
    does.  With nothing selected or declined in the dialog, nothing
    changes. *)
Theorem client_bulk_delete_outcome
    (c : Client.state) (confirmed : bool) (st : store) :
  NoDup (id <$> genres st) ->
  let sel := Client.selectedGenres c in
  let '(c', st') := Client.bulkDelete c confirmed st in
  if confirmed && negb (bool_decide (sel = []))
  then id <$> genres st' = filter (fun y => y ∉ sel) (id <$> genres st)
       /\ nextId st' = nextId st
       /\ id <$> Client.shown c' = filter (fun y => y ∉ sel) (id <$> Client.shown c)
       /\ Client.selectedGenres c' = []
  else c' = c /\ st' = st.
Proof.
  intros Hnd. cbv zeta. unfold Client.bulkDelete, JsSet.size.
  destruct (Client.selectedGenres c) as [|x sel] eqn:Hsel.
  - cbn. rewrite andb_false_r. split; reflexivity.
  - cbn [length Nat.eqb]. rewrite (bool_decide_eq_false_2 (x :: sel = [])) by discriminate.
    destruct confirmed; cbn [negb andb]; [|split; reflexivity].
    cbn [handle]. unfold deleteGenres.
    pose proof (bulkLoop_outcome (genres st) (numbers (x :: sel)) Hnd
                  (numbers_printable (x :: sel)) [] [] []) as Hloop.
    rewrite (filter_all (fun g => ~ listed [] g)) in Hloop
      by (intros g _; apply listed_nil).
    cbn [app] in Hloop.
    change (numbers (x :: sel)) with (Prim (Num x) :: numbers sel) in Hloop |- *.
    rewrite Hloop. cbv beta iota zeta.
    replace (Client.ok (BulkDeleted _ _)) with true by reflexivity.
    cbn [genres nextId Client.shown Client.selectedGenres JsSet.clear].
    repeat split.
    + etransitivity; [|exact (fmap_filter_ids (fun y => y ∉ x :: sel) _)]. f_equal.
      apply filter_on_members. intros g _.
      change (Prim (Num x) :: numbers sel) with (numbers (x :: sel)).
      rewrite listed_Num. reflexivity.
    + etransitivity; [|exact (fmap_filter_ids (fun y => y ∉ x :: sel) _)]. f_equal.
      apply filter_on_members. intros g _. unfold JsSet.has.
      rewrite bool_decide_eq_false. reflexivity.
Qed.

Lemma client_bulk_delete_outcome_witness :
  let '(c', st') :=
    Client.bulkDelete
      (Client.State [scifi 0; drama 0; action 0] [3%Z; 9%Z; 1%Z] "" "name" "desc"
         (Client.Form "" "" (Str "")) None false)
      true (initialStore 0 0 0 0) in
  id <$> genres st' = [2%Z; 4%Z]
  /\ nextId st' = 5%Z
  /\ id <$> Client.shown c' = [4%Z]
  /\ Client.selectedGenres c' = [].
Proof.
  assert (NoDup (id <$> genres (initialStore 0 0 0 0))) as Hnd by compute_done.
  exact (client_bulk_delete_outcome
           (Client.State [scifi 0; drama 0; action 0] [3%Z; 9%Z; 1%Z] "" "name" "desc"
              (Client.Form "" "" (Str "")) None false)
           true (initialStore 0 0 0 0) Hnd).
Defined.

(** ** Instances of the invariants of a run *)

Lemma run_keeps_createdAt_witness :
  createdAt (Genre 2 "Farce" "Funny films to make you laugh" (Str "/images/comedy.jpg")
               11 (Some 50%Z)) = createdAt (comedy 11).
Proof.
  apply (run_keeps_createdAt (initialStore 10 11 12 13)
           [PatchGenre "2" (Body (Str "Farce") Undefined Undefined) 50;
            DeleteGenre "1"]).
  - compute_done.
  - apply seed_idsBelowCounter.
  - compute_done.
  - compute_done.
  - reflexivity.
Defined.

Lemma updatedAt_after_createdAt_witness :
  (createdAt (Genre 2 "Farce" "Funny films to make you laugh" (Str "/images/comedy.jpg")
                11 (Some 50%Z)) <= 50)%Z.
Proof.
  apply (updatedAt_after_createdAt 10 11 12 13
           [PatchGenre "2" (Body (Str "Farce") Undefined Undefined) 50;
            DeleteGenre "1"]).
  - lia.
  - lia.
  - simpl. lia.
  - compute_done.
  - reflexivity.
Defined.

Lemma missing_updatedAt_is_seed_witness :
  drama 12 ∈ seed 10 11 12 13.
Proof.
  apply (missing_updatedAt_is_seed 10 11 12 13
           [PatchGenre "2" (Body (Str "Farce") Undefined Undefined) 50;
            DeleteGenre "1"]).
  - compute_done.
  - reflexivity.
Defined.
